(** * Kitwe: command resolution and execution core

    A shallow embedding of [kitwe-node/src/runner/resolver.ts],
    [kitwe-node/src/runner/executor.ts] and the parts of
    [kitwe-node/src/core/config.ts] they call, followed by the properties
    of the resolver and the executor.

    Conventions of the embedding:
    - an optional field [f?: T] is an [option T]; JavaScript truthiness of
      an optional string is [truthy] (defined and non-empty);
    - [Record<string, string>] is a [gmap string string], and
      [Object.assign(target, source)] is [source ∪ target] (stdpp's union
      keeps the left operand's bindings);
    - a function that may throw returns a [Completion];
    - Node's [fs], [path] and [child_process] are not repository code: the
      file system is a record of observations, [path] is the class
      [NodePath], and processes are the class [Host];
    - [mkdirSync] and [writeFileSync] may throw; the file writes of a run
      are recorded next to its calls of [runCommand];
    - the progress callback of the executor is an optional effect on the
      world; [run] is a run without one, as the MCP tool starts it. *)

From Stdlib Require Import ZArith Ascii String List Bool Lia.
From stdpp Require Import base option list gmap strings pretty.

Import ListNotations.
Local Open Scope Z_scope.

(* ===================================================================== *)
(** * JavaScript strings *)
(* ===================================================================== *)

Module Js.

(** [s.startsWith(p)] *)
Definition startsWith (p s : string) : bool := String.prefix p s.

(** [s.includes(needle)]: [needle] occurs at some position of [s]. *)
Fixpoint includes (needle s : string) : bool :=
  String.prefix needle s ||
  match s with
  | EmptyString => false
  | String _ rest => includes needle rest
  end.

(** [s.endsWith(suffix)]: some tail of [s] is [suffix]. *)
Fixpoint endsWith (suffix s : string) : bool :=
  String.eqb s suffix ||
  match s with
  | EmptyString => false
  | String _ rest => endsWith suffix rest
  end.

Definition lower_ascii (c : ascii) : ascii :=
  let n := nat_of_ascii c in
  if (Nat.leb 65 n && Nat.leb n 90)%bool then ascii_of_nat (n + 32) else c.

(** [s.toLowerCase()] on the ASCII letters; other bytes are kept.  The
    file-name patterns below are ASCII and contain no letter that a
    non-ASCII character lower-cases to. *)
Fixpoint toLowerCase (s : string) : string :=
  match s with
  | EmptyString => EmptyString
  | String c rest => String (lower_ascii c) (toLowerCase rest)
  end.

(** [parts.join(sep)] *)
Definition join (sep : string) (parts : list string) : string :=
  String.concat sep parts.

(** [xs.includes(x)] on an array of strings *)
Definition array_includes (x : string) (xs : list string) : bool :=
  existsb (String.eqb x) xs.

(** Truthiness of an optional string: defined and not empty. *)
Definition truthy (s : option string) : bool :=
  match s with
  | Some (String _ _) => true
  | _ => false
  end.

(** The non-null assertion [e!]: no run-time effect; only applied below
    where the value has just been tested truthy. *)
Definition assert_defined (s : option string) : string := default EmptyString s.

(** Template rendering of a [number]. *)
Definition show_nat (n : nat) : string := pretty n.
Definition show_Z (z : Z) : string := pretty z.

(** Template rendering of a [number | null]. *)
Definition show_exit (c : option Z) : string :=
  match c with
  | Some z => show_Z z
  | None => "null"
  end.

Definition LF : string := String "010"%char EmptyString.

End Js.

(* ===================================================================== *)
(** * Types ([types/index.ts]) *)
(* ===================================================================== *)

Inductive RunnerType := npm | pnpm | yarn | npx.

Definition runner_name (r : RunnerType) : string :=
  match r with
  | npm => "npm"
  | pnpm => "pnpm"
  | yarn => "yarn"
  | npx => "npx"
  end.

Abbreviation Env := (gmap string string).

Record PreCommand := {
  pc_argv : list string;
  pc_env : option Env;
  pc_cwd : option string;
}.

Record RunConfig := {
  rc_script : option string;
  rc_configPath : option string;
  rc_timeoutSeconds : Z;
  rc_artifactsDir : string;
  rc_runner : option RunnerType;
  rc_args : option (list string);
  rc_env : option Env;
  rc_preCommands : option (list PreCommand);
  rc_skipSetup : option bool;
  rc_outputDir : option string;
}.

Record SelectorPolicy := {
  sp_prefer : option (list string);
  sp_avoid : option (list string);
}.

Record TestsConfig := {
  tc_testDir : option string;
  tc_pattern : option string;
  tc_defaultOutputPath : option string;
  tc_selectorPolicy : option SelectorPolicy;
}.

Inductive AuthStrategy := no_auth | login_in_test | login_before_test.

Record Credentials := { cred_email : string; cred_password : string }.

Record AuthProfile := {
  ap_strategy : AuthStrategy;
  ap_credentials : option Credentials;
  ap_storageStatePath : option string;
}.

Record AuthConfig := {
  ac_default : option AuthProfile;
  ac_profiles : gmap string AuthProfile;
  ac_envFile : option string;
}.

Record ProjectSection := {
  ps_name : option string;
  ps_envFile : option string;
  ps_baseUrl : option string;
}.

Record KitweConfig := {
  kc_version : Z;
  kc_project : option ProjectSection;
  kc_run : option RunConfig;
  kc_tests : option TestsConfig;
  kc_auth : option AuthConfig;
}.

Inductive RunStatus := passed | failed | error | timeout.

Inductive ArtifactType := screenshot | trace | video | report | other.

Record ArtifactInfo := {
  art_type : ArtifactType;
  art_path : string;
  art_name : string;
  art_size : Z;
}.

Record RunSpec := {
  spec_projectRoot : string;
  spec_artifactsDir : string;
  spec_timeoutSeconds : Z;
  spec_script : option string;
  spec_configPath : option string;
  spec_runner : option RunnerType;
  spec_args : option (list string);
  spec_env : option Env;
  spec_preCommands : option (list PreCommand);
  spec_skipSetup : option bool;
  spec_testName : option string;
  spec_outputDir : option string;
}.

Record RunResult := {
  res_status : RunStatus;
  res_exitCode : Z;
  res_stdout : string;
  res_stderr : string;
  res_durationMs : Z;
  res_artifacts : list ArtifactInfo;
  res_command : option (list string);
  res_error : option string;
}.

(* ===================================================================== *)
(** * Exceptions *)
(* ===================================================================== *)

Inductive Exception :=
| ConfigLoadError (path reason : string)
| ConfigValidationError (path : string) (errors : list string)
| JsError (message : string).

Inductive Completion (A : Type) :=
| Returns (a : A)
| Throws (e : Exception).

Arguments Returns {A} a.
Arguments Throws {A} e.

(* ===================================================================== *)
(** * The validated configuration file ([core/config.ts]) *)
(* ===================================================================== *)

(** The output type of [KitweConfigSchema]: schema defaults are applied, so
    [args], [timeout_seconds], [artifacts_dir], [skip_setup] and every
    section are always present. *)

Record RawPreCommand := {
  raw_argv : list string;
  raw_cwd : option string;
  raw_env : option Env;
}.

Record RawRun := {
  run_runner : option RunnerType;
  run_script : option string;
  run_config_path : option string;
  run_args : list string;
  run_timeout_seconds : Z;
  run_artifacts_dir : string;
  run_output_dir : option string;
  run_env : option Env;
  run_skip_setup : bool;
  run_pre_commands : option (list RawPreCommand);
}.

Inductive Language := typescript | javascript.

Record RawSelectorPolicy := {
  rsp_prefer : list string;
  rsp_avoid : list string;
}.

Record RawTests := {
  tests_language : Language;
  tests_test_dir : option string;
  tests_pattern : option string;
  tests_default_output_path : option string;
  tests_selector_policy : RawSelectorPolicy;
}.

Record RawAuthProfile := {
  rap_strategy : AuthStrategy;
  rap_credentials : option Credentials;
  rap_storage_state_path : option string;
}.

Record RawAuth := {
  auth_default : option RawAuthProfile;
  auth_profiles : gmap string RawAuthProfile;
  auth_env_file : option string;
}.

Record RawProject := {
  project_name : option string;
  project_env_file : option string;
  project_base_url : option string;
}.

Record RawSetup := {
  setup_pre_commands : option (list RawPreCommand);
}.

Record RawConfig := {
  raw_version : Z;
  raw_project : RawProject;
  raw_setup : RawSetup;
  raw_run : RawRun;
  raw_tests : RawTests;
  raw_auth : RawAuth;
}.

(** What reading [kitwe.yaml] ends in: [readFileSync], then [yaml.load],
    then [KitweConfigSchema.safeParse]. *)
Inductive YamlFile :=
| Unreadable (err : string)            (* readFileSync throws *)
| Malformed (err : string)             (* yaml.load throws *)
| EmptyDocument                        (* yaml.load gives null/undefined *)
| NotAMapping                          (* typeof data !== 'object' *)
| SchemaRejected (issues : list string)(* safeParse fails *)
| Validated (raw : RawConfig).

(* ===================================================================== *)
(** * The file system and [path] *)
(* ===================================================================== *)

Inductive Stat :=
| StatDirectory
| StatFile (size : Z)
| StatSpecial.   (* neither isDirectory() nor isFile() *)

Record FileSystem := {
  existsSync : string -> bool;
  readYaml : string -> YamlFile;
  readdirSync : string -> option (list string);  (* None: throws *)
  statSync : string -> option Stat;              (* None: throws *)
}.

Class NodePath := {
  resolve : string -> string -> string;
  join : string -> string -> string;
}.

(** A POSIX reading of [path.resolve] / [path.join] for already normalised
    operands, used to run the model on concrete trees. *)
Definition posix_resolve (base p : string) : string :=
  if Js.startsWith "/" p then p else base +:+ "/" +:+ p.

Definition posix_join (a b : string) : string := a +:+ "/" +:+ b.

Definition posix : NodePath := {| resolve := posix_resolve; join := posix_join |}.

(* ===================================================================== *)
(** * Loading the configuration ([core/config.ts]) *)
(* ===================================================================== *)

Section Config.
Context {P : NodePath}.

Definition getConfigPath (projectRoot : string) : string :=
  resolve projectRoot "kitwe.yaml".

Definition convertPreCommand (cmd : RawPreCommand) : PreCommand :=
  {| pc_argv := raw_argv cmd; pc_cwd := raw_cwd cmd; pc_env := raw_env cmd |}.

Definition convertProfile (p : RawAuthProfile) : AuthProfile :=
  {| ap_strategy := rap_strategy p;
     ap_credentials := rap_credentials p;
     ap_storageStatePath := rap_storage_state_path p |}.

(** snake_case YAML to camelCase; the [setup] section is not carried over. *)
Definition convertToTypescript (raw : RawConfig) : KitweConfig :=
  {| kc_version := raw_version raw;
     kc_project := Some
       {| ps_name := project_name (raw_project raw);
          ps_envFile := project_env_file (raw_project raw);
          ps_baseUrl := project_base_url (raw_project raw) |};
     kc_run := Some
       {| rc_runner := run_runner (raw_run raw);
          rc_script := run_script (raw_run raw);
          rc_configPath := run_config_path (raw_run raw);
          rc_args := Some (run_args (raw_run raw));
          rc_timeoutSeconds := run_timeout_seconds (raw_run raw);
          rc_artifactsDir := run_artifacts_dir (raw_run raw);
          rc_outputDir := run_output_dir (raw_run raw);
          rc_env := run_env (raw_run raw);
          rc_skipSetup := Some (run_skip_setup (raw_run raw));
          rc_preCommands :=
            fmap (M := option) (map convertPreCommand) (run_pre_commands (raw_run raw)) |};
     kc_tests := Some
       {| tc_testDir := tests_test_dir (raw_tests raw);
          tc_pattern := tests_pattern (raw_tests raw);
          tc_defaultOutputPath := tests_default_output_path (raw_tests raw);
          tc_selectorPolicy := Some
            {| sp_prefer := Some (rsp_prefer (tests_selector_policy (raw_tests raw)));
               sp_avoid := Some (rsp_avoid (tests_selector_policy (raw_tests raw))) |} |};
     kc_auth := Some
       {| ac_default := fmap (M := option) convertProfile (auth_default (raw_auth raw));
          ac_profiles := fmap (M := gmap string) convertProfile (auth_profiles (raw_auth raw));
          ac_envFile := auth_env_file (raw_auth raw) |} |}.

(** [null] when the file does not exist; throws when it exists but cannot
    be read, parsed or validated. *)
Definition loadProjectConfig (fs : FileSystem) (projectRoot : string)
  : Completion (option KitweConfig) :=
  let configPath := getConfigPath projectRoot in
  if negb (existsSync fs configPath) then Returns None
  else
    match readYaml fs configPath with
    | Unreadable err =>
        Throws (ConfigLoadError configPath ("Cannot read file: " +:+ err))
    | Malformed err =>
        Throws (ConfigLoadError configPath ("YAML parse error: " +:+ err))
    | EmptyDocument =>
        Throws (ConfigLoadError configPath "File is empty")
    | NotAMapping =>
        Throws (ConfigLoadError configPath "Root must be a YAML mapping")
    | SchemaRejected issues =>
        Throws (ConfigValidationError configPath issues)
    | Validated raw => Returns (Some (convertToTypescript raw))
    end.

(** [config?.run ?? null] *)
Definition loadRunConfig (fs : FileSystem) (projectRoot : string)
  : Completion (option RunConfig) :=
  match loadProjectConfig fs projectRoot with
  | Throws e => Throws e
  | Returns None => Returns None
  | Returns (Some config) => Returns (kc_run config)
  end.

(** [config?.tests ?? null] *)
Definition loadTestsConfig (fs : FileSystem) (projectRoot : string)
  : Completion (option TestsConfig) :=
  match loadProjectConfig fs projectRoot with
  | Throws e => Throws e
  | Returns None => Returns None
  | Returns (Some config) => Returns (kc_tests config)
  end.

(** Merged pre-commands for the run phase: the shared [setup] commands
    (unless [run.skip_setup]) followed by the [run] commands.  Every
    failure to read the file gives the empty list. *)
Definition getRunPreCommands (fs : FileSystem) (projectRoot : string)
  : list PreCommand :=
  let configPath := getConfigPath projectRoot in
  if negb (existsSync fs configPath) then []
  else
    match readYaml fs configPath with
    | Validated raw =>
        let shared :=
          match negb (run_skip_setup (raw_run raw)),
                setup_pre_commands (raw_setup raw) with
          | true, Some cmds => map convertPreCommand cmds
          | _, _ => []
          end in
        let phase :=
          match run_pre_commands (raw_run raw) with
          | Some cmds => map convertPreCommand cmds
          | None => []
          end in
        shared ++ phase
    | _ => []
    end.

End Config.

(* ===================================================================== *)
(** * The resolver ([runner/resolver.ts]) *)
(* ===================================================================== *)

Inductive Mode := cli_script | cli_config | yaml_script | yaml_config.

Record ResolvedCommand := {
  cmd_argv : list string;
  cmd_cwd : string;
  cmd_mode : Mode;
  cmd_env : option Env;
  cmd_preCommands : option (list PreCommand);
}.

Record ResolvedError := {
  errorType : string;
  message : string;
}.

Inductive ResolveResult :=
| Command (c : ResolvedCommand)
| Failure (e : ResolvedError).

Definition isResolvedCommand (r : ResolveResult) : bool :=
  match r with Command _ => true | Failure _ => false end.

Definition isResolvedError (r : ResolveResult) : bool :=
  match r with Command _ => false | Failure _ => true end.

Definition no_entrypoint_message : string :=
  "Run entrypoint not configured." +:+ Js.LF +:+ Js.LF +:+
  "An explicit entrypoint is required. Set one of:" +:+ Js.LF +:+
  "  1. run.script in kitwe.yaml (e.g., 'test:e2e')" +:+ Js.LF +:+
  "  2. run.config_path in kitwe.yaml (e.g., 'playwright.config.ts')" +:+ Js.LF +:+
  "  3. CLI flag: --script <name> or --config <path>" +:+ Js.LF +:+ Js.LF +:+
  "Example kitwe.yaml:" +:+ Js.LF +:+
  "  version: 1" +:+ Js.LF +:+
  "  run:" +:+ Js.LF +:+
  "    script: test:e2e" +:+ Js.LF +:+ Js.LF +:+
  "Or:" +:+ Js.LF +:+
  "  version: 1" +:+ Js.LF +:+
  "  run:" +:+ Js.LF +:+
  "    config_path: playwright.config.ts".

Section Resolver.
Context {P : NodePath}.

(** Priority: pnpm > yarn > npm. *)
Definition detectPackageManager (fs : FileSystem) (projectRoot : string)
  : RunnerType :=
  if existsSync fs (resolve projectRoot "pnpm-lock.yaml") then pnpm
  else if existsSync fs (resolve projectRoot "yarn.lock") then yarn
  else npm.

Definition resolveCwd (cwd : option string) (projectRoot : string) : string :=
  match cwd with
  | Some ((String _ _) as c) =>
      if Js.startsWith "/" c then c else resolve projectRoot c
  | _ => projectRoot
  end.

Definition extractPreCommands (fs : FileSystem) (spec : RunSpec)
  : option (list PreCommand) :=
  if default false (spec_skipSetup spec) then None
  else
    let configCommands := getRunPreCommands fs (spec_projectRoot spec) in
    if (length configCommands =? 0)%nat then None
    else Some (map (fun pc =>
                      {| pc_argv := pc_argv pc;
                         pc_cwd := Some (resolveCwd (pc_cwd pc) (spec_projectRoot spec));
                         pc_env := pc_env pc |})
                   configCommands).

(** [xs && xs.length > 0 ? xs : []] *)
Definition present_args (xs : option (list string)) : list string :=
  default [] xs.

(** [<runner> run <script> [-- args...]] *)
Definition script_argv (r : RunnerType) (script : string) (extra : list string)
  : list string :=
  [runner_name r; "run"; script] ++
  match extra with
  | [] => []
  | _ :: _ =>
      (match r with npm => ["--"] | _ => [] end) ++ extra
  end.

Definition resolveFromScript (fs : FileSystem) (spec : RunSpec) : ResolvedCommand :=
  let runner :=
    match spec_runner spec with
    | Some r => r
    | None => detectPackageManager fs (spec_projectRoot spec)
    end in
  {| cmd_argv := script_argv runner (Js.assert_defined (spec_script spec))
                   (present_args (spec_args spec));
     cmd_cwd := spec_projectRoot spec;
     cmd_mode := cli_script;
     cmd_env := None;
     cmd_preCommands := extractPreCommands fs spec |}.

Definition resolveFromConfig (fs : FileSystem) (spec : RunSpec) : ResolveResult :=
  let configPath := Js.assert_defined (spec_configPath spec) in
  let configAbs := resolve (spec_projectRoot spec) configPath in
  if negb (existsSync fs configAbs) then
    Failure {| errorType := "config_not_found";
               message := "Playwright config not found: " +:+ configAbs |}
  else
    Command
      {| cmd_argv := ["npx"; "playwright"; "test"; "--config=" +:+ configPath]
                       ++ present_args (spec_args spec);
         cmd_cwd := spec_projectRoot spec;
         cmd_mode := cli_config;
         cmd_env := None;
         cmd_preCommands := extractPreCommands fs spec |}.

(** [null] when the run section names no entry point. *)
Definition resolveFromRunConfig (fs : FileSystem) (runConfig : RunConfig)
    (spec : RunSpec) : option ResolveResult :=
  if negb (Js.truthy (rc_script runConfig) || Js.truthy (rc_configPath runConfig))
  then None
  else
    let preCommands := extractPreCommands fs spec in
    let allArgs := present_args (rc_args runConfig) ++ present_args (spec_args spec) in
    if Js.truthy (rc_script runConfig) then
      let runner :=
        match rc_runner runConfig with
        | Some r => r
        | None => detectPackageManager fs (spec_projectRoot spec)
        end in
      Some (Command
        {| cmd_argv := script_argv runner (Js.assert_defined (rc_script runConfig)) allArgs;
           cmd_cwd := spec_projectRoot spec;
           cmd_mode := yaml_script;
           cmd_env := rc_env runConfig;
           cmd_preCommands := preCommands |})
    else if Js.truthy (rc_configPath runConfig) then
      let configPath := Js.assert_defined (rc_configPath runConfig) in
      let configAbs := resolve (spec_projectRoot spec) configPath in
      if negb (existsSync fs configAbs) then
        Some (Failure
          {| errorType := "config_not_found";
             message := "Playwright config from kitwe.yaml not found: " +:+ configAbs |})
      else
        Some (Command
          {| cmd_argv := ["npx"; "playwright"; "test"; "--config=" +:+ configPath]
                           ++ allArgs;
             cmd_cwd := spec_projectRoot spec;
             cmd_mode := yaml_config;
             cmd_env := rc_env runConfig;
             cmd_preCommands := preCommands |})
    else None.

Definition resolveRunSpec (fs : FileSystem) (spec : RunSpec)
  : Completion ResolveResult :=
  let projectRoot := spec_projectRoot spec in
  if negb (existsSync fs projectRoot) then
    Returns (Failure
      {| errorType := "project_not_found";
         message := "Project root does not exist: " +:+ projectRoot |})
  else
    match loadRunConfig fs projectRoot with
    | Throws e => Throws e
    | Returns runConfig =>
        if Js.truthy (spec_script spec) then
          Returns (Command (resolveFromScript fs spec))
        else if Js.truthy (spec_configPath spec) then
          Returns (resolveFromConfig fs spec)
        else
          match
            match runConfig with
            | Some rc => resolveFromRunConfig fs rc spec
            | None => None
            end
          with
          | Some result => Returns result
          | None =>
              Returns (Failure
                {| errorType := "no_entrypoint";
                   message := no_entrypoint_message |})
          end
    end.

End Resolver.

(* ===================================================================== *)
(** * The executor ([runner/executor.ts]) *)
(* ===================================================================== *)

(** ** Flag injection *)

(** Inject the list reporter and the trace flag unless the joined command
    already mentions them. *)
Definition prepareCommandWithReporter (resolved : ResolvedCommand) : list string :=
  let argv := cmd_argv resolved in
  let argvStr := Js.join " " argv in
  let flagsToInject :=
    (if negb (Js.includes "--reporter" argvStr) then ["--reporter=list"] else []) ++
    (if negb (Js.includes "--trace" argvStr) then ["--trace=retain-on-failure"] else []) in
  match flagsToInject with
  | [] => argv
  | _ :: _ =>
      match cmd_mode resolved with
      | yaml_script | cli_script =>
          (if Js.array_includes "--" argv then argv else argv ++ ["--"]) ++ flagsToInject
      | cli_config | yaml_config =>
          argv ++ flagsToInject
      end
  end.

(** ** Artifact collection *)

Definition getArtifactType (filename : string) : option ArtifactType :=
  let lower := Js.toLowerCase filename in
  if Js.endsWith ".png" lower || Js.endsWith ".jpg" lower || Js.endsWith ".jpeg" lower
  then Some screenshot
  else if Js.endsWith ".zip" lower && Js.includes "trace" lower then Some trace
  else if Js.endsWith ".webm" lower || Js.endsWith ".mp4" lower then Some video
  else if Js.endsWith ".html" lower && Js.includes "report" lower then Some report
  else if Js.endsWith ".json" lower && Js.includes "report" lower then Some report
  else None.

Section Artifacts.
Context {P : NodePath}.

(** [collectArtifactsFromDir] with [levels = 4 - depth] directory levels
    left; [levels = 0] is the [depth > 3] return.  The array [artifacts]
    is mutated in place by the source; here it is threaded through.  A
    [readdirSync] that throws does so before this call pushes anything,
    and the exception is swallowed by the nearest caller, so the call
    leaves [artifacts] as it was. *)
Fixpoint collectArtifactsFromDir_levels (levels : nat) (fs : FileSystem)
    (dir : string) (artifacts : list ArtifactInfo) : list ArtifactInfo :=
  match levels with
  | O => artifacts
  | S deeper =>
      match readdirSync fs dir with
      | None => artifacts
      | Some entries =>
          fold_left
            (fun acc entry =>
               let fullPath := join dir entry in
               match statSync fs fullPath with
               | None => acc
               | Some StatDirectory =>
                   collectArtifactsFromDir_levels deeper fs fullPath acc
               | Some (StatFile size) =>
                   match getArtifactType entry with
                   | Some type =>
                       acc ++ [ {| art_type := type; art_path := fullPath;
                                   art_name := entry; art_size := size |} ]
                   | None => acc
                   end
               | Some StatSpecial => acc
               end)
            entries artifacts
      end
  end.

Definition collectArtifactsFromDir (fs : FileSystem) (dir : string)
    (artifacts : list ArtifactInfo) (depth : nat) : list ArtifactInfo :=
  collectArtifactsFromDir_levels (4 - depth) fs dir artifacts.

Definition collectArtifacts (fs : FileSystem) (projectRoot outputDir : string)
  : list ArtifactInfo :=
  let searchDirs :=
    [ join projectRoot "test-results"; join projectRoot "playwright-report"; outputDir ] in
  fold_left
    (fun artifacts dir =>
       if negb (existsSync fs dir) then artifacts
       else collectArtifactsFromDir fs dir artifacts 0)
    searchDirs [].

End Artifacts.

(** ** Processes *)

Record CommandOptions := {
  opt_cwd : string;
  opt_env : Env;
  opt_timeoutMs : Z;
  opt_logPath : option string;
}.

Record CommandResult := {
  exitCode : option Z;
  stdout : string;
  stderr : string;
  timedOut : bool;
  durationMs : Z;
}.

Record SpawnRequest := {
  sp_command : string;
  sp_args : list string;
  sp_cwd : string;
  sp_env : Env;
}.

(** What a child process started with a deadline ends in: [spawn] throws,
    or the first of its ['error'] and ['close'] events.  [timerFired] says
    whether the deadline timer ran (and signalled the child) before the
    ['close'] event. *)
Inductive ChildOutcome :=
| SpawnThrows (msg : string)
| ErrorEvent (msg : string) (out err : string)
| CloseEvent (code : option Z) (out err : string) (timerFired : bool).

(** The process and its surroundings.  [mkdirSync] and [writeFileSync]
    answer [Some msg] when they throw an error with message [msg]. *)
Class Host (World : Type) := {
  process_env : Env;
  process_cwd : string;
  now : World -> Z;
  fs_of : World -> FileSystem;
  mkdirSync : string -> World -> option string * World;   (* { recursive: true } *)
  writeFileSync : string -> string -> World -> option string * World;
  spawn : SpawnRequest -> Z -> World -> ChildOutcome * World;
}.

(** What an asynchronous step ends in.  It completes (returns or
    throws), or an exception escapes one of its event listeners: no
    [catch] of the program sees that exception, the promise is never
    settled, and Node reports the exception as uncaught. *)
Inductive Settled (A : Type) :=
| Settles (c : Completion A)
| Uncaught (msg : string).

Arguments Settles {A} c.
Arguments Uncaught {A} msg.

Coercion Settles : Completion >-> Settled.

(** Which call of [runCommand] a trace entry records. *)
Inductive CallSite :=
| PreCommandSite (i : nat)     (* loop index in runPreCommands *)
| MainSite.

Record TraceEntry := {
  te_site : CallSite;
  te_argv : list string;
  te_options : CommandOptions;
  te_outcome : Settled CommandResult;
}.

(** A call of [writeFileSync] and the message of the error it threw, if
    it threw. *)
Record WriteEntry := {
  wr_path : string;
  wr_content : string;
  wr_error : option string;
}.

Definition PRE_COMMAND_TIMEOUT_MS : Z := 5 * 60 * 1000.

Definition exception_message (e : Exception) : string :=
  match e with
  | ConfigLoadError path reason =>
      "Failed to load config from " +:+ path +:+ ": " +:+ reason
  | ConfigValidationError path errors =>
      "Invalid config at " +:+ path +:+ ":" +:+ Js.LF +:+
      Js.join Js.LF (map (fun e => "  - " +:+ e) errors)
  | JsError msg => msg
  end.

Record PreCommandsResult := {
  pre_success : bool;
  pre_error : option string;
  pre_logPath : option string;
}.

(** The status of a finished main command and the error entries that go
    with it (the "Determine status" block of [runValidate]). *)
Definition determineStatus (spec : RunSpec) (result : CommandResult)
  : RunStatus * list (string * string) :=
  if timedOut result then
    (timeout,
     [("timeout",
       "Execution exceeded " +:+ Js.show_Z (spec_timeoutSeconds spec) +:+ "s timeout")])
  else
    match exitCode result with
    | None => (error, [("execution_error", "Process terminated abnormally")])
    | Some 0 => (passed, [])
    | Some _ => (failed, [])
    end.

(** Template rendering of a [RunStatus]. *)
Definition show_status (s : RunStatus) : string :=
  match s with
  | passed => "passed"
  | failed => "failed"
  | error => "error"
  | timeout => "timeout"
  end.

(** The execution environment: the inherited environment, the two forced
    keys, then [spec.env], then the resolved command's [env]. *)
Definition runEnv (inherited : Env) (spec : RunSpec) (resolved : ResolvedCommand) : Env :=
  let base := <["PLAYWRIGHT_HTML_OPEN" := "never"]> (<["CI" := "true"]> inherited) in
  let withSpec := match spec_env spec with Some e => e ∪ base | None => base end in
  match cmd_env resolved with Some e => e ∪ withSpec | None => withSpec end.

Section Executor.
Context {P : NodePath} {World : Type} {H : Host World}.

(** ** A state-and-exception monad over the world, the call trace and the
    file writes *)

Record RunState := {
  st_world : World;
  st_trace : list TraceEntry;    (* calls of runCommand, oldest first *)
  st_writes : list WriteEntry;   (* calls of writeFileSync, oldest first *)
}.

Definition M (A : Type) : Type := RunState -> Settled A * RunState.

Definition ret {A} (a : A) : M A := fun st => (Settles (Returns a), st).

Definition bind {A B} (m : M A) (k : A -> M B) : M B :=
  fun st =>
    match m st with
    | (Settles (Returns a), st') => k a st'
    | (Settles (Throws e), st') => (Settles (Throws e), st')
    | (Uncaught msg, st') => (Uncaught msg, st')
    end.

(** [try { m } catch (e) { handler e }]: an uncaught exception of a
    listener is not seen by the handler. *)
Definition try_catch {A} (m : M A) (handler : Exception -> M A) : M A :=
  fun st =>
    match m st with
    | (Settles (Returns a), st') => (Settles (Returns a), st')
    | (Settles (Throws e), st') => handler e st'
    | (Uncaught msg, st') => (Uncaught msg, st')
    end.

Definition observe {A} (f : World -> A) : M A :=
  fun st => (Settles (Returns (f (st_world st))), st).

Definition attempt {A} (f : World -> Completion A) : M A :=
  fun st => (Settles (f (st_world st)), st).

(** What a file operation that answered [failure] completes in. *)
Definition thrown (failure : option string) : Completion unit :=
  match failure with
  | Some msg => Throws (JsError msg)
  | None => Returns tt
  end.

(** [mkdirSync(path, { recursive: true })] *)
Definition mkdir (path : string) : M unit :=
  fun st =>
    let '(failure, w) := mkdirSync path (st_world st) in
    (Settles (thrown failure),
     {| st_world := w; st_trace := st_trace st; st_writes := st_writes st |}).

(** [writeFileSync(path, content)] *)
Definition write (path content : string) : M unit :=
  fun st =>
    let '(failure, w) := writeFileSync path content (st_world st) in
    (Settles (thrown failure),
     {| st_world := w; st_trace := st_trace st;
        st_writes := st_writes st ++
          [ {| wr_path := path; wr_content := content; wr_error := failure |} ] |}).

(** The optional progress callback: an effect on the world that may
    throw ([Some msg]); its result is not read. *)
Definition ProgressCallback : Type := string -> string -> World -> option string * World.

(** [if (onProgress) { onProgress(step, detail); }] *)
Definition notify (onProgress : option ProgressCallback) (step detail : string)
  : M unit :=
  match onProgress with
  | Some callback =>
      fun st =>
        let '(failure, w) := callback step detail (st_world st) in
        (Settles (thrown failure),
         {| st_world := w; st_trace := st_trace st; st_writes := st_writes st |})
  | None => ret tt
  end.

Notation "'do' x <- m ; k" := (bind m (fun x => k))
  (at level 10, x name, m at level 100, k at level 200).

(** ** Running one command *)

Definition log_header (argv : list string) (options : CommandOptions) : string :=
  "# Command: " +:+ Js.join " " argv +:+ Js.LF +:+
  "# CWD: " +:+ opt_cwd options +:+ Js.LF.

Definition equals_rule : string :=
  "============================================================".

(** The log write of an event listener of [runCommand]: nothing without
    a [logPath]. *)
Definition write_log (options : CommandOptions) (content : string) (w : World)
  : option string * World * list WriteEntry :=
  match opt_logPath options with
  | Some logPath =>
      let '(failure, w') := writeFileSync logPath content w in
      (failure, w',
       [ {| wr_path := logPath; wr_content := content; wr_error := failure |} ])
  | None => (None, w, [])
  end.

(** Run [argv] through the user's login shell under a deadline; the
    promise resolves on the child's first ['error'] or ['close'] event
    and rejects only if [spawn] throws.  The listener of either event
    writes the log before it resolves the promise: if that write throws,
    the exception is the listener's and the promise is never resolved.
    [site] is not a parameter of the source: it labels the trace
    entry. *)
Definition runCommand (site : CallSite) (argv : list string)
    (options : CommandOptions) : M CommandResult :=
  fun st =>
    let startTime := now (st_world st) in
    let userShell :=
      match opt_env options !! "SHELL" with
      | Some ((String _ _) as shell) => shell
      | _ => "/bin/zsh"
      end in
    let fullCommand := Js.join " " argv in
    let '(outcome, w) :=
      spawn {| sp_command := userShell;
               sp_args := ["-l"; "-c"; fullCommand];
               sp_cwd := opt_cwd options;
               sp_env := opt_env options |}
            (opt_timeoutMs options) (st_world st) in
    let elapsed := now w - startTime in
    let resolves (logged : option string * World * list WriteEntry)
        (result : CommandResult) : Settled CommandResult * World * list WriteEntry :=
      let '(failure, w', written) := logged in
      (match failure with
       | Some msg => Uncaught msg
       | None => Settles (Returns result)
       end, w', written) in
    let '(settled, w', written) :=
      match outcome with
      | SpawnThrows msg => (Settles (Throws (JsError msg)), w, [])
      | ErrorEvent msg out err =>
          resolves
            (write_log options
               (log_header argv options +:+ "# Error: " +:+ msg +:+ Js.LF +:+ Js.LF +:+
                out +:+ Js.LF +:+ Js.LF +:+ "--- STDERR ---" +:+ Js.LF +:+ err) w)
            {| exitCode := None; stdout := out;
               stderr := err +:+ Js.LF +:+ msg;
               timedOut := false; durationMs := elapsed |}
      | CloseEvent code out err timerFired =>
          resolves
            (write_log options
               (log_header argv options +:+
                "# Exit code: " +:+ Js.show_exit code +:+ Js.LF +:+
                "# Duration: " +:+ Js.show_Z elapsed +:+ "ms" +:+ Js.LF +:+
                equals_rule +:+ Js.LF +:+ Js.LF +:+
                out +:+ Js.LF +:+ Js.LF +:+ "--- STDERR ---" +:+ Js.LF +:+ err) w)
            {| exitCode := code; stdout := out; stderr := err;
               timedOut := timerFired; durationMs := elapsed |}
      end in
    (settled,
     {| st_world := w';
        st_trace := st_trace st ++
          [ {| te_site := site; te_argv := argv; te_options := options;
               te_outcome := settled |} ];
        st_writes := st_writes st ++ written |}).

(** ** Pre-commands *)

Definition pre_command_log (logsDir : string) (i : nat) : string :=
  join logsDir ("pre_command_" +:+ Js.show_nat i +:+ ".log").

(** The detail of the progress notification for the step at loop index
    [i] of [total]. *)
Definition pre_command_progress (i total : nat) (cmdStr : string) : string :=
  "[" +:+ Js.show_nat (i + 1) +:+ "/" +:+ Js.show_nat total +:+ "] " +:+ cmdStr.

(** The loop of [runPreCommands] from index [i] on, [preCommands] being
    the commands at indices [i, i+1, ...] of a list of [total]. *)
Fixpoint runPreCommands_from (i total : nat) (preCommands : list PreCommand)
    (baseEnv : Env) (logsDir : string) (onProgress : option ProgressCallback)
  : M PreCommandsResult :=
  match preCommands with
  | [] => ret {| pre_success := true; pre_error := None; pre_logPath := None |}
  | pc :: rest =>
      let logPath := pre_command_log logsDir i in
      let cmdStr := Js.join " " (pc_argv pc) in
      do _ <- notify onProgress "pre_command" (pre_command_progress i total cmdStr);
      let cmdEnv :=
        match pc_env pc with
        | Some e => e ∪ baseEnv
        | None => baseEnv
        end in
      do step <-
        try_catch
          (do result <-
             runCommand (PreCommandSite i) (pc_argv pc)
               {| opt_cwd := default process_cwd (pc_cwd pc);
                  opt_env := cmdEnv;
                  opt_timeoutMs := PRE_COMMAND_TIMEOUT_MS;
                  opt_logPath := Some logPath |};
           if bool_decide (exitCode result = Some 0) then ret None
           else ret (Some
             {| pre_success := false;
                pre_error := Some
                  ("Pre-command " +:+ Js.show_nat i +:+
                   " failed with exit code " +:+ Js.show_exit (exitCode result) +:+
                   ": " +:+ cmdStr +:+ Js.LF +:+ "See log: " +:+ logPath);
                pre_logPath := Some logPath |}))
          (fun err =>
             ret (Some
               {| pre_success := false;
                  pre_error := Some
                    ("Pre-command " +:+ Js.show_nat i +:+ " error: " +:+
                     exception_message err);
                  pre_logPath := Some logPath |}));
      match step with
      | Some failure => ret failure
      | None => runPreCommands_from (S i) total rest baseEnv logsDir onProgress
      end
  end.

Definition runPreCommands (preCommands : list PreCommand) (baseEnv : Env)
    (logsDir : string) (onProgress : option ProgressCallback) : M PreCommandsResult :=
  runPreCommands_from 0 (length preCommands) preCommands baseEnv logsDir onProgress.

(** ** The run *)

Definition createErrorResult (startedAt : Z) (_projectRoot : string)
    (errorType errorMessage : string) : M RunResult :=
  do finishedAt <- observe now;
  ret {| res_status := error;
         res_exitCode := -1;
         res_stdout := "";
         res_stderr := "";
         res_durationMs := finishedAt - startedAt;
         res_artifacts := [];
         res_command := None;
         res_error := Some ("[" +:+ errorType +:+ "] " +:+ errorMessage) |}.

(** [finalArgv.slice(0, 3).join(' ') + (finalArgv.length > 3 ? '...' : '')] *)
Definition cmdDisplay (finalArgv : list string) : string :=
  Js.join " " (take 3 finalArgv) +:+
  (if (3 <? length finalArgv)%nat then "..." else "").

Definition runValidate (spec : RunSpec) (onProgress : option ProgressCallback)
  : M RunResult :=
  do startedAt <- observe now;
  let projectRoot := spec_projectRoot spec in
  let artifactsDir := resolve projectRoot (spec_artifactsDir spec) in
  let logsDir := join artifactsDir "logs" in
  let reportsDir := join artifactsDir "reports" in
  do _ <- mkdir logsDir;
  do _ <- mkdir reportsDir;
  do _ <- notify onProgress "resolve" "Resolving test command...";
  do resolved <- attempt (fun w => resolveRunSpec (fs_of w) spec);
  match resolved with
  | Failure e => createErrorResult startedAt projectRoot (errorType e) (message e)
  | Command resolved =>
      let runEnv := runEnv process_env spec resolved in
      do preResult <-
        match cmd_preCommands resolved with
        | Some ((_ :: _) as preCommands) =>
            do _ <- notify onProgress "setup"
                      ("Running " +:+ Js.show_nat (length preCommands) +:+
                       " setup command(s)...");
            runPreCommands preCommands runEnv logsDir onProgress
        | _ => ret {| pre_success := true; pre_error := None; pre_logPath := None |}
        end;
      if negb (pre_success preResult) then
        createErrorResult startedAt projectRoot "pre_command_failed"
          (match pre_error preResult with
           | Some ((String _ _) as msg) => msg
           | _ => "Pre-command failed"
           end)
      else
        let finalArgv := prepareCommandWithReporter resolved in
        do _ <- notify onProgress "execute" ("Running tests: " +:+ cmdDisplay finalArgv);
        let timeoutMs := spec_timeoutSeconds spec * 1000 in
        let stdoutPath := join logsDir "stdout.log" in
        let stderrPath := join logsDir "stderr.log" in
        do executed <-
          try_catch
            (do result <-
               runCommand MainSite finalArgv
                 {| opt_cwd := cmd_cwd resolved;
                    opt_env := runEnv;
                    opt_timeoutMs := timeoutMs;
                    opt_logPath := None |};
             do _ <- write stdoutPath (stdout result);
             do _ <- write stderrPath (stderr result);
             ret (inl result))
            (fun err =>
               do r <- createErrorResult startedAt projectRoot "execution_error"
                         (exception_message err);
               ret (inr r));
        match executed with
        | inr errorResult => ret errorResult
        | inl result =>
            do _ <- notify onProgress "collect" "Collecting artifacts...";
            do artifacts <-
              observe (fun w =>
                collectArtifacts (fs_of w) projectRoot
                  (if Js.truthy (spec_outputDir spec)
                   then Js.assert_defined (spec_outputDir spec)
                   else "test-results"));
            let '(status, errors) := determineStatus spec result in
            do _ <- notify onProgress "complete" ("Tests " +:+ show_status status);
            ret {| res_status := status;
                   res_exitCode := default (-1) (exitCode result);
                   res_stdout := stdout result;
                   res_stderr := stderr result;
                   res_durationMs := durationMs result;
                   res_artifacts := artifacts;
                   res_command := Some finalArgv;
                   res_error :=
                     match errors with
                     | [] => None
                     | _ :: _ => Some (Js.join Js.LF (map snd errors))
                     end |}
        end
  end.

(** A run from a world in which nothing has been started or written
    yet. *)
Record Run := {
  outcome_of : Settled RunResult;
  final_world : World;
  calls : list TraceEntry;
  writes : list WriteEntry;
}.

(** A run with a progress callback. *)
Definition run_reporting (onProgress : option ProgressCallback) (spec : RunSpec)
    (w : World) : Run :=
  let '(r, st) :=
    runValidate spec onProgress {| st_world := w; st_trace := []; st_writes := [] |} in
  {| outcome_of := r; final_world := st_world st;
     calls := st_trace st; writes := st_writes st |}.

(** A run without a progress callback ([runValidate(spec)]). *)
Definition run (spec : RunSpec) (w : World) : Run := run_reporting None spec w.

End Executor.

(* ===================================================================== *)
(** * Concrete projects and hosts *)
(* ===================================================================== *)

Module Sample.

(** A file system given by the set of existing paths and the state of
    [/proj/kitwe.yaml]; no directory can be listed. *)
Definition fs_with (paths : list string) (yaml : YamlFile) : FileSystem :=
  {| existsSync := fun p => existsb (String.eqb p) paths;
     readYaml := fun _ => yaml;
     readdirSync := fun _ => None;
     statSync := fun _ => None |}.

Definition base_spec : RunSpec :=
  {| spec_projectRoot := "/proj";
     spec_artifactsDir := "artifacts";
     spec_timeoutSeconds := 300;
     spec_script := None;
     spec_configPath := None;
     spec_runner := None;
     spec_args := None;
     spec_env := None;
     spec_preCommands := None;
     spec_skipSetup := None;
     spec_testName := None;
     spec_outputDir := None |}.

Definition with_script (s : string) (spec : RunSpec) : RunSpec :=
  {| spec_projectRoot := spec_projectRoot spec;
     spec_artifactsDir := spec_artifactsDir spec;
     spec_timeoutSeconds := spec_timeoutSeconds spec;
     spec_script := Some s;
     spec_configPath := spec_configPath spec;
     spec_runner := spec_runner spec;
     spec_args := spec_args spec;
     spec_env := spec_env spec;
     spec_preCommands := spec_preCommands spec;
     spec_skipSetup := spec_skipSetup spec;
     spec_testName := spec_testName spec;
     spec_outputDir := spec_outputDir spec |}.

Definition script_spec : RunSpec := with_script "test:e2e" base_spec.

(** The same with [args: ["--headed"]]. *)
Definition headed_spec : RunSpec :=
  {| spec_projectRoot := "/proj";
     spec_artifactsDir := "artifacts";
     spec_timeoutSeconds := 300;
     spec_script := Some "test:e2e";
     spec_configPath := None;
     spec_runner := None;
     spec_args := Some ["--headed"];
     spec_env := None;
     spec_preCommands := None;
     spec_skipSetup := None;
     spec_testName := None;
     spec_outputDir := None |}.

Definition default_run : RawRun :=
  {| run_runner := None; run_script := None; run_config_path := None;
     run_args := []; run_timeout_seconds := 1200;
     run_artifacts_dir := "artifacts/kitwe"; run_output_dir := None;
     run_env := None; run_skip_setup := false; run_pre_commands := None |}.

Definition default_tests : RawTests :=
  {| tests_language := typescript; tests_test_dir := None; tests_pattern := None;
     tests_default_output_path := None;
     tests_selector_policy :=
       {| rsp_prefer := ["data-testid"; "role"; "aria-label"];
          rsp_avoid := ["class"; "xpath"] |} |}.

Definition config_of (setup : option (list RawPreCommand)) (r : RawRun) : RawConfig :=
  {| raw_version := 1;
     raw_project := {| project_name := None; project_env_file := None;
                       project_base_url := None |};
     raw_setup := {| setup_pre_commands := setup |};
     raw_run := r;
     raw_tests := default_tests;
     raw_auth := {| auth_default := None; auth_profiles := ∅; auth_env_file := None |} |}.

Definition command (argv : list string) : RawPreCommand :=
  {| raw_argv := argv; raw_cwd := None; raw_env := None |}.

Definition run_with (skip : bool) (cmds : option (list RawPreCommand)) : RawRun :=
  {| run_runner := None; run_script := Some "test:e2e"; run_config_path := None;
     run_args := []; run_timeout_seconds := 1200;
     run_artifacts_dir := "artifacts/kitwe"; run_output_dir := None;
     run_env := None; run_skip_setup := skip; run_pre_commands := cmds |}.

(** A host whose world is the script of the outcomes of the processes
    still to be started; the file system does not change, and making a
    directory or writing a file never fails. *)
Definition scripted (fs : FileSystem) : Host (list ChildOutcome) :=
  {| process_env := ∅;
     process_cwd := "/";
     now := fun _ => 0;
     fs_of := fun _ => fs;
     mkdirSync := fun _ w => (None, w);
     writeFileSync := fun _ _ w => (None, w);
     spawn := fun _ _ w =>
       match w with
       | outcome :: rest => (outcome, rest)
       | [] => (CloseEvent (Some 0) "" "" false, [])
       end |}.

(** The same host on a disk that takes no new file: every
    [writeFileSync] throws. *)
Definition unwritable (fs : FileSystem) : Host (list ChildOutcome) :=
  {| process_env := ∅;
     process_cwd := "/";
     now := fun _ => 0;
     fs_of := fun _ => fs;
     mkdirSync := fun _ w => (None, w);
     writeFileSync := fun path _ w =>
       (Some ("ENOENT: no such file or directory, open '" +:+ path +:+ "'"), w);
     spawn := fun _ _ w =>
       match w with
       | outcome :: rest => (outcome, rest)
       | [] => (CloseEvent (Some 0) "" "" false, [])
       end |}.

(** The same host as [scripted] with a world that also keeps the
    progress notifications received so far. *)
Definition reporting (fs : FileSystem)
  : Host (list ChildOutcome * list (string * string)) :=
  {| process_env := ∅;
     process_cwd := "/";
     now := fun _ => 0;
     fs_of := fun _ => fs;
     mkdirSync := fun _ w => (None, w);
     writeFileSync := fun _ _ w => (None, w);
     spawn := fun _ _ w =>
       match fst w with
       | outcome :: rest => (outcome, (rest, snd w))
       | [] => (CloseEvent (Some 0) "" "" false, w)
       end |}.

(** A progress callback that keeps what it is told. *)
Definition record (step detail : string)
    (w : list ChildOutcome * list (string * string))
  : option string * (list ChildOutcome * list (string * string)) :=
  (None, (fst w, snd w ++ [(step, detail)])).

Definition exits (code : Z) : ChildOutcome := CloseEvent (Some code) "" "" false.

(** A child that is still running at its deadline, is signalled, and
    then ends with exit code 0. *)
Definition overrun : ChildOutcome := CloseEvent (Some 0) "" "" true.

Definition exited (code : Z) : CommandResult :=
  {| exitCode := Some code; stdout := ""; stderr := "";
     timedOut := false; durationMs := 0 |}.

(** [/proj] without [kitwe.yaml]. *)
Definition fs_plain : FileSystem := fs_with ["/proj"] EmptyDocument.

(** [/proj] with a [kitwe.yaml] that says [version: 2] and names a
    persisted [run.config_path]; the schema admits version 1 only. *)
Definition fs_rejected_yaml : FileSystem :=
  fs_with ["/proj"; "/proj/kitwe.yaml"; "/proj/playwright.config.ts"]
    (SchemaRejected ["version: Number must be less than or equal to 1"]).

(** [/proj] whose [kitwe.yaml] names only a persisted config path. *)
Definition config_path_run : RawRun :=
  {| run_runner := None; run_script := None;
     run_config_path := Some "playwright.config.ts";
     run_args := []; run_timeout_seconds := 1200;
     run_artifacts_dir := "artifacts/kitwe"; run_output_dir := None;
     run_env := None; run_skip_setup := false; run_pre_commands := None |}.

Definition fs_config_path : FileSystem :=
  fs_with ["/proj"; "/proj/kitwe.yaml"; "/proj/playwright.config.ts"]
    (Validated (config_of None config_path_run)).

(** [/proj] with three shared setup commands. *)
Definition three_steps : list RawPreCommand :=
  [ command ["npm"; "run"; "db:reset"];
    command ["npm"; "run"; "db:seed"];
    command ["npm"; "run"; "build"] ].

Definition fs_three_steps : FileSystem :=
  fs_with ["/proj"; "/proj/kitwe.yaml"]
    (Validated (config_of (Some three_steps) default_run)).

(** [/proj] with one setup command, one run command and
    [run.skip_setup: true]. *)
Definition fs_skip_setup : FileSystem :=
  fs_with ["/proj"; "/proj/kitwe.yaml"]
    (Validated (config_of (Some [command ["npm"; "run"; "db:reset"]])
                  (run_with true (Some [command ["npm"; "run"; "migrate"]])))).

Definition skip_setup_command : ResolvedCommand :=
  {| cmd_argv := ["npm"; "run"; "test:e2e"];
     cmd_cwd := "/proj";
     cmd_mode := yaml_script;
     cmd_env := None;
     cmd_preCommands :=
       Some [ {| pc_argv := ["npm"; "run"; "migrate"]; pc_env := None;
                 pc_cwd := Some "/proj" |} ] |}.

(** [/proj] with a results directory holding a screenshot, a text file
    and a trace. *)
Definition fs_results : FileSystem :=
  {| existsSync := fun p => existsb (String.eqb p) ["/proj"; "/proj/test-results"];
     readYaml := fun _ => EmptyDocument;
     readdirSync := fun p =>
       if String.eqb p "/proj/test-results"
       then Some ["failure.PNG"; "notes.txt"; "trace.zip"]
       else None;
     statSync := fun p =>
       if String.eqb p "/proj/test-results/notes.txt" then Some (StatFile 12)
       else if Js.startsWith "/proj/test-results/" p then Some (StatFile 2048)
       else None |}.

Definition screenshot_file : ArtifactInfo :=
  {| art_type := screenshot; art_path := "/proj/test-results/failure.PNG";
     art_name := "failure.PNG"; art_size := 2048 |}.

Definition trace_file : ArtifactInfo :=
  {| art_type := trace; art_path := "/proj/test-results/trace.zip";
     art_name := "trace.zip"; art_size := 2048 |}.

Definition injected_argv : list string :=
  ["npm"; "run"; "test:e2e"; "--"; "--reporter=list"; "--trace=retain-on-failure"].

Definition passed_result (artifacts : list ArtifactInfo) : RunResult :=
  {| res_status := passed; res_exitCode := 0; res_stdout := ""; res_stderr := "";
     res_durationMs := 0; res_artifacts := artifacts;
     res_command := Some injected_argv; res_error := None |}.

(** The runs the examples below look at. *)
Definition failed_run : Run :=
  run (P := posix) (H := scripted fs_plain) script_spec [exits 7].

Definition seed_failed_run : Run :=
  run (P := posix) (H := scripted fs_three_steps) script_spec [exits 0; exits 7].

Definition overrun_run : Run :=
  run (P := posix) (H := scripted fs_three_steps) script_spec
    [exits 0; overrun; exits 0; exits 0].

Definition results_run : Run :=
  run (P := posix) (H := scripted fs_results) script_spec [exits 0].

(** A passing main command on a disk that takes no new file. *)
Definition unwritable_run : Run :=
  run (P := posix) (H := unwritable fs_plain) script_spec [exits 0].

(** The run of [seed_failed_run] with a progress callback. *)
Definition seed_failed_reported_run : Run :=
  run_reporting (P := posix) (H := reporting fs_three_steps) (Some record)
    script_spec ([exits 0; exits 7], []).

End Sample.

(* ===================================================================== *)
(** * Vocabulary of the properties *)
(* ===================================================================== *)

(** ** The priority tiers of resolution, as the specification lists them *)

Inductive Tier :=
| CallerScript       (* 1. explicit script from the caller *)
| CallerConfig       (* 2. explicit config path from the caller *)
| PersistedScript    (* 3. persisted run script *)
| PersistedConfig    (* 4. persisted config path *)
| NoEntrypoint.      (* 5. nothing resolvable *)

(** First matching tier wins; a field counts as set when it holds a
    non-empty string. *)
Definition spec_tier (spec : RunSpec) (persisted : option RunConfig) : Tier :=
  if Js.truthy (spec_script spec) then CallerScript
  else if Js.truthy (spec_configPath spec) then CallerConfig
  else
    match persisted with
    | None => NoEntrypoint
    | Some rc =>
        if Js.truthy (rc_script rc) then PersistedScript
        else if Js.truthy (rc_configPath rc) then PersistedConfig
        else NoEntrypoint
    end.

Definition fails_with (category : string) (r : ResolveResult) : Prop :=
  exists e, r = Failure e /\ errorType e = category.

(** What a result produced by tier [t] looks like: its mode, and the
    sources its argv and environment overlay are built from. *)
Definition answers (spec : RunSpec) (persisted : option RunConfig) (t : Tier)
    (r : ResolveResult) : Prop :=
  match t with
  | CallerScript =>
      exists c runner,
        r = Command c /\ cmd_mode c = cli_script /\ cmd_env c = None /\
        cmd_argv c = script_argv runner (default "" (spec_script spec))
                       (default [] (spec_args spec))
  | CallerConfig =>
      (exists c,
         r = Command c /\ cmd_mode c = cli_config /\ cmd_env c = None /\
         cmd_argv c = ["npx"; "playwright"; "test";
                       "--config=" +:+ default "" (spec_configPath spec)]
                      ++ default [] (spec_args spec))
      \/ fails_with "config_not_found" r
  | PersistedScript =>
      exists c runner rc,
        persisted = Some rc /\
        r = Command c /\ cmd_mode c = yaml_script /\ cmd_env c = rc_env rc /\
        cmd_argv c = script_argv runner (default "" (rc_script rc))
                       (default [] (rc_args rc) ++ default [] (spec_args spec))
  | PersistedConfig =>
      exists rc,
        persisted = Some rc /\
        ((exists c,
            r = Command c /\ cmd_mode c = yaml_config /\ cmd_env c = rc_env rc /\
            cmd_argv c = ["npx"; "playwright"; "test";
                          "--config=" +:+ default "" (rc_configPath rc)]
                         ++ default [] (rc_args rc) ++ default [] (spec_args spec))
         \/ fails_with "config_not_found" r)
  | NoEntrypoint => fails_with "no_entrypoint" r
  end.

(** ** Persisted configurations *)

(** The file system [fs] with a valid [kitwe.yaml] holding [raw] at [path]. *)
Definition persist (fs : FileSystem) (path : string) (raw : RawConfig) : FileSystem :=
  {| existsSync := fun p => if String.eqb p path then true else existsSync fs p;
     readYaml := fun p => if String.eqb p path then Validated raw else readYaml fs p;
     readdirSync := readdirSync fs;
     statSync := statSync fs |}.


(** ** Pre-command lists *)

Definition setup_commands (raw : RawConfig) : list PreCommand :=
  map convertPreCommand (default [] (setup_pre_commands (raw_setup raw))).

Definition run_commands (raw : RawConfig) : list PreCommand :=
  map convertPreCommand (default [] (run_pre_commands (raw_run raw))).

(** The commands with their working directories made absolute. *)
Definition located {P : NodePath} (projectRoot : string) (cmds : list PreCommand)
  : list PreCommand :=
  map (fun pc => {| pc_argv := pc_argv pc;
                    pc_cwd := Some (resolveCwd (pc_cwd pc) projectRoot);
                    pc_env := pc_env pc |}) cmds.

(** [undefined] for the empty list. *)
Definition unless_empty {A} (l : list A) : option (list A) :=
  match l with
  | [] => None
  | _ :: _ => Some l
  end.

(** ** Runs *)

Section RunVocabulary.
Context {P : NodePath} {World : Type} {H : Host World}.

(** The directories of a run and the world once they are created. *)
Definition logs_dir (spec : RunSpec) : string :=
  join (resolve (spec_projectRoot spec) (spec_artifactsDir spec)) "logs".

Definition reports_dir (spec : RunSpec) : string :=
  join (resolve (spec_projectRoot spec) (spec_artifactsDir spec)) "reports".

(** The error of the first [mkdirSync] of a run that throws, if one
    does. *)
Definition mkdir_error (spec : RunSpec) (w : World) : option string :=
  match mkdirSync (logs_dir spec) w with
  | (Some msg, _) => Some msg
  | (None, w1) => fst (mkdirSync (reports_dir spec) w1)
  end.

(** The world once both directories are made (if the first [mkdirSync]
    throws, the second is not called). *)
Definition prepared (spec : RunSpec) (w : World) : World :=
  match mkdirSync (logs_dir spec) w with
  | (Some _, w1) => w1
  | (None, w1) => snd (mkdirSync (reports_dir spec) w1)
  end.

(** The trace entry of pre-command [pc] run at loop index [i]. *)
Definition pre_command_entry (baseEnv : Env) (logsDir : string) (i : nat)
    (pc : PreCommand) (out : Settled CommandResult) : TraceEntry :=
  {| te_site := PreCommandSite i;
     te_argv := pc_argv pc;
     te_options :=
       {| opt_cwd := default process_cwd (pc_cwd pc);
          opt_env := match pc_env pc with Some e => e ∪ baseEnv | None => baseEnv end;
          opt_timeoutMs := PRE_COMMAND_TIMEOUT_MS;
          opt_logPath := Some (pre_command_log logsDir i) |};
     te_outcome := out |}.

(** The trace entry of the main command of [resolved]. *)
Definition main_entry (spec : RunSpec) (resolved : ResolvedCommand)
    (out : Settled CommandResult) : TraceEntry :=
  {| te_site := MainSite;
     te_argv := prepareCommandWithReporter resolved;
     te_options :=
       {| opt_cwd := cmd_cwd resolved;
          opt_env := runEnv process_env spec resolved;
          opt_timeoutMs := spec_timeoutSeconds spec * 1000;
          opt_logPath := None |};
     te_outcome := out |}.

(** A command counts as succeeded exactly when it reports exit code 0. *)
Definition exited_zero (out : Settled CommandResult) : bool :=
  match out with
  | Settles (Returns result) => bool_decide (exitCode result = Some 0)
  | _ => false
  end.

(** The error text for the pre-command at loop index [i]. *)
Definition pre_command_failure (logPath : string) (i : nat) (argv : list string)
    (out : Completion CommandResult) : string :=
  match out with
  | Returns result =>
      "Pre-command " +:+ Js.show_nat i +:+
      " failed with exit code " +:+ Js.show_exit (exitCode result) +:+
      ": " +:+ Js.join " " argv +:+ Js.LF +:+ "See log: " +:+ logPath
  | Throws err =>
      "Pre-command " +:+ Js.show_nat i +:+ " error: " +:+ exception_message err
  end.

(** [PreRun baseEnv logsDir i cmds entries res]: running the commands
    [cmds], the first of which has loop index [i], makes the calls
    [entries] and ends in [res]. *)
Inductive PreRun (baseEnv : Env) (logsDir : string)
  : nat -> list PreCommand -> list TraceEntry -> Settled PreCommandsResult -> Prop :=
| PreRun_done i :
    PreRun baseEnv logsDir i [] []
      (Returns {| pre_success := true; pre_error := None; pre_logPath := None |})
| PreRun_next i pc rest out entries res :
    exited_zero out = true ->
    PreRun baseEnv logsDir (S i) rest entries res ->
    PreRun baseEnv logsDir i (pc :: rest)
      (pre_command_entry baseEnv logsDir i pc out :: entries) res
| PreRun_abort i pc rest (out : Completion CommandResult) :
    exited_zero out = false ->
    PreRun baseEnv logsDir i (pc :: rest)
      [pre_command_entry baseEnv logsDir i pc out]
      (Returns
         {| pre_success := false;
            pre_error := Some (pre_command_failure (pre_command_log logsDir i) i
                                 (pc_argv pc) out);
            pre_logPath := Some (pre_command_log logsDir i) |})
| PreRun_uncaught i pc rest msg :
    PreRun baseEnv logsDir i (pc :: rest)
      [pre_command_entry baseEnv logsDir i pc (Uncaught msg)]
      (Uncaught msg).

(** The result [createErrorResult] builds for a category and a message. *)
Definition error_result (category msg : string) (r : RunResult) : Prop :=
  res_status r = error /\ res_exitCode r = -1 /\
  res_stdout r = "" /\ res_stderr r = "" /\
  res_artifacts r = [] /\ res_command r = None /\
  res_error r = Some ("[" +:+ category +:+ "] " +:+ msg).

(** The result assembled after the main command returned [result]. *)
Definition finished_result (spec : RunSpec) (resolved : ResolvedCommand)
    (result : CommandResult) (fs : FileSystem) (r : RunResult) : Prop :=
  res_status r = fst (determineStatus spec result) /\
  res_exitCode r = default (-1) (exitCode result) /\
  res_stdout r = stdout result /\ res_stderr r = stderr result /\
  res_durationMs r = durationMs result /\
  res_error r =
    match snd (determineStatus spec result) with
    | [] => None
    | (_ :: _) as errors => Some (Js.join Js.LF (map snd errors))
    end /\
  res_command r = Some (prepareCommandWithReporter resolved) /\
  res_artifacts r =
    collectArtifacts fs (spec_projectRoot spec)
      (if Js.truthy (spec_outputDir spec) then default "" (spec_outputDir spec)
       else "test-results").

(** A write that did not throw. *)
Definition written (wr : WriteEntry) : Prop := wr_error wr = None.

(** The message of the first write that threw, if one did. *)
Definition write_error (ws : list WriteEntry) : option string :=
  head (omap wr_error ws).

(** The two files the output of the main command is written to. *)
Definition output_log (spec : RunSpec) (path : string) : Prop :=
  path = join (logs_dir spec) "stdout.log" \/
  path = join (logs_dir spec) "stderr.log".

(** What the writes [ws] of a step that ended in [out] look like: all
    went well if the step settled; if an exception escaped a listener, it
    is the error of the last write, the only one that threw. *)
Definition writes_of {A} (out : Settled A) (ws : list WriteEntry) : Prop :=
  match out with
  | Settles _ => Forall written ws
  | Uncaught msg =>
      exists before wr,
        ws = before ++ [wr] /\ Forall written before /\ wr_error wr = Some msg
  end.

(** What the loop ends in after a call that did not exit with 0. *)
Definition stopped_by (logsDir : string) (i : nat) (pc : PreCommand)
    (out : Settled CommandResult) (res : Settled PreCommandsResult) : Prop :=
  match out with
  | Settles c =>
      res = Returns
        {| pre_success := false;
           pre_error := Some (pre_command_failure (pre_command_log logsDir i) i
                                (pc_argv pc) c);
           pre_logPath := Some (pre_command_log logsDir i) |}
  | Uncaught msg => res = Uncaught msg
  end.

(** The ways a run of the resolved command [c] can go: the outcome, the
    calls made and the files written; [fs] is the file system the run
    leaves. *)
Inductive Ran (spec : RunSpec) (c : ResolvedCommand) (fs : FileSystem)
  : Settled RunResult -> list TraceEntry -> list WriteEntry -> Prop :=
| Ran_setup_failed entries ws res msg r :
    PreRun (runEnv process_env spec c) (logs_dir spec) 0
      (default [] (cmd_preCommands c)) entries (Returns res) ->
    pre_success res = false ->
    pre_error res = Some msg ->
    Forall written ws ->
    error_result "pre_command_failed" msg r ->
    Ran spec c fs (Returns r) entries ws
| Ran_setup_uncaught entries ws msg :
    PreRun (runEnv process_env spec c) (logs_dir spec) 0
      (default [] (cmd_preCommands c)) entries (Uncaught msg) ->
    write_error ws = Some msg ->
    Ran spec c fs (Uncaught msg) entries ws
| Ran_main_threw entries ws res err r :
    PreRun (runEnv process_env spec c) (logs_dir spec) 0
      (default [] (cmd_preCommands c)) entries (Returns res) ->
    pre_success res = true ->
    Forall written ws ->
    error_result "execution_error" (exception_message err) r ->
    Ran spec c fs (Returns r) (entries ++ [main_entry spec c (Throws err)]) ws
| Ran_main_returned entries ws res result r :
    PreRun (runEnv process_env spec c) (logs_dir spec) 0
      (default [] (cmd_preCommands c)) entries (Returns res) ->
    pre_success res = true ->
    Forall written ws ->
    finished_result spec c result fs r ->
    Ran spec c fs (Returns r) (entries ++ [main_entry spec c (Returns result)]) ws
| Ran_output_lost entries ws res result wr msg r :
    PreRun (runEnv process_env spec c) (logs_dir spec) 0
      (default [] (cmd_preCommands c)) entries (Returns res) ->
    pre_success res = true ->
    In wr ws ->
    output_log spec (wr_path wr) ->
    wr_error wr = Some msg ->
    write_error ws = Some msg ->
    error_result "execution_error" msg r ->
    Ran spec c fs (Returns r) (entries ++ [main_entry spec c (Returns result)]) ws.

End RunVocabulary.

(** ** Flags, environments and artifacts *)

(** [resolved] with another argv. *)
Definition with_argv (resolved : ResolvedCommand) (argv : list string)
  : ResolvedCommand :=
  {| cmd_argv := argv;
     cmd_cwd := cmd_cwd resolved;
     cmd_mode := cmd_mode resolved;
     cmd_env := cmd_env resolved;
     cmd_preCommands := cmd_preCommands resolved |}.

(** The joined command line mentions [flag]. *)
Definition mentions (flag : string) (argv : list string) : bool :=
  Js.includes flag (Js.join " " argv).

(** The value an optional overlay gives a key, if any. *)
Definition overlay (o : option Env) (key : string) : option string :=
  match o with
  | Some e => e !! key
  | None => None
  end.

(** The file-name pattern of each artifact type, on the lower-cased name;
    no pattern leads to [other]. *)
Definition artifact_pattern (t : ArtifactType) (lower : string) : bool :=
  match t with
  | screenshot =>
      Js.endsWith ".png" lower || Js.endsWith ".jpg" lower || Js.endsWith ".jpeg" lower
  | trace => Js.endsWith ".zip" lower && Js.includes "trace" lower
  | video => Js.endsWith ".webm" lower || Js.endsWith ".mp4" lower
  | report =>
      (Js.endsWith ".html" lower || Js.endsWith ".json" lower)
      && Js.includes "report" lower
  | other => false
  end.

(** An artifact whose type is the one its file name classifies to. *)
Definition well_typed (a : ArtifactInfo) : Prop :=
  getArtifactType (art_name a) = Some (art_type a).

(* ===================================================================== *)
(** * More of [core/config.ts] *)
(* ===================================================================== *)

(** ** Environment variable references *)

(** [ENV_VAR_REF_PATTERN], read as the scanner the regular expression
    engine runs: matches are found left to right and do not overlap; a
    match is a dollar sign, an optional opening brace, a name (an upper-case
    letter or underscore, then upper-case letters, digits and underscores,
    as many as follow), and a closing brace if one follows. *)
Module EnvRef.

Inductive Piece :=
| Lit (c : ascii)          (* a character outside every match *)
| Ref (name : string).     (* one match, with its captured name *)

Inductive ScanState :=
| Outside                  (* not inside a candidate match *)
| AfterDollar              (* read "$" *)
| AfterBrace               (* read "${" *)
| InName (name : string).  (* read "$" or "${" and the name so far *)

(** [[A-Z_]] *)
Definition is_name_start (c : ascii) : bool :=
  let n := nat_of_ascii c in
  (Nat.leb 65 n && Nat.leb n 90) || Nat.eqb n 95.

(** [[A-Z0-9_]] *)
Definition is_name_char (c : ascii) : bool :=
  let n := nat_of_ascii c in
  is_name_start c || (Nat.leb 48 n && Nat.leb n 57).

Definition outside_step (c : ascii) : ScanState * list Piece :=
  if Ascii.eqb c "$" then (AfterDollar, []) else (Outside, [Lit c]).

(** One character.  A candidate that cannot be completed is given up: its
    characters are ordinary text and the scan resumes after its dollar
    sign. *)
Definition step (st : ScanState) (c : ascii) : ScanState * list Piece :=
  match st with
  | Outside => outside_step c
  | AfterDollar =>
      if Ascii.eqb c "{" then (AfterBrace, [])
      else if is_name_start c then (InName (String c EmptyString), [])
      else let '(st', out) := outside_step c in (st', Lit "$" :: out)
  | AfterBrace =>
      if is_name_start c then (InName (String c EmptyString), [])
      else let '(st', out) := outside_step c in (st', Lit "$" :: Lit "{" :: out)
  | InName name =>
      if is_name_char c then (InName (name +:+ String c EmptyString), [])
      else if Ascii.eqb c "}" then (Outside, [Ref name])
      else let '(st', out) := outside_step c in (st', Ref name :: out)
  end.

(** The end of the input. *)
Definition finish (st : ScanState) : list Piece :=
  match st with
  | Outside => []
  | AfterDollar => [Lit "$"]
  | AfterBrace => [Lit "$"; Lit "{"]
  | InName name => [Ref name]
  end.

Fixpoint scan (st : ScanState) (s : string) : list Piece :=
  match s with
  | EmptyString => finish st
  | String c rest => let '(st', out) := step st c in out ++ scan st' rest
  end.

(** The captured names of [value.matchAll(ENV_VAR_REF_PATTERN)]. *)
Definition names (pieces : list Piece) : list string :=
  omap (fun p => match p with Ref name => Some name | Lit _ => None end) pieces.

(** [value.replace(ENV_VAR_REF_PATTERN, (_, name) => env[name] || '')] *)
Fixpoint render (env : Env) (pieces : list Piece) : string :=
  match pieces with
  | [] => EmptyString
  | Lit c :: rest => String c (render env rest)
  | Ref name :: rest => default EmptyString (env !! name) +:+ render env rest
  end.

(** A whole name: what the capture group of the pattern matches. *)
Definition is_name (s : string) : bool :=
  match s with
  | EmptyString => false
  | String c rest =>
      is_name_start c && forallb is_name_char (list_ascii_of_string rest)
  end.

(** The pieces of a text without references. *)
Definition text (s : string) : list Piece := map Lit (list_ascii_of_string s).

End EnvRef.

(** [env] stands for [process.env]. *)
Definition resolveEnvValue (env : Env) (value : option string) : option string :=
  match value with
  | None => None
  | Some value =>
      let pieces := EnvRef.scan EnvRef.Outside value in
      match EnvRef.names pieces with
      | [] => Some value
      | (_ :: _) as matches =>
          if forallb (fun name => bool_decide (is_Some (env !! name))) matches
          then Some (EnvRef.render env pieces)
          else None
      end
  end.

Record ConfigValidationResult := {
  cv_valid : bool;
  cv_errors : list string;
  cv_warnings : list string;
}.

(** The double quote character, for messages that quote a word. *)
Definition DQ : string := String "034"%char EmptyString.

Definition credentials_required (where_ : string) : string :=
  where_ +:+ ": credentials required when strategy is " +:+
  DQ +:+ "login_in_test" +:+ DQ.

Definition lacks_credentials (p : RawAuthProfile) : bool :=
  match rap_strategy p, rap_credentials p with
  | login_in_test, None => true
  | _, _ => false
  end.

(** Optional chaining [o?.f] on an optional field [f]. *)
Definition chain {A B} (o : option A) (f : A -> option B) : option B :=
  match o with
  | Some a => f a
  | None => None
  end.

Section ConfigMore.
Context {P : NodePath}.

(** [config?.auth ?? null]; the loaded configuration always has the
    section. *)
Definition loadAuthConfig (fs : FileSystem) (projectRoot : string)
  : Completion (option AuthConfig) :=
  match loadProjectConfig fs projectRoot with
  | Throws e => Throws e
  | Returns None => Returns None
  | Returns (Some config) => Returns (kc_auth config)
  end.

Definition getProjectBaseUrl (fs : FileSystem) (env : Env) (projectRoot : string)
  : Completion (option string) :=
  match loadProjectConfig fs projectRoot with
  | Throws e => Throws e
  | Returns config =>
      let baseUrl := chain (chain config kc_project) ps_baseUrl in
      if negb (Js.truthy baseUrl) then Returns None
      else Returns (resolveEnvValue env baseUrl)
  end.

(** [validateConfigFile], for the [config validate] command.  Unlike
    [loadProjectConfig] it has no test for a root that is not a mapping:
    such a document goes to the schema, whose one issue for it is
    [scalar_root_issue].  The errors for the named profiles come in the
    order of [Object.entries]; here in the order of the map's keys. *)
Definition validateConfigFile (scalar_root_issue : string)
    (fs : FileSystem) (projectRoot : string) : ConfigValidationResult :=
  let configPath := getConfigPath projectRoot in
  let invalid errors :=
    {| cv_valid := false; cv_errors := errors; cv_warnings := [] |} in
  if negb (existsSync fs configPath) then
    invalid ["Config file not found: " +:+ configPath]
  else
    match readYaml fs configPath with
    | Unreadable err => invalid ["Cannot read file: " +:+ err]
    | Malformed err => invalid ["YAML parse error: " +:+ err]
    | EmptyDocument => invalid ["File is empty"]
    | NotAMapping => invalid [scalar_root_issue]
    | SchemaRejected issues => invalid issues
    | Validated raw =>
        let warnings :=
          if negb (Js.truthy (run_script (raw_run raw)))
             && negb (Js.truthy (run_config_path (raw_run raw)))
          then ["No run.script or run.config_path set - run command will require CLI flags"]
          else [] in
        let default_errors :=
          match auth_default (raw_auth raw) with
          | Some p =>
              if lacks_credentials p then [credentials_required "auth.default"] else []
          | None => []
          end in
        let profile_errors :=
          omap (fun '(name, profile) =>
                  if lacks_credentials profile
                  then Some (credentials_required ("auth.profiles." +:+ name))
                  else None)
               (map_to_list (auth_profiles (raw_auth raw))) in
        let errors := default_errors ++ profile_errors in
        {| cv_valid := bool_decide (errors = []);
           cv_errors := errors;
           cv_warnings := warnings |}
    end.

(** ** Callers in [core/context-formatter.ts] *)

(** Whether the configuration names an entry point; [false] when the file
    is missing or cannot be loaded. *)
Definition canRunTests (fs : FileSystem) (projectRoot : string) : bool :=
  match loadProjectConfig fs projectRoot with
  | Returns (Some config) =>
      Js.truthy (chain (kc_run config) rc_script)
      || Js.truthy (chain (kc_run config) rc_configPath)
  | Returns None => false
  | Throws _ => false
  end.

Definition getProjectName (fs : FileSystem) (projectRoot : string) : option string :=
  match loadProjectConfig fs projectRoot with
  | Returns config =>
      let name := chain (chain config kc_project) ps_name in
      if Js.truthy name then name else None
  | Throws _ => None
  end.

(** ** The [run_tests] tool of [mcp-server.ts] *)

Record RunTestsParams := {
  rt_project_root : string;
  rt_artifacts_dir : option string;
  rt_timeout_seconds : Z;          (* the schema defaults it to 300 *)
  rt_script : option string;
  rt_config_path : option string;
  rt_spec_file : option string;
  rt_skip_setup : bool;            (* the schema defaults it to false *)
}.

(** The [RunSpec] the tool hands to [runValidate], from its parameters and
    the run section it loaded ([null] without a [kitwe.yaml]). *)
Definition run_tests_spec (params : RunTestsParams) (runConfig : option RunConfig)
  : RunSpec :=
  let resolvedArtifacts :=
    if Js.truthy (rt_artifacts_dir params)
    then Js.assert_defined (rt_artifacts_dir params)
    else
      match runConfig with
      | Some rc =>
          match rc_artifactsDir rc with
          | (String _ _) as dir => dir
          | EmptyString =>
              resolve (resolve (rt_project_root params) "artifacts") "kitwe"
          end
      | None => resolve (resolve (rt_project_root params) "artifacts") "kitwe"
      end in
  {| spec_projectRoot := rt_project_root params;
     spec_artifactsDir := resolvedArtifacts;
     spec_timeoutSeconds := rt_timeout_seconds params;
     spec_script :=
       if Js.truthy (rt_script params) then rt_script params
       else chain runConfig rc_script;
     spec_configPath := rt_config_path params;
     spec_runner := chain runConfig rc_runner;
     spec_args :=
       if Js.truthy (rt_spec_file params)
       then Some [Js.assert_defined (rt_spec_file params)]
       else None;
     spec_env := chain runConfig rc_env;
     spec_preCommands := None;
     spec_skipSetup := Some (rt_skip_setup params);
     spec_testName := None;
     spec_outputDir := chain runConfig rc_outputDir |}.

End ConfigMore.

(* ===================================================================== *)
(** * More vocabulary *)
(* ===================================================================== *)

(** [raw] with its [run] section replaced. *)
Definition with_run (raw : RawConfig) (r : RawRun) : RawConfig :=
  {| raw_version := raw_version raw;
     raw_project := raw_project raw;
     raw_setup := raw_setup raw;
     raw_run := r;
     raw_tests := raw_tests raw;
     raw_auth := raw_auth raw |}.

(** The Playwright config path a resolution checks on disk, if any: the
    caller's when no caller script is set, else the persisted one when
    neither caller field nor a persisted script is set. *)
Definition config_path_in_effect (spec : RunSpec) (persisted : option RunConfig)
  : option string :=
  if Js.truthy (spec_script spec) then None
  else if Js.truthy (spec_configPath spec) then spec_configPath spec
  else
    match persisted with
    | Some rc =>
        if Js.truthy (rc_script rc) then None
        else if Js.truthy (rc_configPath rc) then rc_configPath rc
        else None
    | None => None
    end.

Section ArtifactVocabulary.
Context {P : NodePath}.

(** [Listed fs depth dir a]: [a] describes a regular file with a
    classified name that [fs] lists [depth] directories below [dir]. *)
Inductive Listed (fs : FileSystem) : nat -> string -> ArtifactInfo -> Prop :=
| Listed_here dir entries entry size type :
    readdirSync fs dir = Some entries ->
    In entry entries ->
    statSync fs (join dir entry) = Some (StatFile size) ->
    getArtifactType entry = Some type ->
    Listed fs 0 dir {| art_type := type; art_path := join dir entry;
                       art_name := entry; art_size := size |}
| Listed_below dir entries entry depth a :
    readdirSync fs dir = Some entries ->
    In entry entries ->
    statSync fs (join dir entry) = Some StatDirectory ->
    Listed fs depth (join dir entry) a ->
    Listed fs (S depth) dir a.

(** What one directory entry adds to the array. *)
Definition entry_step (levels : nat) (fs : FileSystem) (dir : string)
    (acc : list ArtifactInfo) (entry : string) : list ArtifactInfo :=
  match statSync fs (join dir entry) with
  | None => acc
  | Some StatDirectory =>
      collectArtifactsFromDir_levels levels fs (join dir entry) acc
  | Some (StatFile size) =>
      match getArtifactType entry with
      | Some type =>
          acc ++ [ {| art_type := type; art_path := join dir entry;
                      art_name := entry; art_size := size |} ]
      | None => acc
      end
  | Some StatSpecial => acc
  end.

(** What one search directory contributes to [collectArtifacts]. *)
Definition found_under (fs : FileSystem) (dir : string) : list ArtifactInfo :=
  if existsSync fs dir then collectArtifactsFromDir fs dir [] 0 else [].

(** The directories [collectArtifacts] searches, in its order. *)
Definition searchDirs (projectRoot outputDir : string) : list string :=
  [ join projectRoot "test-results"; join projectRoot "playwright-report"; outputDir ].

End ArtifactVocabulary.

(* ===================================================================== *)
(** * More sample projects *)
(* ===================================================================== *)

Module SampleMore.

(** [/proj] whose [kitwe.yaml] names a persisted config path that is not
    on disk. *)
Definition fs_missing_config : FileSystem :=
  Sample.fs_with ["/proj"; "/proj/kitwe.yaml"]
    (Validated (Sample.config_of None Sample.config_path_run)).

Definition missing_config_error : ResolvedError :=
  {| errorType := "config_not_found";
     message := "Playwright config from kitwe.yaml not found: /proj/playwright.config.ts" |}.

(** The run section of [Sample.fs_skip_setup] as the loader returns it. *)
Definition skip_setup_run_config : RunConfig :=
  {| rc_script := Some "test:e2e";
     rc_configPath := None;
     rc_timeoutSeconds := 1200;
     rc_artifactsDir := "artifacts/kitwe";
     rc_runner := None;
     rc_args := Some [];
     rc_env := None;
     rc_preCommands :=
       Some [ {| pc_argv := ["npm"; "run"; "migrate"]; pc_env := None; pc_cwd := None |} ];
     rc_skipSetup := Some true;
     rc_outputDir := None |}.

(** A [run_tests] request that names one spec file and nothing else. *)
Definition one_file_request : RunTestsParams :=
  {| rt_project_root := "/proj";
     rt_artifacts_dir := None;
     rt_timeout_seconds := 300;
     rt_script := None;
     rt_config_path := None;
     rt_spec_file := Some "tests/login.spec.ts";
     rt_skip_setup := false |}.

Definition host_env : Env := {[ "HOST" := "example.test" ]}.

(** [/proj] with one setup command that has a working directory and an
    environment of its own. *)
Definition compose_up : RawPreCommand :=
  {| raw_argv := ["docker"; "compose"; "up"; "-d"];
     raw_cwd := Some "infra";
     raw_env := Some {[ "COMPOSE_PROJECT_NAME" := "e2e" ]} |}.

Definition fs_compose : FileSystem :=
  Sample.fs_with ["/proj"; "/proj/kitwe.yaml"]
    (Validated (Sample.config_of (Some [compose_up]) Sample.default_run)).

Definition compose_run : Run :=
  run (P := posix) (H := Sample.scripted fs_compose) Sample.script_spec
    [Sample.exits 0; Sample.exits 0].

(** The call that starts [compose_up] in that run. *)
Definition compose_call : TraceEntry :=
  pre_command_entry (P := posix) (H := Sample.scripted fs_compose)
    (runEnv ∅ Sample.script_spec
       (resolveFromScript (P := posix) fs_compose Sample.script_spec))
    "/proj/artifacts/logs" 0
    {| pc_argv := ["docker"; "compose"; "up"; "-d"];
       pc_env := Some {[ "COMPOSE_PROJECT_NAME" := "e2e" ]};
       pc_cwd := Some "/proj/infra" |}
    (Returns (Sample.exited 0)).

Definition scalar_root_issue : string := "Expected object, received string".

End SampleMore.

(* ===================================================================== *)
(** * Properties of JavaScript strings *)
(* ===================================================================== *)

Module JsFacts.

Lemma append_nil (b : string) : EmptyString +:+ b = b.
Proof. reflexivity. Qed.

Lemma append_cons ch (a b : string) : String ch a +:+ b = String ch (a +:+ b).
Proof. reflexivity. Qed.

Lemma append_assoc (a b c : string) : (a +:+ b) +:+ c = a +:+ (b +:+ c).
Proof.
  induction a as [|ch a IH]; [reflexivity|].
  rewrite !append_cons, IH. reflexivity.
Qed.

Lemma prefix_append p t : String.prefix p (p +:+ t) = true.
Proof.
  induction p as [|ch p IH].
  - rewrite append_nil. destruct t; reflexivity.
  - rewrite append_cons. simpl.
    destruct (ascii_dec ch ch); [exact IH|congruence].
Qed.

Lemma prefix_inv p s : String.prefix p s = true -> exists t, s = p +:+ t.
Proof.
  revert p. induction s as [|b s IH]; intros [|a p]; simpl; intros Hp.
  - exists EmptyString. reflexivity.
  - discriminate.
  - eexists. reflexivity.
  - destruct (ascii_dec a b) as [->|]; [|discriminate].
    destruct (IH p Hp) as [t ->]. exists t. reflexivity.
Qed.

Lemma includes_unfold needle s :
  Js.includes needle s =
    String.prefix needle s ||
    match s with
    | EmptyString => false
    | String _ rest => Js.includes needle rest
    end.
Proof. destruct s; reflexivity. Qed.

(** [includes] finds exactly the strings that contain the needle. *)
Lemma includes_spec needle s :
  Js.includes needle s = true <-> exists a b, s = a +:+ needle +:+ b.
Proof.
  split.
  - induction s as [|ch s IH]; rewrite includes_unfold;
      intros Hor; apply orb_true_iff in Hor as [Hp|Hin].
    + apply prefix_inv in Hp as [t ->]. exists EmptyString, t. reflexivity.
    + discriminate.
    + apply prefix_inv in Hp as [t ->]. exists EmptyString, t. reflexivity.
    + destruct (IH Hin) as (a & b & ->). exists (String ch a), b. reflexivity.
  - intros (a & b & ->). induction a as [|ch a IH].
    + rewrite append_nil, includes_unfold, prefix_append. reflexivity.
    + rewrite append_cons, includes_unfold, IH. apply orb_true_r.
Qed.

Lemma includes_append_l needle a b :
  Js.includes needle a = true -> Js.includes needle (a +:+ b) = true.
Proof.
  rewrite !includes_spec. intros (x & y & ->).
  exists x, (y +:+ b). rewrite !append_assoc. reflexivity.
Qed.

Lemma includes_append_r needle a b :
  Js.includes needle b = true -> Js.includes needle (a +:+ b) = true.
Proof.
  rewrite !includes_spec. intros (x & y & ->).
  exists (a +:+ x), y. rewrite !append_assoc. reflexivity.
Qed.

Lemma join_cons sep x y rest :
  Js.join sep (x :: y :: rest) = x +:+ sep +:+ Js.join sep (y :: rest).
Proof. reflexivity. Qed.

(** Joining a concatenation of two non-empty arrays. *)
Lemma join_app sep l l' :
  l <> [] -> l' <> [] ->
  Js.join sep (l ++ l') = Js.join sep l +:+ sep +:+ Js.join sep l'.
Proof.
  intros Hl Hl'. induction l as [|x l IH]; [congruence|].
  destruct l as [|y l].
  - destruct l' as [|z l']; [congruence|]. reflexivity.
  - change ((x :: y :: l) ++ l') with (x :: y :: (l ++ l')).
    rewrite !join_cons.
    change (y :: l ++ l') with ((y :: l) ++ l').
    rewrite IH by discriminate. rewrite !append_assoc. reflexivity.
Qed.

(** A needle in the joined prefix of an array is in the joined array. *)
Lemma includes_join_app_l needle sep l l' :
  Js.includes needle (Js.join sep l) = true ->
  Js.includes needle (Js.join sep (l ++ l')) = true.
Proof.
  intros Hin. destruct l' as [|z l']; [rewrite app_nil_r; exact Hin|].
  destruct l as [|x l].
  - destruct needle; [|discriminate Hin].
    apply includes_spec. exists EmptyString. eexists. reflexivity.
  - rewrite join_app by discriminate. apply includes_append_l. exact Hin.
Qed.

(** A needle in one element of an array is in the joined array. *)
Lemma includes_join_elem needle sep x l :
  In x l -> Js.includes needle x = true ->
  Js.includes needle (Js.join sep l) = true.
Proof.
  intros Hx Hin. induction l as [|y l IH]; [contradiction|].
  destruct l as [|z l].
  - destruct Hx as [->|[]]. exact Hin.
  - rewrite join_cons. destruct Hx as [->|Hx].
    + apply includes_append_l. exact Hin.
    + apply includes_append_r, includes_append_r. exact (IH Hx).
Qed.

End JsFacts.

(* ===================================================================== *)
(** * Properties of the resolver *)
(* ===================================================================== *)

Section ResolverFacts.
Context {P : NodePath}.

(** Every resolved command carries the pre-commands [extractPreCommands]
    computes, whichever tier produced it. *)
Lemma resolved_preCommands fs spec c :
  resolveRunSpec fs spec = Returns (Command c) ->
  cmd_preCommands c = extractPreCommands fs spec.
Proof.
  unfold resolveRunSpec.
  destruct (existsSync fs (spec_projectRoot spec)); simpl; [|discriminate].
  destruct (loadRunConfig fs (spec_projectRoot spec)) as [persisted|]; [|discriminate].
  destruct (Js.truthy (spec_script spec)).
  { intros [= <-]. reflexivity. }
  destruct (Js.truthy (spec_configPath spec)).
  { unfold resolveFromConfig.
    destruct (existsSync fs _); simpl; intros [= <-]; reflexivity. }
  destruct persisted as [rc|]; [|discriminate].
  unfold resolveFromRunConfig.
  destruct (Js.truthy (rc_script rc)); simpl.
  { intros [= <-]. reflexivity. }
  destruct (Js.truthy (rc_configPath rc)); simpl; [|discriminate].
  destruct (existsSync fs _); simpl; intros [= <-]; reflexivity.
Qed.

Lemma getRunPreCommands_validated fs root raw :
  existsSync fs (getConfigPath root) = true ->
  readYaml fs (getConfigPath root) = Validated raw ->
  getRunPreCommands fs root =
    (if run_skip_setup (raw_run raw) then [] else setup_commands raw)
    ++ run_commands raw.
Proof.
  intros Hex Hyaml. unfold getRunPreCommands, setup_commands, run_commands.
  rewrite Hex, Hyaml. simpl.
  destruct (run_skip_setup (raw_run raw)), (setup_pre_commands (raw_setup raw)),
    (run_pre_commands (raw_run raw)); reflexivity.
Qed.

Lemma extractPreCommands_spec fs spec :
  extractPreCommands fs spec =
    if default false (spec_skipSetup spec) then None
    else unless_empty
           (located (spec_projectRoot spec)
              (getRunPreCommands fs (spec_projectRoot spec))).
Proof.
  unfold extractPreCommands, located.
  destruct (default false (spec_skipSetup spec)); [reflexivity|].
  destruct (getRunPreCommands fs (spec_projectRoot spec)); reflexivity.
Qed.

Lemma script_argv_separator r script extra :
  script <> "--" ->
  ~ In "--" extra ->
  extra <> [] ->
  In "--" (script_argv r script extra) <-> r = npm.
Proof.
  intros Hs Hx Hne. unfold script_argv.
  destruct extra as [|x extra]; [congruence|].
  split.
  - intros Hin. destruct r; [reflexivity| | |];
      simpl in Hin;
      destruct Hin as [H|[H|[H|H]]]; try discriminate; try congruence;
      try (exfalso; apply Hx; simpl; tauto).
  - intros ->. simpl. tauto.
Qed.

End ResolverFacts.

Section ResolverClaims.
Context {P : NodePath}.

(** C1 (amended): when the project root exists and [kitwe.yaml] is absent
    or loads without error, resolution follows the strict tier order with
    short-circuit, a caller field counting as set when it is a non-empty
    string: a set [spec.script] gives the caller-script command (mode
    [cli_script], argv built from the spec alone) whatever
    [spec.configPath] and the persisted run section say; otherwise a set
    [spec.configPath] gives the caller-config tier; only when both are
    unset is the persisted [run.script] tried, then the persisted
    [run.configPath]; if no tier matches the result is a [ResolvedError]
    of category [no_entrypoint]. *)
Theorem C1_priority_order fs spec persisted :
  existsSync fs (spec_projectRoot spec) = true ->
  loadRunConfig fs (spec_projectRoot spec) = Returns persisted ->
  exists r,
    resolveRunSpec fs spec = Returns r /\
    answers spec persisted (spec_tier spec persisted) r.
Proof.
  intros Hroot Hload. unfold resolveRunSpec, spec_tier.
  rewrite Hroot, Hload. simpl.
  destruct (Js.truthy (spec_script spec)).
  { eexists; split; [reflexivity|]. simpl. eexists _, _.
    repeat split; reflexivity. }
  destruct (Js.truthy (spec_configPath spec)).
  { eexists; split; [reflexivity|]. simpl. unfold resolveFromConfig.
    destruct (existsSync fs (resolve _ _)); simpl.
    - left. eexists. repeat split; reflexivity.
    - right. eexists. split; reflexivity. }
  destruct persisted as [rc|].
  2:{ eexists; split; [reflexivity|]. eexists. split; reflexivity. }
  unfold resolveFromRunConfig.
  destruct (Js.truthy (rc_script rc)); simpl.
  { eexists; split; [reflexivity|]. simpl. eexists _, _, rc.
    repeat split; reflexivity. }
  destruct (Js.truthy (rc_configPath rc)); simpl.
  2:{ eexists; split; [reflexivity|]. eexists. split; reflexivity. }
  destruct (existsSync fs (resolve _ _)); simpl.
  - eexists; split; [reflexivity|]. exists rc. split; [reflexivity|].
    left. eexists. repeat split; reflexivity.
  - eexists; split; [reflexivity|]. exists rc. split; [reflexivity|].
    right. eexists. split; reflexivity.
Qed.

(** C4 (amended): a spec with script "test:e2e" and no runner override,
    on an existing project root without lock files whose [kitwe.yaml] is
    absent or loads without error, resolves to [npm run test:e2e] in mode
    [cli_script]; with args ["--headed"] it resolves to
    [npm run test:e2e -- --headed]; and with those args the separator is
    in the argv exactly when the runner in effect (the override, else the
    detected one) is npm. *)
Theorem C4_npm_script_scenarios fs spec persisted :
  existsSync fs (spec_projectRoot spec) = true ->
  loadRunConfig fs (spec_projectRoot spec) = Returns persisted ->
  spec_script spec = Some "test:e2e" ->
  exists c,
    resolveRunSpec fs spec = Returns (Command c) /\
    cmd_mode c = cli_script /\
    (spec_runner spec = None ->
     existsSync fs (resolve (spec_projectRoot spec) "pnpm-lock.yaml") = false ->
     existsSync fs (resolve (spec_projectRoot spec) "yarn.lock") = false ->
     (default [] (spec_args spec) = [] -> cmd_argv c = ["npm"; "run"; "test:e2e"]) /\
     (spec_args spec = Some ["--headed"] ->
      cmd_argv c = ["npm"; "run"; "test:e2e"; "--"; "--headed"])) /\
    (spec_args spec = Some ["--headed"] ->
     (In "--" (cmd_argv c) <->
      default (detectPackageManager fs (spec_projectRoot spec)) (spec_runner spec) = npm)).
Proof.
  intros Hroot Hload Hscript. unfold resolveRunSpec.
  rewrite Hroot, Hload, Hscript. simpl.
  eexists; split; [reflexivity|]. split; [reflexivity|].
  unfold resolveFromScript; simpl. rewrite Hscript. simpl.
  split.
  - intros Hrunner Hpnpm Hyarn. rewrite Hrunner.
    unfold detectPackageManager. rewrite Hpnpm, Hyarn.
    unfold present_args. split; intros ->; reflexivity.
  - intros ->.
    replace (match spec_runner spec with
             | Some r => r
             | None => detectPackageManager fs (spec_projectRoot spec)
             end)
      with (default (detectPackageManager fs (spec_projectRoot spec)) (spec_runner spec))
      by (destruct (spec_runner spec); reflexivity).
    apply (script_argv_separator _ "test:e2e" ["--headed"]).
    + discriminate.
    + simpl. intros [H|[]]. discriminate.
    + discriminate.
Qed.


(** C9: the two skip flags are asymmetric.  With a valid [kitwe.yaml],
    every resolved command omits all pre-commands when [spec.skipSetup]
    is true; when it is not, a persisted [run.skip_setup = true] drops
    only the [setup.pre_commands] and keeps the [run.pre_commands] in
    order, and [run.skip_setup = false] gives the setup commands followed
    by the run commands. *)
Theorem C9_skip_setup_asymmetry fs spec raw c :
  existsSync fs (getConfigPath (spec_projectRoot spec)) = true ->
  readYaml fs (getConfigPath (spec_projectRoot spec)) = Validated raw ->
  resolveRunSpec fs spec = Returns (Command c) ->
  (spec_skipSetup spec = Some true -> cmd_preCommands c = None) /\
  (spec_skipSetup spec <> Some true ->
   run_skip_setup (raw_run raw) = true ->
   cmd_preCommands c
   = unless_empty (located (spec_projectRoot spec) (run_commands raw))) /\
  (spec_skipSetup spec <> Some true ->
   run_skip_setup (raw_run raw) = false ->
   cmd_preCommands c
   = unless_empty (located (spec_projectRoot spec)
                     (setup_commands raw ++ run_commands raw))).
Proof.
  intros Hex Hyaml Hres.
  rewrite (resolved_preCommands _ _ _ Hres), extractPreCommands_spec.
  rewrite (getRunPreCommands_validated _ _ _ Hex Hyaml).
  repeat split.
  - intros ->. reflexivity.
  - intros Hskip ->.
    destruct (spec_skipSetup spec) as [[]|]; [congruence| |]; reflexivity.
  - intros Hskip ->.
    destruct (spec_skipSetup spec) as [[]|]; [congruence| |]; reflexivity.
Qed.

End ResolverClaims.

(* ===================================================================== *)
(** * Properties of the executor *)
(* ===================================================================== *)

Section ExecutorFacts.
Context {P : NodePath} {World : Type} {H : Host World}.

Lemma write_error_written ws :
  Forall written ws -> write_error ws = None.
Proof.
  unfold write_error. induction 1 as [|wr ws Hwr _ IH]; [reflexivity|].
  simpl. unfold written in Hwr. rewrite Hwr. exact IH.
Qed.

Lemma write_error_app ws ws' :
  Forall written ws -> write_error (ws ++ ws') = write_error ws'.
Proof.
  unfold write_error. induction 1 as [|wr ws Hwr _ IH]; [reflexivity|].
  simpl. unfold written in Hwr. rewrite Hwr. exact IH.
Qed.

Lemma write_error_cons wr ws msg :
  wr_error wr = Some msg -> write_error (wr :: ws) = Some msg.
Proof. unfold write_error. simpl. intros ->. reflexivity. Qed.

(** Each call of [runCommand] adds exactly one entry to the trace, with
    what the call ended in; it writes at most its log, and nothing when
    it has no log path, in which case it settles. *)
Lemma runCommand_trace site argv options (st : RunState) out st' :
  runCommand site argv options st = (out, st') ->
  st_trace st' = st_trace st ++
    [ {| te_site := site; te_argv := argv; te_options := options;
         te_outcome := out |} ] /\
  exists ws,
    st_writes st' = st_writes st ++ ws /\
    writes_of out ws /\
    (opt_logPath options = None -> ws = [] /\ exists c, out = Settles c).
Proof.
  unfold runCommand, write_log.
  destruct (spawn _ _ _) as [outcome w].
  destruct outcome as [msg|msg o e|code o e fired].
  - intros [= <- <-]. split; [reflexivity|].
    exists []. split; [reflexivity|]. split; [constructor|]. eauto.
  - destruct (opt_logPath options) as [logPath|].
    + destruct (writeFileSync logPath _ w) as [[failure|] w'];
        intros [= <- <-]; (split; [reflexivity|]);
        eexists; (split; [reflexivity|]); (split; [|discriminate]).
      * exists []. eexists. split; [reflexivity|]. split; [constructor|reflexivity].
      * repeat constructor.
    + intros [= <- <-]. split; [reflexivity|].
      exists []. split; [reflexivity|]. split; [constructor|]. eauto.
  - destruct (opt_logPath options) as [logPath|].
    + destruct (writeFileSync logPath _ w) as [[failure|] w'];
        intros [= <- <-]; (split; [reflexivity|]);
        eexists; (split; [reflexivity|]); (split; [|discriminate]).
      * exists []. eexists. split; [reflexivity|]. split; [constructor|reflexivity].
      * repeat constructor.
    + intros [= <- <-]. split; [reflexivity|].
      exists []. split; [reflexivity|]. split; [constructor|]. eauto.
Qed.

Lemma pre_command_failure_nonempty logPath i argv out :
  exists ch rest, pre_command_failure logPath i argv out = String ch rest.
Proof. destruct out; simpl; eauto. Qed.

(** Without a progress callback the loop of [runPreCommands] never
    throws, and what it does is a [PreRun]. *)
Lemma runPreCommands_from_run baseEnv logsDir total cmds :
  forall i (st : RunState),
  exists res st' entries ws,
    runPreCommands_from i total cmds baseEnv logsDir None st = (res, st') /\
    st_trace st' = st_trace st ++ entries /\
    st_writes st' = st_writes st ++ ws /\
    writes_of res ws /\
    PreRun baseEnv logsDir i cmds entries res.
Proof.
  induction cmds as [|pc rest IH]; intros i st.
  - eexists _, st, [], []. simpl. rewrite !app_nil_r.
    split; [reflexivity|]. split; [reflexivity|]. split; [reflexivity|].
    split; constructor.
  - cbn [runPreCommands_from notify]. unfold bind at 1. unfold ret at 1.
    unfold bind at 1. unfold try_catch. unfold bind at 1.
    destruct (runCommand _ _ _ st) as [out st1] eqn:Hcall.
    destruct (runCommand_trace _ _ _ _ _ _ Hcall) as (Htrace & ws1 & Hws1 & Hof1 & _).
    destruct out as [[result|err]|msg].
    + destruct (bool_decide (exitCode result = Some 0)) eqn:Hzero; cbn [ret].
      * destruct (IH (S i) st1) as (res & st' & entries & ws & Hrun & Htr & Hws & Hof & Hpre).
        exists res, st',
          (pre_command_entry baseEnv logsDir i pc (Returns result) :: entries),
          (ws1 ++ ws).
        split; [exact Hrun|]. split.
        { rewrite Htr, Htrace, <- app_assoc. reflexivity. }
        split.
        { rewrite Hws, Hws1, <- app_assoc. reflexivity. }
        split.
        { simpl in Hof1. destruct res as [c|msg]; simpl in *.
          - apply Forall_app. split; assumption.
          - destruct Hof as (before & wr & -> & Hbefore & Hwr).
            exists (ws1 ++ before), wr. rewrite app_assoc.
            split; [reflexivity|]. split; [|exact Hwr].
            apply Forall_app. split; assumption. }
        apply PreRun_next; assumption.
      * eexists _, st1, [pre_command_entry baseEnv logsDir i pc (Returns result)], ws1.
        split; [reflexivity|]. split; [exact Htrace|]. split; [exact Hws1|].
        split; [exact Hof1|].
        apply (PreRun_abort baseEnv logsDir i pc rest (Returns result)). exact Hzero.
    + cbn [ret].
      eexists _, st1, [pre_command_entry baseEnv logsDir i pc (Throws err)], ws1.
      split; [reflexivity|]. split; [exact Htrace|]. split; [exact Hws1|].
      split; [exact Hof1|].
      apply (PreRun_abort baseEnv logsDir i pc rest (Throws err)). reflexivity.
    + eexists _, st1, [pre_command_entry baseEnv logsDir i pc (Uncaught msg)], ws1.
      split; [reflexivity|]. split; [exact Htrace|]. split; [exact Hws1|].
      split; [exact Hof1|].
      apply PreRun_uncaught.
Qed.

(** ** What a [PreRun] looks like *)

Lemma PreRun_sites baseEnv logsDir i cmds entries res :
  PreRun baseEnv logsDir i cmds entries res ->
  map te_site entries = map PreCommandSite (seq i (length entries)).
Proof.
  induction 1; simpl; [reflexivity| |reflexivity|reflexivity].
  f_equal. assumption.
Qed.

Lemma PreRun_no_main baseEnv logsDir i cmds entries res e :
  PreRun baseEnv logsDir i cmds entries res ->
  In e entries -> te_site e <> MainSite.
Proof.
  induction 1; simpl; intros Hin.
  - contradiction.
  - destruct Hin as [<-|Hin]; [discriminate|auto].
  - destruct Hin as [<-|[]]. discriminate.
  - destruct Hin as [<-|[]]. discriminate.
Qed.

(** The entry at loop index [j] is the [(j - i)]-th call and runs the
    [(j - i)]-th command; if it did not exit with 0 it is the last call
    and the loop stops there. *)
Lemma PreRun_entry baseEnv logsDir i cmds entries res e j :
  PreRun baseEnv logsDir i cmds entries res ->
  In e entries -> te_site e = PreCommandSite j ->
  (i <= j)%nat /\
  entries !! (j - i)%nat = Some e /\
  exists pc,
    cmds !! (j - i)%nat = Some pc /\
    e = pre_command_entry baseEnv logsDir j pc (te_outcome e) /\
    (exited_zero (te_outcome e) = false ->
     length entries = S (j - i) /\
     stopped_by logsDir j pc (te_outcome e) res).
Proof.
  induction 1 as [i|i pc rest out entries res Hzero Hrun IH|i pc rest out Hzero
                 |i pc rest msg];
    simpl; intros Hin Hsite.
  - contradiction.
  - destruct Hin as [<-|Hin].
    + simpl in Hsite. injection Hsite as <-.
      rewrite Nat.sub_diag. split; [lia|]. split; [reflexivity|].
      exists pc. split; [reflexivity|]. split; [reflexivity|].
      simpl. intros Hfail. congruence.
    + destruct (IH Hin Hsite) as (Hle & Hlook & pc' & Hcmd & He & Hfail).
      split; [lia|].
      replace (j - i)%nat with (S (j - S i)) by lia. simpl.
      split; [exact Hlook|].
      exists pc'. split; [exact Hcmd|]. split; [exact He|].
      intros Hz. destruct (Hfail Hz) as (Hlen & Hstop).
      split; [lia|exact Hstop].
  - destruct Hin as [<-|[]].
    simpl in Hsite. injection Hsite as <-.
    rewrite Nat.sub_diag. split; [lia|]. split; [reflexivity|].
    exists pc. split; [reflexivity|]. split; [reflexivity|].
    simpl. intros _. split; reflexivity.
  - destruct Hin as [<-|[]].
    simpl in Hsite. injection Hsite as <-.
    rewrite Nat.sub_diag. split; [lia|]. split; [reflexivity|].
    exists pc. split; [reflexivity|]. split; [reflexivity|].
    simpl. intros _. split; reflexivity.
Qed.

Lemma PreRun_success baseEnv logsDir i cmds entries res :
  PreRun baseEnv logsDir i cmds entries (Returns res) ->
  pre_success res = true ->
  length entries = length cmds /\
  forall e, In e entries -> exited_zero (te_outcome e) = true.
Proof.
  intros Hrun. remember (Settles (Returns res)) as settled eqn:Hres.
  revert Hres. induction Hrun; simpl; intros Hres Hs.
  - split; [reflexivity|]. intros e [].
  - destruct (IHHrun Hres Hs) as [Hlen Hall]. split; [lia|].
    intros e [<-|Hin]; [assumption|auto].
  - injection Hres as <-. discriminate.
  - discriminate.
Qed.

Lemma PreRun_failure baseEnv logsDir i cmds entries res :
  PreRun baseEnv logsDir i cmds entries (Returns res) ->
  pre_success res = false ->
  entries <> [] /\
  exists ch rest, pre_error res = Some (String ch rest).
Proof.
  intros Hrun. remember (Settles (Returns res)) as settled eqn:Hres.
  revert Hres. induction Hrun; simpl; intros Hres Hs.
  - injection Hres as <-. discriminate.
  - split; [discriminate|]. apply IHHrun; assumption.
  - injection Hres as <-. split; [discriminate|].
    destruct (pre_command_failure_nonempty (pre_command_log logsDir i) i (pc_argv pc) out)
      as (ch & rest' & ->).
    simpl. eauto.
  - discriminate.
Qed.

Lemma PreRun_uncaught_calls baseEnv logsDir i cmds entries msg :
  PreRun baseEnv logsDir i cmds entries (Uncaught msg) ->
  entries <> [].
Proof.
  intros Hrun. remember (Uncaught msg) as settled eqn:Hres.
  revert Hres. induction Hrun; intros Hres; discriminate.
Qed.

(** A loop that does not throw ends in a result or in an uncaught
    exception. *)
Lemma PreRun_settled baseEnv logsDir i cmds entries res :
  PreRun baseEnv logsDir i cmds entries res ->
  (exists r, res = Returns r) \/ (exists msg, res = Uncaught msg).
Proof. induction 1; eauto. Qed.

(** ** The shape of a run *)

Lemma pre_phase spec c (st : RunState) :
  exists res st' entries ws,
    match cmd_preCommands c with
    | Some ((_ :: _) as preCommands) =>
        bind (ret tt)
          (fun _ => runPreCommands preCommands (runEnv process_env spec c)
                      (logs_dir spec) None)
    | _ => ret {| pre_success := true; pre_error := None; pre_logPath := None |}
    end st = (res, st') /\
    st_trace st' = st_trace st ++ entries /\
    st_writes st' = st_writes st ++ ws /\
    writes_of res ws /\
    PreRun (runEnv process_env spec c) (logs_dir spec) 0
      (default [] (cmd_preCommands c)) entries res.
Proof.
  destruct (cmd_preCommands c) as [[|pc rest]|]; simpl.
  - eexists _, st, [], []. rewrite !app_nil_r.
    split; [reflexivity|]. split; [reflexivity|]. split; [reflexivity|].
    split; constructor.
  - apply runPreCommands_from_run.
  - eexists _, st, [], []. rewrite !app_nil_r.
    split; [reflexivity|]. split; [reflexivity|]. split; [reflexivity|].
    split; constructor.
Qed.

Lemma runValidate_shape spec w :
  exists out st',
    runValidate spec None {| st_world := w; st_trace := []; st_writes := [] |}
    = (out, st') /\
    match mkdir_error spec w with
    | Some msg =>
        out = Throws (JsError msg) /\ st_trace st' = [] /\ st_writes st' = []
    | None =>
        match resolveRunSpec (fs_of (prepared spec w)) spec with
        | Throws e => out = Throws e /\ st_trace st' = [] /\ st_writes st' = []
        | Returns (Failure err) =>
            st_trace st' = [] /\ st_writes st' = [] /\
            exists r, out = Returns r /\ error_result (errorType err) (message err) r
        | Returns (Command c) =>
            Ran spec c (fs_of (st_world st')) out (st_trace st') (st_writes st')
        end
    end.
Proof.
  destruct (runValidate spec None _) as [out st'] eqn:E.
  exists out, st'. split; [reflexivity|].
  unfold runValidate in E. fold (logs_dir spec) in E. fold (reports_dir spec) in E.
  unfold bind at 1 in E. unfold observe at 1 in E.
  unfold bind at 1 in E. unfold mkdir at 1 in E. cbn [st_world st_trace st_writes] in E.
  unfold mkdir_error, prepared.
  destruct (mkdirSync (logs_dir spec) w) as [[msg|] w1].
  { injection E as <- <-. repeat split. }
  cbn [thrown] in E.
  unfold bind at 1 in E. unfold mkdir at 1 in E. cbn [st_world st_trace st_writes] in E.
  destruct (mkdirSync (reports_dir spec) w1) as [[msg|] w2]; cbn [fst snd].
  { injection E as <- <-. repeat split. }
  cbn [thrown notify] in E.
  unfold bind at 1 in E. unfold ret at 1 in E.
  unfold bind at 1 in E. unfold attempt at 1 in E. cbn [st_world] in E.
  destruct (resolveRunSpec (fs_of w2) spec) as [[c|err]|e].
  - (* resolved *)
    unfold bind at 1 in E.
    destruct (pre_phase spec c {| st_world := w2; st_trace := []; st_writes := [] |})
      as (res & st1 & entries & ws & Hpre & Htr & Hws & Hof & Hrun).
    rewrite Hpre in E. simpl in Htr, Hws.
    destruct res as [[res|thrown]|msg].
    3:{ injection E as <- <-. rewrite Htr, Hws.
        apply Ran_setup_uncaught; [exact Hrun|].
        destruct Hof as (before & wr & -> & Hbefore & Hwr).
        rewrite (write_error_app _ _ Hbefore). apply write_error_cons. exact Hwr. }
    2:{ exfalso. destruct (PreRun_settled _ _ _ _ _ _ Hrun) as [[r Hr]|[m Hm]];
          discriminate. }
    simpl in Hof.
    destruct (pre_success res) eqn:Hs; cbn [negb] in E.
    + unfold bind at 1 in E. unfold ret at 1 in E.
      unfold bind at 1 in E. unfold try_catch in E. unfold bind at 1 in E.
      destruct (runCommand MainSite _ _ st1) as [called st2] eqn:Hcall.
      destruct (runCommand_trace _ _ _ _ _ _ Hcall) as (Htr2 & ws2 & Hws2 & _ & Hnolog).
      destruct (Hnolog eq_refl) as (-> & settled & ->).
      rewrite app_nil_r in Hws2. rewrite Htr in Htr2. rewrite Hws in Hws2.
      destruct settled as [result|thrown].
      * unfold bind at 1 in E. unfold write at 1 in E.
        destruct (writeFileSync _ (stdout result) (st_world st2)) as [[msg|] w3] eqn:Hout.
        { cbn [thrown] in E.
          unfold createErrorResult, bind, observe, ret in E.
          injection E as <- <-. cbn [st_trace st_writes]. rewrite Htr2, Hws2.
          eapply (Ran_output_lost _ _ _ _ _ _ _
                    {| wr_path := join (logs_dir spec) "stdout.log";
                       wr_content := stdout result; wr_error := Some msg |} msg);
            [exact Hrun|exact Hs| | | | |].
          - apply in_or_app. right. left. reflexivity.
          - left. reflexivity.
          - reflexivity.
          - rewrite (write_error_app _ _ Hof). reflexivity.
          - repeat split. }
        cbn [thrown] in E.
        unfold bind at 1 in E. unfold write at 1 in E. cbn [st_world st_trace st_writes] in E.
        destruct (writeFileSync _ (stderr result) w3) as [[msg|] w4] eqn:Herr.
        { cbn [thrown] in E.
          unfold createErrorResult, bind, observe, ret in E.
          injection E as <- <-. cbn [st_trace st_writes]. rewrite Htr2, Hws2.
          eapply (Ran_output_lost _ _ _ _ _ _ _
                    {| wr_path := join (logs_dir spec) "stderr.log";
                       wr_content := stderr result; wr_error := Some msg |} msg);
            [exact Hrun|exact Hs| | | | |].
          - apply in_or_app. right. left. reflexivity.
          - right. reflexivity.
          - reflexivity.
          - rewrite <- app_assoc. rewrite (write_error_app _ _ Hof). reflexivity.
          - repeat split. }
        cbn [thrown] in E.
        unfold bind, observe, ret, notify in E. cbn [st_world st_trace st_writes] in E.
        destruct (determineStatus spec result) as [status errors] eqn:Hstatus.
        injection E as <- <-. cbn [st_trace st_writes st_world]. rewrite Htr2, Hws2.
        eapply Ran_main_returned; [exact Hrun|exact Hs| |].
        { rewrite <- app_assoc. apply Forall_app. split; [exact Hof|].
          repeat constructor. }
        unfold finished_result. rewrite Hstatus. cbn [fst snd res_error].
        repeat split. destruct errors; reflexivity.
      * unfold createErrorResult, bind, observe, ret in E.
        injection E as <- <-. rewrite Htr2, Hws2.
        eapply Ran_main_threw; [exact Hrun|exact Hs|exact Hof|].
        repeat split.
    + destruct (PreRun_failure _ _ _ _ _ _ Hrun Hs) as (_ & ch & rest & Herr).
      rewrite Herr in E.
      unfold createErrorResult, bind, observe, ret in E.
      injection E as <- <-. rewrite Htr, Hws.
      eapply Ran_setup_failed; [exact Hrun|exact Hs|exact Herr|exact Hof|].
      repeat split.
  - (* resolution error *)
    unfold createErrorResult, bind, observe, ret in E.
    injection E as <- <-. split; [reflexivity|]. split; [reflexivity|].
    eexists. split; [reflexivity|]. repeat split.
  - injection E as <- <-. repeat split.
Qed.

Lemma run_shape spec w :
  match mkdir_error spec w with
  | Some msg =>
      outcome_of (run spec w) = Throws (JsError msg) /\
      calls (run spec w) = [] /\ writes (run spec w) = []
  | None =>
      match resolveRunSpec (fs_of (prepared spec w)) spec with
      | Throws e =>
          outcome_of (run spec w) = Throws e /\
          calls (run spec w) = [] /\ writes (run spec w) = []
      | Returns (Failure err) =>
          calls (run spec w) = [] /\ writes (run spec w) = [] /\
          exists r, outcome_of (run spec w) = Returns r /\
                    error_result (errorType err) (message err) r
      | Returns (Command c) =>
          Ran spec c (fs_of (final_world (run spec w)))
            (outcome_of (run spec w)) (calls (run spec w)) (writes (run spec w))
      end
  end.
Proof.
  destruct (runValidate_shape spec w) as (out & st' & E & Hshape).
  unfold run, run_reporting. rewrite E. exact Hshape.
Qed.

(** Every call at the main site is the main command of the resolved
    command; it settles, and the run returns the result built from what
    it settled in and from whether its output could be written. *)
Lemma run_main_call spec w e :
  In e (calls (run spec w)) ->
  te_site e = MainSite ->
  exists c,
    mkdir_error spec w = None /\
    resolveRunSpec (fs_of (prepared spec w)) spec = Returns (Command c) /\
    e = main_entry spec c (te_outcome e) /\
    exists r,
      outcome_of (run spec w) = Returns r /\
      match te_outcome e with
      | Settles (Returns result) =>
          match write_error (writes (run spec w)) with
          | None =>
              Forall written (writes (run spec w)) /\
              finished_result spec c result (fs_of (final_world (run spec w))) r
          | Some msg =>
              error_result "execution_error" msg r /\
              exists wr,
                In wr (writes (run spec w)) /\
                output_log spec (wr_path wr) /\ wr_error wr = Some msg
          end
      | Settles (Throws err) => error_result "execution_error" (exception_message err) r
      | Uncaught _ => False
      end.
Proof.
  intros Hin Hsite. pose proof (run_shape spec w) as Hshape.
  destruct (mkdir_error spec w) as [msg|].
  { destruct Hshape as (_ & Hcalls & _). rewrite Hcalls in Hin. contradiction. }
  destruct (resolveRunSpec (fs_of (prepared spec w)) spec) as [[c|err]|ex].
  - exists c. split; [reflexivity|]. split; [reflexivity|].
    remember (outcome_of (run spec w)) as out eqn:Hout.
    remember (calls (run spec w)) as tr eqn:Hcalls.
    remember (writes (run spec w)) as ws eqn:Hwrites.
    destruct Hshape as [entries ws res msg r Hrun Hs Herr Hws Hr
                       |entries ws msg Hrun Hws
                       |entries ws res err r Hrun Hs Hws Hr
                       |entries ws res result r Hrun Hs Hws Hr
                       |entries ws res result wr msg r Hrun Hs Hwr Hpath Hmsg Hws Hr].
    + exfalso. exact (PreRun_no_main _ _ _ _ _ _ _ Hrun Hin Hsite).
    + exfalso. exact (PreRun_no_main _ _ _ _ _ _ _ Hrun Hin Hsite).
    + apply in_app_or in Hin as [Hin|[<-|[]]].
      * exfalso. exact (PreRun_no_main _ _ _ _ _ _ _ Hrun Hin Hsite).
      * split; [reflexivity|]. exists r. split; [reflexivity|exact Hr].
    + apply in_app_or in Hin as [Hin|[<-|[]]].
      * exfalso. exact (PreRun_no_main _ _ _ _ _ _ _ Hrun Hin Hsite).
      * split; [reflexivity|]. exists r. split; [reflexivity|].
        cbn [main_entry te_outcome]. rewrite (write_error_written _ Hws).
        split; [exact Hws|exact Hr].
    + apply in_app_or in Hin as [Hin|[<-|[]]].
      * exfalso. exact (PreRun_no_main _ _ _ _ _ _ _ Hrun Hin Hsite).
      * split; [reflexivity|]. exists r. split; [reflexivity|].
        cbn [main_entry te_outcome]. rewrite Hws.
        split; [exact Hr|]. exists wr. auto.
  - destruct Hshape as [Hcalls _]. rewrite Hcalls in Hin. contradiction.
  - destruct Hshape as (_ & Hcalls & _). rewrite Hcalls in Hin. contradiction.
Qed.

(** Every call at pre-command index [i] is call number [i] (from 0) of
    the run and runs command number [i] of the resolved list; if it does
    not come back with exit code 0 it is the last call of the run and no
    main command is started: the run ends in a [pre_command_failed]
    error carrying that step's failure text, or, when the step's log
    could not be written, it never settles. *)
Lemma run_pre_call spec w e i :
  In e (calls (run spec w)) ->
  te_site e = PreCommandSite i ->
  exists c cmds pc,
    resolveRunSpec (fs_of (prepared spec w)) spec = Returns (Command c) /\
    cmd_preCommands c = Some cmds /\
    cmds !! i = Some pc /\
    calls (run spec w) !! i = Some e /\
    e = pre_command_entry (runEnv process_env spec c) (logs_dir spec) i pc
          (te_outcome e) /\
    (exited_zero (te_outcome e) = false ->
     length (calls (run spec w)) = S i /\
     (forall e', In e' (calls (run spec w)) -> te_site e' <> MainSite) /\
     match te_outcome e with
     | Settles out =>
         exists r,
           outcome_of (run spec w) = Returns r /\
           error_result "pre_command_failed"
             (pre_command_failure (pre_command_log (logs_dir spec) i) i
                (pc_argv pc) out) r
     | Uncaught msg => outcome_of (run spec w) = Uncaught msg
     end).
Proof.
  intros Hin Hsite. pose proof (run_shape spec w) as Hshape.
  destruct (mkdir_error spec w) as [msg|].
  { destruct Hshape as (_ & Hcalls & _). rewrite Hcalls in Hin. contradiction. }
  destruct (resolveRunSpec (fs_of (prepared spec w)) spec) as [[c|err]|ex].
  2:{ destruct Hshape as [Hcalls _]. rewrite Hcalls in Hin. contradiction. }
  2:{ destruct Hshape as (_ & Hcalls & _). rewrite Hcalls in Hin. contradiction. }
  assert (Hcmds : forall pc, default [] (cmd_preCommands c) !! i = Some pc ->
                  exists cmds, cmd_preCommands c = Some cmds /\ cmds !! i = Some pc).
  { intros pc. destruct (cmd_preCommands c) as [cmds|]; simpl.
    - eauto.
    - rewrite lookup_nil. discriminate. }
  assert (Hpassed : forall entries res last,
    PreRun (runEnv process_env spec c) (logs_dir spec) 0
      (default [] (cmd_preCommands c)) entries (Returns res) ->
    pre_success res = true ->
    In e (entries ++ [last]) ->
    te_site last = MainSite ->
    exists cmds pc,
      cmd_preCommands c = Some cmds /\ cmds !! i = Some pc /\
      (entries ++ [last]) !! i = Some e /\
      e = pre_command_entry (runEnv process_env spec c) (logs_dir spec) i pc
            (te_outcome e) /\
      exited_zero (te_outcome e) = true).
  { intros entries res last Hrun Hs Hin' Hlast.
    assert (Hin'' : In e entries).
    { apply in_app_or in Hin' as [Hin'|[<-|[]]]; [assumption|congruence]. }
    destruct (PreRun_entry _ _ _ _ _ _ _ _ Hrun Hin'' Hsite)
      as (_ & Hlook & pc & Hcmd & He & _).
    rewrite Nat.sub_0_r in *.
    destruct (Hcmds pc Hcmd) as (cmds & Hsome & Hpc).
    exists cmds, pc. split; [assumption|]. split; [assumption|].
    split; [apply lookup_app_l_Some; assumption|]. split; [assumption|].
    destruct (PreRun_success _ _ _ _ _ _ Hrun Hs) as [_ Hall]. auto. }
  assert (Hstopped : forall entries res,
    PreRun (runEnv process_env spec c) (logs_dir spec) 0
      (default [] (cmd_preCommands c)) entries res ->
    In e entries ->
    exists cmds pc,
      cmd_preCommands c = Some cmds /\ cmds !! i = Some pc /\
      entries !! i = Some e /\
      e = pre_command_entry (runEnv process_env spec c) (logs_dir spec) i pc
            (te_outcome e) /\
      (forall e', In e' entries -> te_site e' <> MainSite) /\
      (exited_zero (te_outcome e) = false ->
       length entries = S i /\
       stopped_by (logs_dir spec) i pc (te_outcome e) res)).
  { intros entries res Hrun Hin'.
    destruct (PreRun_entry _ _ _ _ _ _ _ _ Hrun Hin' Hsite)
      as (_ & Hlook & pc & Hcmd & He & Hfail).
    rewrite Nat.sub_0_r in *.
    destruct (Hcmds pc Hcmd) as (cmds & Hsome & Hpc).
    exists cmds, pc. split; [assumption|]. split; [assumption|].
    split; [assumption|]. split; [assumption|]. split; [|exact Hfail].
    intros e' Hin''. exact (PreRun_no_main _ _ _ _ _ _ _ Hrun Hin''). }
  remember (outcome_of (run spec w)) as out eqn:Hout.
  remember (calls (run spec w)) as tr eqn:Hcalls.
  remember (writes (run spec w)) as ws eqn:Hwrites.
  destruct Hshape as [entries ws res msg r Hrun Hs Herr Hws Hr
                     |entries ws msg Hrun Hws
                     |entries ws res err r Hrun Hs Hws Hr
                     |entries ws res result r Hrun Hs Hws Hr
                     |entries ws res result wr msg r Hrun Hs Hwr Hpath Hmsg Hws Hr].
  - destruct (Hstopped _ _ Hrun Hin) as (cmds & pc & Hsome & Hpc & Hlook & He & Hnomain & Hfail).
    exists c, cmds, pc. split; [reflexivity|]. split; [assumption|].
    split; [assumption|]. split; [assumption|]. split; [assumption|].
    intros Hz. destruct (Hfail Hz) as (Hlen & Hstop).
    split; [exact Hlen|]. split; [exact Hnomain|].
    unfold stopped_by in Hstop. destruct (te_outcome e) as [settled|msg'].
    + injection Hstop as ->. simpl in Herr. injection Herr as <-.
      exists r. split; [reflexivity|exact Hr].
    + discriminate Hstop.
  - destruct (Hstopped _ _ Hrun Hin) as (cmds & pc & Hsome & Hpc & Hlook & He & Hnomain & Hfail).
    exists c, cmds, pc. split; [reflexivity|]. split; [assumption|].
    split; [assumption|]. split; [assumption|]. split; [assumption|].
    intros Hz. destruct (Hfail Hz) as (Hlen & Hstop).
    split; [exact Hlen|]. split; [exact Hnomain|].
    unfold stopped_by in Hstop. destruct (te_outcome e) as [settled|msg'].
    + discriminate Hstop.
    + injection Hstop as ->. reflexivity.
  - destruct (Hpassed _ _ _ Hrun Hs Hin eq_refl) as (cmds & pc & Hsome & Hpc & Hlook & He & Hz).
    exists c, cmds, pc. split; [reflexivity|]. split; [assumption|].
    split; [assumption|]. split; [assumption|]. split; [assumption|].
    intros Hz'. congruence.
  - destruct (Hpassed _ _ _ Hrun Hs Hin eq_refl) as (cmds & pc & Hsome & Hpc & Hlook & He & Hz).
    exists c, cmds, pc. split; [reflexivity|]. split; [assumption|].
    split; [assumption|]. split; [assumption|]. split; [assumption|].
    intros Hz'. congruence.
  - destruct (Hpassed _ _ _ Hrun Hs Hin eq_refl) as (cmds & pc & Hsome & Hpc & Hlook & He & Hz).
    exists c, cmds, pc. split; [reflexivity|]. split; [assumption|].
    split; [assumption|]. split; [assumption|]. split; [assumption|].
    intros Hz'. congruence.
Qed.

(** A run that returns gives an error record or the record of a
    finished main command. *)
Lemma run_returns spec w r :
  outcome_of (run spec w) = Returns r ->
  (exists category msg, error_result category msg r) \/
  (exists c result,
     finished_result spec c result (fs_of (final_world (run spec w))) r).
Proof.
  intros Hr. pose proof (run_shape spec w) as Hshape. rewrite Hr in Hshape.
  destruct (mkdir_error spec w) as [msg|].
  { destruct Hshape as (Hthrows & _). discriminate. }
  destruct (resolveRunSpec (fs_of (prepared spec w)) spec) as [[c|err]|ex].
  - remember (Settles (Returns r)) as out eqn:Hout.
    remember (calls (run spec w)) as tr eqn:Htr.
    remember (writes (run spec w)) as ws eqn:Hwrites.
    destruct Hshape as [entries ws res msg r' _ _ _ _ Hr'
                       |entries ws msg _ _
                       |entries ws res err r' _ _ _ Hr'
                       |entries ws res result r' _ _ _ Hr'
                       |entries ws res result wr msg r' _ _ _ _ _ _ Hr'];
      try discriminate Hout; injection Hout as <-; eauto.
  - destruct Hshape as (_ & _ & r' & [= <-] & Herr). eauto.
  - destruct Hshape as (Hthrows & _). discriminate.
Qed.

End ExecutorFacts.

(* ===================================================================== *)
(** * Flag injection *)
(* ===================================================================== *)

Section FlagInjection.

(** What [prepareCommandWithReporter] appends, by mode and by which
    flags the command line already mentions. *)
Lemma prepare_appends (c : ResolvedCommand) :
  prepareCommandWithReporter c =
    cmd_argv c ++
    let flags :=
      (if mentions "--reporter" (cmd_argv c) then [] else ["--reporter=list"]) ++
      (if mentions "--trace" (cmd_argv c) then [] else ["--trace=retain-on-failure"]) in
    match flags with
    | [] => []
    | _ :: _ =>
        match cmd_mode c with
        | yaml_script | cli_script =>
            (if Js.array_includes "--" (cmd_argv c) then [] else ["--"]) ++ flags
        | cli_config | yaml_config => flags
        end
    end.
Proof.
  unfold prepareCommandWithReporter, mentions.
  destruct (Js.includes "--reporter" _), (Js.includes "--trace" _); simpl;
    try (rewrite app_nil_r; reflexivity);
    destruct (cmd_mode c); try reflexivity;
    destruct (Js.array_includes "--" (cmd_argv c)); simpl;
    rewrite <- ?app_assoc; reflexivity.
Qed.

Lemma mentions_kept flag argv added :
  mentions flag argv = true -> mentions flag (argv ++ added) = true.
Proof. apply JsFacts.includes_join_app_l. Qed.

Lemma mentions_added flag argv added x :
  In x added -> Js.includes flag x = true -> mentions flag (argv ++ added) = true.
Proof.
  intros Hin Hx. apply (JsFacts.includes_join_elem flag " " x); [|exact Hx].
  apply in_or_app. right. exact Hin.
Qed.

(** After injection the command line mentions both flags. *)
Lemma prepared_mentions (c : ResolvedCommand) :
  mentions "--reporter" (prepareCommandWithReporter c) = true /\
  mentions "--trace" (prepareCommandWithReporter c) = true.
Proof.
  rewrite prepare_appends.
  destruct (mentions "--reporter" (cmd_argv c)) eqn:Hr,
           (mentions "--trace" (cmd_argv c)) eqn:Ht;
    cbn [app]; split;
    try (apply mentions_kept; assumption);
    destruct (cmd_mode c), (Js.array_includes "--" (cmd_argv c)); cbn [app];
    first
      [ apply (mentions_added _ _ _ "--reporter=list"); [simpl; tauto|reflexivity]
      | apply (mentions_added _ _ _ "--trace=retain-on-failure");
        [simpl; tauto|reflexivity] ].
Qed.

(** A command line that mentions both flags is left as it is. *)
Lemma prepare_fixed (c : ResolvedCommand) :
  mentions "--reporter" (cmd_argv c) = true ->
  mentions "--trace" (cmd_argv c) = true ->
  prepareCommandWithReporter c = cmd_argv c.
Proof.
  intros Hr Ht. rewrite prepare_appends, Hr, Ht. cbn [app].
  apply app_nil_r.
Qed.

(** C6: flag injection is presence-guarded and idempotent.  The result is
    the argv followed by added tokens; the reporter flag is among them
    exactly when the joined argv does not contain "--reporter", the trace
    flag exactly when it does not contain "--trace", nothing but these
    two flags and the separator is ever added, and injecting into an
    already injected argv changes nothing. *)
Theorem C6_flag_injection_idempotent (c : ResolvedCommand) :
  prepareCommandWithReporter (with_argv c (prepareCommandWithReporter c))
  = prepareCommandWithReporter c
  /\ exists added,
       prepareCommandWithReporter c = cmd_argv c ++ added /\
       (In "--reporter=list" added <->
        Js.includes "--reporter" (Js.join " " (cmd_argv c)) = false) /\
       (In "--trace=retain-on-failure" added <->
        Js.includes "--trace" (Js.join " " (cmd_argv c)) = false) /\
       (forall x, In x added ->
          x = "--" \/ x = "--reporter=list" \/ x = "--trace=retain-on-failure").
Proof.
  split.
  - destruct (prepared_mentions c) as [Hr Ht].
    apply (prepare_fixed (with_argv c (prepareCommandWithReporter c))); assumption.
  - eexists. split; [apply prepare_appends|].
    fold (mentions "--reporter" (cmd_argv c)).
    fold (mentions "--trace" (cmd_argv c)).
    destruct (mentions "--reporter" (cmd_argv c)),
             (mentions "--trace" (cmd_argv c));
      cbn [app];
      try destruct (cmd_mode c);
      try destruct (Js.array_includes "--" (cmd_argv c));
      cbn [app];
      (split; [|split]);
      try (split; [intros Hin; simpl in Hin|intros Heq; simpl]);
      try intros x Hin; simpl in *;
      intuition (try discriminate; try congruence; auto).
Qed.

End FlagInjection.

(* ===================================================================== *)
(** * Environment and artifacts *)
(* ===================================================================== *)

Lemma option_union_left_biased (a b : option string) :
  a ∪ b = match a with Some v => Some v | None => b end.
Proof. destruct a, b; reflexivity. Qed.

(** Later layers win: the resolved command's overlay, then [spec.env],
    then the two forced keys, then the inherited environment. *)
Lemma runEnv_lookup (inherited : Env) spec c (key : string) :
  runEnv inherited spec c !! key =
    match overlay (cmd_env c) key with
    | Some v => Some v
    | None =>
        match overlay (spec_env spec) key with
        | Some v => Some v
        | None =>
            if decide (key = "CI") then Some "true"
            else if decide (key = "PLAYWRIGHT_HTML_OPEN") then Some "never"
            else inherited !! key
        end
    end.
Proof.
  assert (Hbase :
    (<["PLAYWRIGHT_HTML_OPEN" := "never"]> (<["CI" := "true"]> inherited) : Env) !! key
    = if decide (key = "CI") then Some "true"
      else if decide (key = "PLAYWRIGHT_HTML_OPEN") then Some "never"
      else inherited !! key).
  { rewrite !lookup_insert. repeat case_decide; congruence. }
  unfold runEnv, overlay.
  destruct (cmd_env c) as [ce|], (spec_env spec) as [se|];
    rewrite ?lookup_union, ?option_union_left_biased, ?Hbase; reflexivity.
Qed.

Lemma getArtifactType_pattern filename t :
  getArtifactType filename = Some t ->
  artifact_pattern t (Js.toLowerCase filename) = true /\ t <> other.
Proof.
  unfold getArtifactType.
  set (lower := Js.toLowerCase filename).
  destruct (Js.endsWith ".png" lower || Js.endsWith ".jpg" lower
            || Js.endsWith ".jpeg" lower) eqn:Hshot.
  { intros [= <-]. split; [exact Hshot|discriminate]. }
  destruct (Js.endsWith ".zip" lower && Js.includes "trace" lower) eqn:Htrace.
  { intros [= <-]. split; [exact Htrace|discriminate]. }
  destruct (Js.endsWith ".webm" lower || Js.endsWith ".mp4" lower) eqn:Hvideo.
  { intros [= <-]. split; [exact Hvideo|discriminate]. }
  destruct (Js.endsWith ".html" lower && Js.includes "report" lower) eqn:Hhtml.
  { intros [= <-]. split; [|discriminate]. simpl.
    apply andb_true_iff in Hhtml as [-> ->]. reflexivity. }
  destruct (Js.endsWith ".json" lower && Js.includes "report" lower) eqn:Hjson.
  { intros [= <-]. split; [|discriminate]. simpl.
    apply andb_true_iff in Hjson as [-> ->]. rewrite orb_true_r. reflexivity. }
  discriminate.
Qed.

Section ArtifactFacts.
Context {P : NodePath}.

(** Scanning a directory only ever adds well-typed artifacts. *)
Lemma collectArtifactsFromDir_levels_typed levels :
  forall fs dir artifacts,
    Forall well_typed artifacts ->
    Forall well_typed (collectArtifactsFromDir_levels levels fs dir artifacts).
Proof.
  induction levels as [|deeper IH]; intros fs dir artifacts Hacc; simpl.
  - exact Hacc.
  - destruct (readdirSync fs dir) as [entries|]; [|exact Hacc].
    revert artifacts Hacc.
    induction entries as [|entry entries IHentries]; intros artifacts Hacc; simpl.
    + exact Hacc.
    + apply IHentries.
      destruct (statSync fs (join dir entry)) as [[|size|]|]; try exact Hacc.
      * apply IH. exact Hacc.
      * destruct (getArtifactType entry) as [t|] eqn:Htype; [|exact Hacc].
        apply Forall_app. split; [exact Hacc|].
        constructor; [exact Htype|constructor].
Qed.

Lemma collectArtifacts_typed fs projectRoot outputDir :
  Forall well_typed (collectArtifacts fs projectRoot outputDir).
Proof.
  unfold collectArtifacts.
  assert (Hstep : forall dirs acc,
    Forall well_typed acc ->
    Forall well_typed
      (fold_left
         (fun artifacts dir =>
            if negb (existsSync fs dir) then artifacts
            else collectArtifactsFromDir fs dir artifacts 0)
         dirs acc)).
  { induction dirs as [|dir dirs IHdirs]; intros acc Hacc; simpl; [exact Hacc|].
    apply IHdirs. destruct (negb (existsSync fs dir)); [exact Hacc|].
    apply collectArtifactsFromDir_levels_typed. exact Hacc. }
  apply Hstep. constructor.
Qed.

End ArtifactFacts.

(* ===================================================================== *)
(** * Claims about runs *)
(* ===================================================================== *)

Section ExecutorClaims.
Context {P : NodePath} {World : Type} {H : Host World}.

(** C2 (amended): whenever the main command of a run completes with a
    command result and its output is then written to [stdout.log] and
    [stderr.log] without error, the run returns a [RunResult] whose
    status is [timeout] if the deadline timer fired, otherwise [error] if
    there is no exit code (and then the exit code reported is -1),
    otherwise [passed] if the exit code is 0 and [failed] for any other
    code; so the status is [passed] exactly when the exit code is 0 and
    no timeout occurred. *)
Theorem C2_status_derivation spec (w : World) e result :
  In e (calls (run spec w)) ->
  te_site e = MainSite ->
  te_outcome e = Returns result ->
  (forall wr, In wr (writes (run spec w)) ->
              output_log spec (wr_path wr) -> wr_error wr = None) ->
  exists r,
    outcome_of (run spec w) = Returns r /\
    res_status r =
      (if timedOut result then timeout
       else match exitCode result with
            | None => error
            | Some 0 => passed
            | Some _ => failed
            end) /\
    (exitCode result = None -> res_exitCode r = -1) /\
    (forall code, exitCode result = Some code -> res_exitCode r = code) /\
    (res_status r = passed <->
     exitCode result = Some 0 /\ timedOut result = false).
Proof.
  intros Hin Hsite Hout Hlogs.
  destruct (run_main_call spec w e Hin Hsite) as (c & _ & _ & _ & r & Hr & Hshape).
  rewrite Hout in Hshape.
  destruct (write_error (writes (run spec w))) as [msg|].
  { destruct Hshape as (_ & wr & Hwr & Hpath & Hmsg).
    rewrite (Hlogs wr Hwr Hpath) in Hmsg. discriminate Hmsg. }
  destruct Hshape as (_ & Hstatus & Hcode & _).
  exists r. split; [exact Hr|].
  rewrite Hstatus, Hcode. unfold determineStatus.
  destruct (timedOut result), (exitCode result) as [[|p|p]|]; simpl;
    repeat split; try discriminate; try congruence;
    try (intros [? ?]; discriminate).
Qed.

(** The summary of a failed pre-command: when the step at loop index
    [i] (list position [i + 1]) settles without exit code 0, the run
    returns status [error] with a [pre_command_failed] summary that names
    the step by the loop index [i], the index in its log file name
    [pre_command_<i>.log]. *)
Lemma pre_command_failure_summary spec (w : World) e i out :
  In e (calls (run spec w)) ->
  te_site e = PreCommandSite i ->
  te_outcome e = Settles out ->
  exited_zero (te_outcome e) = false ->
  exists c cmds pc logPath r,
    resolveRunSpec (fs_of (prepared spec w)) spec = Returns (Command c) /\
    cmd_preCommands c = Some cmds /\
    cmds !! i = Some pc /\
    te_argv e = pc_argv pc /\
    opt_logPath (te_options e) = Some logPath /\
    logPath = join (logs_dir spec) ("pre_command_" +:+ Js.show_nat i +:+ ".log") /\
    outcome_of (run spec w) = Returns r /\
    res_status r = error /\
    res_error r = Some
      ("[pre_command_failed] " +:+
       match out with
       | Returns result =>
           "Pre-command " +:+ Js.show_nat i +:+
           " failed with exit code " +:+ Js.show_exit (exitCode result) +:+
           ": " +:+ Js.join " " (pc_argv pc) +:+ Js.LF +:+
           "See log: " +:+ logPath
       | Throws err =>
           "Pre-command " +:+ Js.show_nat i +:+ " error: " +:+
           exception_message err
       end).
Proof.
  intros Hin Hsite Hout Hfail.
  destruct (run_pre_call spec w e i Hin Hsite)
    as (c & cmds & pc & Hres & Hcmds & Hpc & _ & He & Haborts).
  destruct (Haborts Hfail) as (_ & _ & Hends). rewrite Hout in Hends.
  destruct Hends as (r & Hr & Hstatus & _ & _ & _ & _ & _ & Herr).
  assert (Hargv : te_argv e = pc_argv pc) by (rewrite He; reflexivity).
  assert (Hlog : opt_logPath (te_options e)
                 = Some (pre_command_log (logs_dir spec) i))
    by (rewrite He; reflexivity).
  exists c, cmds, pc, (pre_command_log (logs_dir spec) i), r.
  split; [exact Hres|]. split; [exact Hcmds|]. split; [exact Hpc|].
  split; [exact Hargv|]. split; [exact Hlog|]. split; [reflexivity|].
  split; [exact Hr|]. split; [exact Hstatus|].
  rewrite Herr. unfold pre_command_failure.
  destruct out; reflexivity.
Qed.

(** C8: the environment the main command runs in is layered, later
    layers winning: a key has the value of the resolved command's
    overlay if it is there, else of [spec.env] if it is there, else the
    forced value if it is [CI] or [PLAYWRIGHT_HTML_OPEN], else the value
    inherited from the process environment. *)
Theorem C8_environment_layering spec (w : World) e (key : string) :
  In e (calls (run spec w)) ->
  te_site e = MainSite ->
  exists c,
    resolveRunSpec (fs_of (prepared spec w)) spec = Returns (Command c) /\
    opt_env (te_options e) !! key =
      match overlay (cmd_env c) key with
      | Some v => Some v
      | None =>
          match overlay (spec_env spec) key with
          | Some v => Some v
          | None =>
              if decide (key = "CI") then Some "true"
              else if decide (key = "PLAYWRIGHT_HTML_OPEN") then Some "never"
              else process_env !! key
          end
      end.
Proof.
  intros Hin Hsite.
  destruct (run_main_call spec w e Hin Hsite) as (c & _ & Hres & He & _).
  exists c. split; [exact Hres|].
  rewrite He. cbn [main_entry te_options opt_env].
  apply runEnv_lookup.
Qed.

(** C10: every artifact of a returned [RunResult] has one of the types
    screenshot, trace, video and report, never [other]: its type is the
    one [getArtifactType] gives its file name, whose lower-cased form
    matches that type's pattern; a file that matches no pattern is not
    listed. *)
Theorem C10_no_other_artifacts spec (w : World) r a :
  outcome_of (run spec w) = Returns r ->
  In a (res_artifacts r) ->
  art_type a <> other /\
  getArtifactType (art_name a) = Some (art_type a) /\
  artifact_pattern (art_type a) (Js.toLowerCase (art_name a)) = true.
Proof.
  intros Hr Hin.
  assert (Htyped : Forall well_typed (res_artifacts r)).
  { destruct (run_returns spec w r Hr) as [(category & msg & Herr)|(c & result & Hfin)].
    - destruct Herr as (_ & _ & _ & _ & -> & _). constructor.
    - destruct Hfin as (_ & _ & _ & _ & _ & _ & _ & ->).
      apply collectArtifacts_typed. }
  rewrite Forall_forall in Htyped.
  assert (Ha : well_typed a) by (apply Htyped, list_elem_of_In; exact Hin).
  destruct (getArtifactType_pattern _ _ Ha) as [Hpat Hother].
  repeat split; assumption.
Qed.

End ExecutorClaims.

(* ===================================================================== *)
(** * The claims on concrete projects *)
(* ===================================================================== *)

(** C1, as stated, fails: with an existing project root, [spec.script]
    set, and a persisted [kitwe.yaml] that the schema rejects, resolution
    throws the configuration loader's error instead of returning the
    caller-script command. *)
Lemma C1_counterexample_rejected_yaml :
  existsSync Sample.fs_rejected_yaml (spec_projectRoot Sample.script_spec) = true /\
  spec_script Sample.script_spec = Some "test:e2e" /\
  resolveRunSpec (P := posix) Sample.fs_rejected_yaml Sample.script_spec
  = Throws (ConfigValidationError "/proj/kitwe.yaml"
              ["version: Number must be less than or equal to 1"]) /\
  ~ (exists c,
       resolveRunSpec (P := posix) Sample.fs_rejected_yaml Sample.script_spec
       = Returns (Command c) /\ cmd_mode c = cli_script).
Proof.
  split; [reflexivity|]. split; [reflexivity|]. split; [reflexivity|].
  intros (c & Hc & _). vm_compute in Hc. discriminate Hc.
Qed.

(** [C1_priority_order] on a project whose [kitwe.yaml] names a persisted
    config path while the caller gives a script: the script tier wins. *)
Lemma C1_priority_order_witness :
  existsSync Sample.fs_config_path (spec_projectRoot Sample.script_spec) = true /\
  loadRunConfig (P := posix) Sample.fs_config_path (spec_projectRoot Sample.script_spec)
  = Returns (kc_run (convertToTypescript
                       (Sample.config_of None Sample.config_path_run))) /\
  exists r,
    resolveRunSpec (P := posix) Sample.fs_config_path Sample.script_spec = Returns r /\
    answers Sample.script_spec
      (kc_run (convertToTypescript (Sample.config_of None Sample.config_path_run)))
      (spec_tier Sample.script_spec
         (kc_run (convertToTypescript (Sample.config_of None Sample.config_path_run))))
      r.
Proof.
  split; [reflexivity|]. split; [reflexivity|].
  apply (C1_priority_order (P := posix) Sample.fs_config_path Sample.script_spec);
    reflexivity.
Defined.

(** [C4_npm_script_scenarios] on a project root with no lock files, for
    the spec with [args: ["--headed"]]. *)
Lemma C4_npm_script_scenarios_witness :
  existsSync Sample.fs_plain (spec_projectRoot Sample.headed_spec) = true /\
  loadRunConfig (P := posix) Sample.fs_plain (spec_projectRoot Sample.headed_spec)
  = Returns None /\
  spec_script Sample.headed_spec = Some "test:e2e" /\
  exists c,
    resolveRunSpec (P := posix) Sample.fs_plain Sample.headed_spec
    = Returns (Command c) /\
    cmd_mode c = cli_script /\
    cmd_argv c = ["npm"; "run"; "test:e2e"; "--"; "--headed"] /\
    In "--" (cmd_argv c).
Proof.
  split; [reflexivity|]. split; [reflexivity|]. split; [reflexivity|].
  destruct (C4_npm_script_scenarios (P := posix) Sample.fs_plain Sample.headed_spec
              None eq_refl eq_refl eq_refl)
    as (c & Hres & Hmode & Hnpm & Hsep).
  exists c. split; [exact Hres|]. split; [exact Hmode|].
  split.
  - apply Hnpm; reflexivity.
  - apply Hsep; reflexivity.
Defined.

(** C4, as stated, fails: the spec has script ["test:e2e"] and no
    runner override and the project root holds no lock file, but its
    [kitwe.yaml] is rejected by the schema, so resolution throws the
    loader's error and returns no argv at all. *)
Lemma C4_counterexample_rejected_yaml :
  spec_script Sample.script_spec = Some "test:e2e" /\
  spec_runner Sample.script_spec = None /\
  spec_args Sample.script_spec = None /\
  existsSync Sample.fs_rejected_yaml (spec_projectRoot Sample.script_spec) = true /\
  existsSync Sample.fs_rejected_yaml
    (resolve (NodePath := posix) (spec_projectRoot Sample.script_spec) "pnpm-lock.yaml")
  = false /\
  existsSync Sample.fs_rejected_yaml
    (resolve (NodePath := posix) (spec_projectRoot Sample.script_spec) "yarn.lock")
  = false /\
  detectPackageManager (P := posix) Sample.fs_rejected_yaml
    (spec_projectRoot Sample.script_spec) = npm /\
  ~ (exists c,
       resolveRunSpec (P := posix) Sample.fs_rejected_yaml Sample.script_spec
       = Returns (Command c) /\
       cmd_argv c = ["npm"; "run"; "test:e2e"] /\ cmd_mode c = cli_script).
Proof.
  split; [reflexivity|]. split; [reflexivity|]. split; [reflexivity|].
  split; [reflexivity|]. split; [reflexivity|]. split; [reflexivity|].
  split; [reflexivity|].
  intros (c & Hc & _). vm_compute in Hc. discriminate Hc.
Qed.

(** [C9_skip_setup_asymmetry] on a project with one setup command, one run
    command and [run.skip_setup: true]. *)
Lemma C9_skip_setup_asymmetry_witness :
  existsSync Sample.fs_skip_setup
    (getConfigPath (P := posix) (spec_projectRoot Sample.base_spec)) = true /\
  readYaml Sample.fs_skip_setup
    (getConfigPath (P := posix) (spec_projectRoot Sample.base_spec))
  = Validated
      (Sample.config_of (Some [Sample.command ["npm"; "run"; "db:reset"]])
         (Sample.run_with true (Some [Sample.command ["npm"; "run"; "migrate"]]))) /\
  resolveRunSpec (P := posix) Sample.fs_skip_setup Sample.base_spec
  = Returns (Command Sample.skip_setup_command) /\
  cmd_preCommands Sample.skip_setup_command
  = Some [ {| pc_argv := ["npm"; "run"; "migrate"]; pc_env := None;
              pc_cwd := Some "/proj" |} ].
Proof.
  split; [reflexivity|]. split; [reflexivity|]. split; [reflexivity|].
  destruct (C9_skip_setup_asymmetry (P := posix) Sample.fs_skip_setup Sample.base_spec
              (Sample.config_of (Some [Sample.command ["npm"; "run"; "db:reset"]])
                 (Sample.run_with true (Some [Sample.command ["npm"; "run"; "migrate"]])))
              Sample.skip_setup_command eq_refl eq_refl eq_refl)
    as (_ & Hpersisted & _).
  rewrite Hpersisted; [reflexivity|discriminate|reflexivity].
Defined.

(** C2, as stated, fails: the main command completes with exit code 0
    and no timeout, but the disk takes no new file, so writing
    [stdout.log] throws and the run is reported with status [error] and
    exit code -1, not [passed]. *)
Lemma C2_counterexample_output_not_written :
  map te_outcome (calls Sample.unwritable_run)
  = [Settles (Returns {| exitCode := Some 0; stdout := ""; stderr := "";
                         timedOut := false; durationMs := 0 |})] /\
  map te_site (calls Sample.unwritable_run) = [MainSite] /\
  (exists r,
     outcome_of Sample.unwritable_run = Returns r /\
     res_status r = error /\ res_exitCode r = -1) /\
  ~ (exists r,
       outcome_of Sample.unwritable_run = Returns r /\ res_status r = passed).
Proof.
  split; [reflexivity|]. split; [reflexivity|]. split.
  - eexists. split; [reflexivity|]. split; reflexivity.
  - intros (r & Hr & Hstatus). vm_compute in Hr. injection Hr as <-.
    discriminate Hstatus.
Qed.

(** [C2_status_derivation] on a run whose main command exits with 7 and
    whose two output logs are written. *)
Lemma C2_status_derivation_witness :
  In (main_entry (H := Sample.scripted Sample.fs_plain) Sample.script_spec
        (resolveFromScript (P := posix) Sample.fs_plain Sample.script_spec)
        (Returns (Sample.exited 7)))
     (calls Sample.failed_run) /\
  map wr_error (writes Sample.failed_run) = [None; None] /\
  exists r,
    outcome_of Sample.failed_run = Returns r /\
    res_status r = failed /\
    res_exitCode r = 7.
Proof.
  assert (Hin :
    In (main_entry (H := Sample.scripted Sample.fs_plain) Sample.script_spec
          (resolveFromScript (P := posix) Sample.fs_plain Sample.script_spec)
          (Returns (Sample.exited 7)))
       (calls Sample.failed_run)).
  { vm_compute. left. reflexivity. }
  assert (Hlogs : forall wr, In wr (writes Sample.failed_run) ->
            output_log (P := posix) Sample.script_spec (wr_path wr) ->
            wr_error wr = None).
  { intros wr [<-|[<-|[]]] _; reflexivity. }
  split; [exact Hin|]. split; [reflexivity|].
  destruct (C2_status_derivation (P := posix) (H := Sample.scripted Sample.fs_plain)
              Sample.script_spec [Sample.exits 7] _ (Sample.exited 7)
              Hin eq_refl eq_refl Hlogs)
    as (r & Hr & Hstatus & _ & Hcode & _).
  exists r. split; [exact Hr|]. split; [exact Hstatus|].
  apply Hcode. reflexivity.
Defined.

(** C3: the code does not abort on every timed-out pre-command.  Of three
    pre-commands the second is still running at its deadline, is
    signalled, and ends with exit code 0 (so its result has
    [timedOut = true]): the third pre-command and the main command are
    started all the same and the run is reported as passed, where the
    claim requires the run to stop with a [pre_command_failed] error. *)
Theorem C3_overrun_pre_command_not_aborted :
  map te_site (calls Sample.overrun_run)
  = [PreCommandSite 0; PreCommandSite 1; PreCommandSite 2; MainSite] /\
  map te_outcome (calls Sample.overrun_run) !! 1%nat
  = Some (Settles (Returns {| exitCode := Some 0; stdout := ""; stderr := "";
                              timedOut := true; durationMs := 0 |})) /\
  outcome_of Sample.overrun_run = Returns (Sample.passed_result []).
Proof. vm_compute. repeat split. Qed.

(** C7: the summary numbers the failing step from 0.  Of three
    pre-commands the second exits with 7.  The progress notification of
    the loop announces this step as [2/3], while the error summary the
    same loop builds for it says "Pre-command 1", the loop index, where
    the claim requires the 1-indexed number 2; the digit 2 occurs nowhere
    in the summary. *)
Theorem C7_step_numbered_from_zero :
  map te_argv (calls Sample.seed_failed_reported_run)
  = [["npm"; "run"; "db:reset"]; ["npm"; "run"; "db:seed"]] /\
  last (snd (final_world Sample.seed_failed_reported_run))
  = Some ("pre_command", "[2/3] npm run db:seed") /\
  outcome_of Sample.seed_failed_run = outcome_of Sample.seed_failed_reported_run /\
  exists r msg,
    outcome_of Sample.seed_failed_reported_run = Returns r /\
    res_status r = error /\
    res_error r = Some msg /\
    msg = "[pre_command_failed] Pre-command 1 failed with exit code 7: npm run db:seed"
          +:+ Js.LF +:+ "See log: /proj/artifacts/logs/pre_command_1.log" /\
    Js.includes "2" msg = false.
Proof.
  split; [reflexivity|]. split; [reflexivity|]. split; [reflexivity|].
  eexists _, _. split; [reflexivity|]. split; [reflexivity|].
  split; [reflexivity|]. split; reflexivity.
Qed.

(** [C8_environment_layering] for the key [CI] of a run without overlays. *)
Lemma C8_environment_layering_witness :
  In (main_entry (H := Sample.scripted Sample.fs_plain) Sample.script_spec
        (resolveFromScript (P := posix) Sample.fs_plain Sample.script_spec)
        (Returns (Sample.exited 7)))
     (calls Sample.failed_run) /\
  runEnv ∅ Sample.script_spec
    (resolveFromScript (P := posix) Sample.fs_plain Sample.script_spec) !! "CI"
  = Some "true".
Proof.
  assert (Hin :
    In (main_entry (H := Sample.scripted Sample.fs_plain) Sample.script_spec
          (resolveFromScript (P := posix) Sample.fs_plain Sample.script_spec)
          (Returns (Sample.exited 7)))
       (calls Sample.failed_run)).
  { vm_compute. left. reflexivity. }
  split; [exact Hin|].
  destruct (C8_environment_layering (P := posix) (H := Sample.scripted Sample.fs_plain)
              Sample.script_spec [Sample.exits 7] _ "CI" Hin eq_refl)
    as (c & Hres & Henv).
  injection Hres as <-. exact Henv.
Defined.

(** [C10_no_other_artifacts] on a run over a results directory holding a
    screenshot, a text file and a trace: the text file is not listed. *)
Lemma C10_no_other_artifacts_witness :
  outcome_of Sample.results_run
  = Returns (Sample.passed_result [Sample.screenshot_file; Sample.trace_file]) /\
  In Sample.screenshot_file
    (res_artifacts (Sample.passed_result [Sample.screenshot_file; Sample.trace_file])) /\
  art_type Sample.screenshot_file <> other /\
  getArtifactType (art_name Sample.screenshot_file)
  = Some (art_type Sample.screenshot_file) /\
  artifact_pattern (art_type Sample.screenshot_file)
    (Js.toLowerCase (art_name Sample.screenshot_file)) = true.
Proof.
  split; [reflexivity|]. split; [left; reflexivity|].
  apply (C10_no_other_artifacts (P := posix) (H := Sample.scripted Sample.fs_results)
           Sample.script_spec [Sample.exits 0]
           (Sample.passed_result [Sample.screenshot_file; Sample.trace_file])).
  - reflexivity.
  - left. reflexivity.
Defined.

(* ===================================================================== *)
(** * Further properties of the resolver *)
(* ===================================================================== *)

Section ResolverMore.
Context {P : NodePath}.

Lemma loadRunConfig_throws_iff fs root :
  (exists e, loadRunConfig fs root = Throws e) <->
  existsSync fs (getConfigPath root) = true /\
  forall raw, readYaml fs (getConfigPath root) <> Validated raw.
Proof.
  unfold loadRunConfig, loadProjectConfig.
  destruct (existsSync fs (getConfigPath root)); simpl.
  - destruct (readYaml fs (getConfigPath root)) eqn:Hyaml; simpl;
      (split; [intros _; split; [reflexivity|intros raw'; discriminate]
              |intros _; eexists; reflexivity])
      || (split; [intros [e He]; discriminate He
                 |intros [_ Hno]; exfalso; exact (Hno _ eq_refl)]).
  - split; [intros [e He]; discriminate He|intros [Hf _]; discriminate Hf].
Qed.

Lemma loadRunConfig_exception fs root e :
  loadRunConfig fs root = Throws e ->
  (exists reason, e = ConfigLoadError (getConfigPath root) reason) \/
  (exists issues, e = ConfigValidationError (getConfigPath root) issues).
Proof.
  unfold loadRunConfig, loadProjectConfig.
  destruct (existsSync fs (getConfigPath root)); simpl; [|discriminate].
  destruct (readYaml fs (getConfigPath root)); simpl; intros [= <-]; eauto.
Qed.

(** X1: resolution throws exactly when the project root exists and
    [kitwe.yaml] exists but cannot be read, parsed or validated; what it
    throws is then the loader's [ConfigLoadError] or
    [ConfigValidationError] for that file.  In particular a missing
    project root never throws, whatever state [kitwe.yaml] is in. *)
Theorem X1_resolution_throws_iff fs spec :
  ((exists e, resolveRunSpec fs spec = Throws e) <->
   existsSync fs (spec_projectRoot spec) = true /\
   existsSync fs (getConfigPath (spec_projectRoot spec)) = true /\
   forall raw, readYaml fs (getConfigPath (spec_projectRoot spec)) <> Validated raw)
  /\
  (forall e, resolveRunSpec fs spec = Throws e ->
     (exists reason,
        e = ConfigLoadError (getConfigPath (spec_projectRoot spec)) reason) \/
     (exists issues,
        e = ConfigValidationError (getConfigPath (spec_projectRoot spec)) issues)).
Proof.
  assert (Hcases :
    forall e, resolveRunSpec fs spec = Throws e <->
              existsSync fs (spec_projectRoot spec) = true /\
              loadRunConfig fs (spec_projectRoot spec) = Throws e).
  { intros e. unfold resolveRunSpec.
    destruct (existsSync fs (spec_projectRoot spec)); simpl.
    - destruct (loadRunConfig fs (spec_projectRoot spec)) as [persisted|e'].
      + split; [|intros [_ Hx]; discriminate Hx].
        destruct (Js.truthy (spec_script spec)); [discriminate|].
        destruct (Js.truthy (spec_configPath spec)); [discriminate|].
        destruct (match persisted with
                  | Some rc => resolveFromRunConfig fs rc spec
                  | None => None
                  end); discriminate.
      + split; [intros [= <-]; split; reflexivity|intros [_ [= <-]]; reflexivity].
    - split; [discriminate|intros [Hx _]; discriminate Hx]. }
  split.
  - rewrite <- loadRunConfig_throws_iff. split.
    + intros [e He]. apply Hcases in He as [Hroot Hload]. eauto.
    + intros [Hroot [e Hload]]. exists e. apply Hcases. auto.
  - intros e He. apply Hcases in He as [_ Hload].
    exact (loadRunConfig_exception _ _ _ Hload).
Qed.

(** X2: every resolved command runs in the project root, has at least
    three tokens, begins [<runner> run <script>] in the script modes and
    [npx playwright test --config=<path>] in the config modes, ends with
    the caller's extra arguments in their order, and carries either no
    pre-command list or a non-empty one whose commands all have a working
    directory. *)
Theorem X2_resolved_command_shape fs spec c :
  resolveRunSpec fs spec = Returns (Command c) ->
  cmd_cwd c = spec_projectRoot spec /\
  (3 <= length (cmd_argv c))%nat /\
  (exists front, cmd_argv c = front ++ default [] (spec_args spec)) /\
  match cmd_mode c with
  | cli_script | yaml_script =>
      exists r script rest, cmd_argv c = runner_name r :: "run" :: script :: rest
  | cli_config | yaml_config =>
      exists path rest,
        cmd_argv c = "npx" :: "playwright" :: "test" :: ("--config=" +:+ path) :: rest
  end /\
  cmd_preCommands c <> Some [] /\
  (forall cmds pc, cmd_preCommands c = Some cmds -> In pc cmds -> is_Some (pc_cwd pc)).
Proof.
  intros Hres.
  assert (Hpre : cmd_preCommands c <> Some [] /\
                 forall cmds pc, cmd_preCommands c = Some cmds -> In pc cmds ->
                                 is_Some (pc_cwd pc)).
  { rewrite (resolved_preCommands _ _ _ Hres), extractPreCommands_spec.
    destruct (default false (spec_skipSetup spec)); [split; discriminate|].
    unfold located.
    destruct (getRunPreCommands fs (spec_projectRoot spec)) as [|pc0 rest]; simpl;
      [split; discriminate|].
    split; [discriminate|].
    intros cmds pc [= <-] Hin.
    change (In pc (map (fun pc => {| pc_argv := pc_argv pc;
                                     pc_env := pc_env pc;
                                     pc_cwd := Some (resolveCwd (pc_cwd pc)
                                                       (spec_projectRoot spec)) |})
                       (pc0 :: rest))) in Hin.
    apply in_map_iff in Hin as (pc' & <- & _). simpl. eauto. }
  assert (Hscript : forall r script extra (tail : list string),
    (exists front, script_argv r script (extra ++ tail) = front ++ tail) /\
    (3 <= length (script_argv r script (extra ++ tail)))%nat /\
    exists rest, script_argv r script (extra ++ tail)
                 = runner_name r :: "run" :: script :: rest).
  { intros r script extra tail. unfold script_argv.
    destruct (extra ++ tail) as [|x xs] eqn:Happ.
    - apply app_eq_nil in Happ as [-> ->]. simpl.
      split; [eexists; symmetry; apply app_nil_r|]. split; [lia|]. eauto.
    - rewrite <- Happ. split.
      + eexists ([runner_name r; "run"; script]
                 ++ (match r with npm => ["--"] | _ => [] end) ++ extra).
        rewrite <- !app_assoc. reflexivity.
      + split; [simpl; lia|]. simpl. eauto. }
  revert Hres. unfold resolveRunSpec.
  destruct (existsSync fs (spec_projectRoot spec)); simpl; [|discriminate].
  destruct (loadRunConfig fs (spec_projectRoot spec)) as [persisted|]; [|discriminate].
  destruct (Js.truthy (spec_script spec)).
  { intros [= <-]. simpl. unfold present_args.
    destruct (Hscript (match spec_runner spec with
                       | Some r => r
                       | None => detectPackageManager fs (spec_projectRoot spec)
                       end)
                (Js.assert_defined (spec_script spec)) [] (default [] (spec_args spec)))
      as (Hfront & Hlen & rest & Hrest).
    simpl in Hfront, Hlen, Hrest.
    split; [reflexivity|]. split; [exact Hlen|]. split; [exact Hfront|].
    split; [eauto|exact Hpre]. }
  destruct (Js.truthy (spec_configPath spec)).
  { unfold resolveFromConfig.
    destruct (existsSync fs (resolve _ _)); simpl; [|discriminate].
    intros [= <-]. simpl. unfold present_args.
    split; [reflexivity|]. split; [lia|].
    split; [eexists [_; _; _; _]; reflexivity|].
    split; [eauto|exact Hpre]. }
  destruct persisted as [rc|]; [|discriminate].
  unfold resolveFromRunConfig.
  destruct (Js.truthy (rc_script rc)); simpl.
  { intros [= <-]. simpl. unfold present_args.
    destruct (Hscript (match rc_runner rc with
                       | Some r => r
                       | None => detectPackageManager fs (spec_projectRoot spec)
                       end)
                (Js.assert_defined (rc_script rc))
                (default [] (rc_args rc)) (default [] (spec_args spec)))
      as (Hfront & Hlen & rest & Hrest).
    split; [reflexivity|]. split; [exact Hlen|]. split; [exact Hfront|].
    split; [eauto|exact Hpre]. }
  destruct (Js.truthy (rc_configPath rc)); simpl; [|discriminate].
  destruct (existsSync fs (resolve _ _)); simpl; [|discriminate].
  intros [= <-]. simpl. unfold present_args.
  split; [reflexivity|]. split; [lia|].
  split; [eexists ([_; _; _; _] ++ default [] (rc_args rc));
          rewrite <- app_assoc; reflexivity|].
  split; [eauto|exact Hpre].
Qed.

(** X3: for a project root that exists and a [kitwe.yaml] that loads, a
    resolution ends in [config_not_found] exactly when the Playwright
    config path in effect (the caller's, else the persisted one when no
    script is set at either level) does not exist under the project
    root. *)
Theorem X3_config_not_found_iff fs spec persisted r :
  existsSync fs (spec_projectRoot spec) = true ->
  loadRunConfig fs (spec_projectRoot spec) = Returns persisted ->
  resolveRunSpec fs spec = Returns r ->
  (fails_with "config_not_found" r <->
   exists path,
     config_path_in_effect spec persisted = Some path /\
     existsSync fs (resolve (spec_projectRoot spec) path) = false).
Proof.
  intros Hroot Hload. unfold resolveRunSpec, config_path_in_effect.
  rewrite Hroot, Hload. simpl.
  assert (Hno : forall (other : ResolveResult),
    ~ fails_with "config_not_found" other ->
    (fails_with "config_not_found" other <->
     exists path : string,
       @None string = Some path /\
       existsSync fs (resolve (spec_projectRoot spec) path) = false)).
  { intros other Hother. split; [contradiction|].
    intros (path & Hpath & _). discriminate Hpath. }
  assert (Hcommand : forall c0, ~ fails_with "config_not_found" (Command c0)).
  { intros c0 (e & He & _). discriminate He. }
  assert (Hentry : ~ fails_with "config_not_found"
                     (Failure {| errorType := "no_entrypoint";
                                 message := no_entrypoint_message |})).
  { intros (e & [= <-] & Htype). discriminate Htype. }
  assert (Hpersisted :
    match
      match persisted with
      | Some rc => resolveFromRunConfig fs rc spec
      | None => None
      end
    with
    | Some result => Returns result
    | None => Returns (Failure {| errorType := "no_entrypoint";
                                  message := no_entrypoint_message |})
    end = Returns r ->
    fails_with "config_not_found" r <->
    exists path,
      match persisted with
      | Some rc =>
          if Js.truthy (rc_script rc) then None
          else if Js.truthy (rc_configPath rc) then rc_configPath rc else None
      | None => None
      end = Some path /\
      existsSync fs (resolve (spec_projectRoot spec) path) = false).
  { destruct persisted as [rc|]; [|intros [= <-]; apply Hno, Hentry].
    unfold resolveFromRunConfig.
    destruct (Js.truthy (rc_script rc)); simpl.
    { intros [= <-]. apply Hno, Hcommand. }
    destruct (rc_configPath rc) as [[|ch path]|] eqn:Hpath; simpl.
    - intros [= <-]. apply Hno, Hentry.
    - destruct (existsSync fs (resolve (spec_projectRoot spec) (String ch path)))
        eqn:Hex; simpl; intros [= <-]; split.
      + intros Hf. exfalso. exact (Hcommand _ Hf).
      + intros (path' & [= <-] & Hmissing). congruence.
      + intros _. eauto.
      + intros _. eexists. split; reflexivity.
    - intros [= <-]. apply Hno, Hentry. }
  destruct (Js.truthy (spec_script spec)).
  { intros [= <-]. apply Hno, Hcommand. }
  destruct (spec_configPath spec) as [[|ch path]|] eqn:Hcaller; cbn [Js.truthy].
  - exact Hpersisted.
  - unfold resolveFromConfig. rewrite Hcaller. simpl.
    destruct (existsSync fs (resolve (spec_projectRoot spec) (String ch path)))
      eqn:Hex; simpl; intros [= <-]; split.
    + intros Hf. exfalso. exact (Hcommand _ Hf).
    + intros (path' & [= <-] & Hmissing). congruence.
    + intros _. eauto.
    + intros _. eexists. split; reflexivity.
  - exact Hpersisted.
Qed.

(** X4: when a caller field is set and [kitwe.yaml] passes the schema,
    nothing of the persisted run section but its pre-commands and its
    [skip_setup] flag can change the resolution: replacing the run
    section by another that passes the schema and has the same
    [pre_commands] and [skip_setup] (any script, config path, runner,
    args, env, timeout, directories) gives the same result.  (A file the
    schema rejects makes resolution throw, whatever the caller fields
    are.) *)
Theorem X4_caller_tiers_ignore_persisted_entry fs spec raw (r' : RawRun) :
  Js.truthy (spec_script spec) || Js.truthy (spec_configPath spec) = true ->
  run_pre_commands r' = run_pre_commands (raw_run raw) ->
  run_skip_setup r' = run_skip_setup (raw_run raw) ->
  resolveRunSpec
    (persist fs (getConfigPath (spec_projectRoot spec)) (with_run raw r')) spec
  = resolveRunSpec (persist fs (getConfigPath (spec_projectRoot spec)) raw) spec.
Proof.
  intros Hcaller Hcmds Hskip.
  set (path := getConfigPath (spec_projectRoot spec)).
  assert (Hpre :
    getRunPreCommands (persist fs path (with_run raw r')) (spec_projectRoot spec)
    = getRunPreCommands (persist fs path raw) (spec_projectRoot spec)).
  { unfold getRunPreCommands. fold path. simpl.
    rewrite String.eqb_refl. cbn [negb with_run raw_run raw_setup].
    rewrite Hcmds, Hskip. reflexivity. }
  assert (Hextract :
    extractPreCommands (persist fs path (with_run raw r')) spec
    = extractPreCommands (persist fs path raw) spec).
  { rewrite !extractPreCommands_spec, Hpre. reflexivity. }
  assert (Hload : forall raw0,
    loadRunConfig (persist fs path raw0) (spec_projectRoot spec)
    = Returns (kc_run (convertToTypescript raw0))).
  { intros raw0. unfold loadRunConfig, loadProjectConfig. fold path. simpl.
    rewrite String.eqb_refl. reflexivity. }
  unfold resolveRunSpec. rewrite !Hload.
  change (existsSync (persist fs path (with_run raw r')) (spec_projectRoot spec))
    with (existsSync (persist fs path raw) (spec_projectRoot spec)).
  destruct (existsSync (persist fs path raw) (spec_projectRoot spec)); [|reflexivity].
  cbn [negb].
  destruct (Js.truthy (spec_script spec)).
  { unfold resolveFromScript. rewrite Hextract. reflexivity. }
  destruct (Js.truthy (spec_configPath spec)); [|discriminate Hcaller].
  unfold resolveFromConfig. rewrite Hextract. reflexivity.
Qed.

End ResolverMore.

(* ===================================================================== *)
(** * Environment variable references *)
(* ===================================================================== *)

Module EnvRefFacts.
Import EnvRef.

Lemma includes_dollar_cons c rest :
  Js.includes "$" (String c rest) = false ->
  Ascii.eqb c "$" = false /\ Js.includes "$" rest = false.
Proof.
  rewrite JsFacts.includes_unfold. intros Hor.
  apply orb_false_iff in Hor as [Hprefix Hrest]. split; [|exact Hrest].
  destruct (Ascii.eqb_spec c "$") as [->|]; [|reflexivity].
  simpl in Hprefix. destruct rest; discriminate Hprefix.
Qed.

(** Outside a match, text without a dollar sign is passed through. *)
Lemma scan_text s t :
  Js.includes "$" s = false ->
  scan Outside (s +:+ t) = text s ++ scan Outside t.
Proof.
  induction s as [|c s IH]; intros Hno; [reflexivity|].
  apply includes_dollar_cons in Hno as [Hc Hs].
  rewrite JsFacts.append_cons. simpl. unfold outside_step. rewrite Hc.
  simpl. unfold text in *. simpl. f_equal. apply IH, Hs.
Qed.

Lemma scan_text_end s :
  Js.includes "$" s = false -> scan Outside s = text s.
Proof.
  intros Hno. pose proof (scan_text s EmptyString Hno) as H.
  replace (s +:+ EmptyString) with s in H.
  - rewrite H. simpl. apply app_nil_r.
  - clear. induction s as [|c s IH]; [reflexivity|].
    rewrite JsFacts.append_cons, <- IH. reflexivity.
Qed.

(** Inside a name, name characters extend it. *)
Lemma scan_name_chars name rest t :
  forallb is_name_char (list_ascii_of_string rest) = true ->
  scan (InName name) (rest +:+ t) = scan (InName (name +:+ rest)) t.
Proof.
  revert name. induction rest as [|c rest IH]; intros name Hall.
  - replace (name +:+ EmptyString) with name; [reflexivity|].
    clear. induction name as [|c s IH]; [reflexivity|].
    rewrite JsFacts.append_cons, <- IH. reflexivity.
  - simpl in Hall. apply andb_true_iff in Hall as [Hc Hrest].
    rewrite JsFacts.append_cons. simpl. rewrite Hc. simpl.
    rewrite (IH _ Hrest). f_equal. f_equal.
    rewrite JsFacts.append_assoc. reflexivity.
Qed.

(** A braced reference is one match, whatever follows it. *)
Lemma scan_braced name t :
  is_name name = true ->
  scan Outside ("${" +:+ name +:+ "}" +:+ t) = Ref name :: scan Outside t.
Proof.
  destruct name as [|c rest]; [discriminate|]. simpl.
  intros Hname. apply andb_true_iff in Hname as [Hstart Hrest].
  change ("${" +:+ String c rest +:+ "}" +:+ t)
    with (String "$" (String "{" (String c (rest +:+ "}" +:+ t)))).
  simpl. rewrite Hstart. simpl.
  rewrite (scan_name_chars _ _ _ Hrest).
  change ("}" +:+ t) with (String "}" t). simpl.
  reflexivity.
Qed.

(** An unbraced reference ends where the name characters end. *)
Lemma scan_unbraced name t :
  is_name name = true ->
  match t with
  | EmptyString => True
  | String c _ => is_name_char c = false /\ Ascii.eqb c "}" = false
  end ->
  scan Outside ("$" +:+ name +:+ t) = Ref name :: scan Outside t.
Proof.
  destruct name as [|c rest]; [discriminate|]. simpl.
  intros Hname Hend. apply andb_true_iff in Hname as [Hstart Hrest].
  change ("$" +:+ String c rest +:+ t) with (String "$" (String c (rest +:+ t))).
  simpl.
  assert (Hbrace : Ascii.eqb c "{" = false).
  { destruct (Ascii.eqb_spec c "{") as [->|]; [discriminate Hstart|reflexivity]. }
  rewrite Hbrace, Hstart. simpl.
  rewrite (scan_name_chars _ _ _ Hrest).
  destruct t as [|d t]; [reflexivity|]. destruct Hend as [Hd Hclose].
  simpl. rewrite Hd, Hclose. unfold outside_step.
  destruct (Ascii.eqb d "$"); reflexivity.
Qed.

Lemma names_text s : names (text s) = [].
Proof. unfold text. induction (list_ascii_of_string s); [reflexivity|exact IHl]. Qed.

Lemma names_app a b : names (a ++ b) = names a ++ names b.
Proof. unfold names. apply omap_app. Qed.

Lemma render_text env s rest : render env (text s ++ rest) = s +:+ render env rest.
Proof.
  unfold text. induction s as [|c s IH]; [reflexivity|].
  simpl. rewrite IH. reflexivity.
Qed.

Lemma render_text_end env s : render env (text s) = s.
Proof.
  rewrite <- (app_nil_r (text s)), render_text. simpl.
  induction s as [|c s IH]; [reflexivity|].
  rewrite JsFacts.append_cons, IH. reflexivity.
Qed.

(** The result for a text with exactly one reference, to [name]. *)
Lemma resolve_one_reference env value s name t :
  scan Outside value = text s ++ Ref name :: text t ->
  resolveEnvValue env (Some value) =
    match env !! name with
    | Some v => Some (s +:+ v +:+ t)
    | None => None
    end.
Proof.
  intros Hscan. unfold resolveEnvValue. rewrite Hscan.
  assert (Hnames : names (text s ++ Ref name :: text t) = [name]).
  { rewrite names_app, names_text.
    change (Ref name :: text t) with ([Ref name] ++ text t).
    rewrite names_app, names_text. reflexivity. }
  rewrite Hnames. cbn [forallb]. rewrite andb_true_r.
  rewrite render_text. cbn [render]. rewrite render_text_end.
  destruct (env !! name) as [v|]; reflexivity.
Qed.

End EnvRefFacts.

(** X5: a value without a dollar sign is returned unchanged, whatever the
    environment holds. *)
Theorem X5_resolveEnvValue_plain (env : Env) (value : string) :
  Js.includes "$" value = false ->
  resolveEnvValue env (Some value) = Some value.
Proof.
  intros Hno. unfold resolveEnvValue.
  rewrite (EnvRefFacts.scan_text_end _ Hno), EnvRefFacts.names_text. reflexivity.
Qed.

(** X6: a braced reference inside plain text is replaced by the variable's
    value, also when that value is empty; when the variable is not set the
    whole result is null. *)
Theorem X6_resolveEnvValue_braced (env : Env) (before name after : string) :
  Js.includes "$" before = false ->
  Js.includes "$" after = false ->
  EnvRef.is_name name = true ->
  resolveEnvValue env (Some (before +:+ "${" +:+ name +:+ "}" +:+ after)) =
    match env !! name with
    | Some v => Some (before +:+ v +:+ after)
    | None => None
    end.
Proof.
  intros Hbefore Hafter Hname.
  apply EnvRefFacts.resolve_one_reference.
  rewrite (EnvRefFacts.scan_text _ _ Hbefore).
  rewrite (EnvRefFacts.scan_braced _ _ Hname).
  rewrite (EnvRefFacts.scan_text_end _ Hafter). reflexivity.
Qed.

(** X7: the unbraced form [$NAME] means the same as [${NAME}] when the
    name is delimited: at the end of the value, or before a character that
    is neither a name character nor a closing brace. *)
Theorem X7_resolveEnvValue_unbraced (env : Env) (before name after : string) :
  Js.includes "$" before = false ->
  Js.includes "$" after = false ->
  EnvRef.is_name name = true ->
  match after with
  | EmptyString => True
  | String c _ => EnvRef.is_name_char c = false /\ Ascii.eqb c "}" = false
  end ->
  resolveEnvValue env (Some (before +:+ "$" +:+ name +:+ after))
  = resolveEnvValue env (Some (before +:+ "${" +:+ name +:+ "}" +:+ after)).
Proof.
  intros Hbefore Hafter Hname Hend.
  rewrite (EnvRefFacts.resolve_one_reference env
             (before +:+ "${" +:+ name +:+ "}" +:+ after) before name after).
  - apply EnvRefFacts.resolve_one_reference.
    rewrite (EnvRefFacts.scan_text _ _ Hbefore).
    rewrite (EnvRefFacts.scan_unbraced _ _ Hname Hend).
    rewrite (EnvRefFacts.scan_text_end _ Hafter). reflexivity.
  - rewrite (EnvRefFacts.scan_text _ _ Hbefore).
    rewrite (EnvRefFacts.scan_braced _ _ Hname).
    rewrite (EnvRefFacts.scan_text_end _ Hafter). reflexivity.
Qed.

(* ===================================================================== *)
(** * Validation of the configuration file and the callers *)
(* ===================================================================== *)

Section ConfigMoreFacts.
Context {P : NodePath}.

Lemma omap_nil_iff {A B} (f : A -> option B) (l : list A) :
  omap f l = [] <-> forall x, In x l -> f x = None.
Proof.
  induction l as [|a l IH]; simpl.
  - split; [intros _ x []|reflexivity].
  - destruct (f a) eqn:Hfa.
    + split; [discriminate|]. intros Hall.
      specialize (Hall a (or_introl eq_refl)). congruence.
    + rewrite IH. split.
      * intros Hall x [<-|Hin]; auto.
      * intros Hall x Hin. apply Hall. right. exact Hin.
Qed.

(** X8: [validateConfigFile] reports a file as valid exactly when it
    exists, passes the schema, and no auth profile (the default one or a
    named one) has strategy [login_in_test] without credentials; a file it
    reports as valid is one [loadProjectConfig] loads without throwing,
    and its error list is then empty. *)
Theorem X8_validateConfigFile_valid_iff issue fs root :
  (cv_valid (validateConfigFile issue fs root) = true <->
   existsSync fs (getConfigPath root) = true /\
   exists raw,
     readYaml fs (getConfigPath root) = Validated raw /\
     (forall p, auth_default (raw_auth raw) = Some p -> lacks_credentials p = false) /\
     (forall name p, auth_profiles (raw_auth raw) !! name = Some p ->
                     lacks_credentials p = false))
  /\
  (cv_valid (validateConfigFile issue fs root) = true ->
   cv_errors (validateConfigFile issue fs root) = [] /\
   exists config, loadProjectConfig fs root = Returns (Some config)).
Proof.
  unfold validateConfigFile, loadProjectConfig.
  destruct (existsSync fs (getConfigPath root)); simpl.
  2:{ split; [|discriminate].
      split; [discriminate|intros [Hf _]; discriminate Hf]. }
  destruct (readYaml fs (getConfigPath root)) as [err|err| | |issues|raw]; simpl;
    try (split; [|discriminate];
         split; [discriminate|intros (_ & raw & Hraw & _); discriminate Hraw]).
  set (default_errors :=
         match auth_default (raw_auth raw) with
         | Some p => if lacks_credentials p
                     then [credentials_required "auth.default"] else []
         | None => []
         end).
  set (profile_errors := omap _ (map_to_list (auth_profiles (raw_auth raw)))).
  assert (Hdefault : default_errors = [] <->
            forall p, auth_default (raw_auth raw) = Some p -> lacks_credentials p = false).
  { unfold default_errors. destruct (auth_default (raw_auth raw)) as [p|].
    - destruct (lacks_credentials p) eqn:Hp.
      + split; [discriminate|]. intros Hall. specialize (Hall p eq_refl). congruence.
      + split; [|reflexivity]. intros _ p' [= <-]. exact Hp.
    - split; [|reflexivity]. intros _ p' Hp'. discriminate Hp'. }
  assert (Hprofiles : profile_errors = [] <->
            forall name p, auth_profiles (raw_auth raw) !! name = Some p ->
                           lacks_credentials p = false).
  { unfold profile_errors. rewrite omap_nil_iff. split.
    - intros Hall name p Hlook.
      specialize (Hall (name, p)). simpl in Hall.
      destruct (lacks_credentials p); [|reflexivity].
      assert (Hin : In (name, p) (map_to_list (auth_profiles (raw_auth raw)))).
      { apply list_elem_of_In, elem_of_map_to_list. exact Hlook. }
      specialize (Hall Hin). discriminate Hall.
    - intros Hall [name p] Hin. simpl.
      apply list_elem_of_In, elem_of_map_to_list in Hin.
      rewrite (Hall _ _ Hin). reflexivity. }
  assert (Hvalid : bool_decide (default_errors ++ profile_errors = []) = true <->
                   default_errors = [] /\ profile_errors = []).
  { rewrite bool_decide_eq_true. split.
    - intros Happ. apply app_eq_nil in Happ. exact Happ.
    - intros [-> ->]. reflexivity. }
  split.
  - rewrite Hvalid, Hdefault, Hprofiles. split.
    + intros [Hd Hp]. split; [reflexivity|]. exists raw. auto.
    + intros (_ & raw' & [= <-] & Hd & Hp). auto.
  - intros Hv. apply Hvalid in Hv as [-> ->]. split; [reflexivity|]. eauto.
Qed.

(** X9: for a file that passes the schema, [validateConfigFile] warns
    about a missing entry point exactly when resolving a spec without
    caller script and config path fails with [no_entrypoint]. *)
Theorem X9_entrypoint_warning_iff issue fs spec raw :
  existsSync fs (spec_projectRoot spec) = true ->
  existsSync fs (getConfigPath (spec_projectRoot spec)) = true ->
  readYaml fs (getConfigPath (spec_projectRoot spec)) = Validated raw ->
  Js.truthy (spec_script spec) = false ->
  Js.truthy (spec_configPath spec) = false ->
  (cv_warnings (validateConfigFile issue fs (spec_projectRoot spec)) <> [] <->
   exists r, resolveRunSpec fs spec = Returns r /\ fails_with "no_entrypoint" r).
Proof.
  intros Hroot Hex Hyaml Hscript Hpath.
  unfold validateConfigFile, resolveRunSpec, loadRunConfig, loadProjectConfig.
  rewrite Hroot, Hex, Hyaml, Hscript, Hpath. simpl.
  unfold resolveFromRunConfig. simpl.
  destruct (Js.truthy (run_script (raw_run raw))); simpl.
  { split; [congruence|]. intros (r & [= <-] & e & He & _). discriminate He. }
  destruct (Js.truthy (run_config_path (raw_run raw))); simpl.
  - split; [congruence|].
    destruct (existsSync fs (resolve _ _)); simpl;
      intros (r & [= <-] & e & He & Htype);
      [discriminate He|injection He as <-; discriminate Htype].
  - split; [|discriminate]. intros _.
    eexists. split; [reflexivity|]. eexists. split; reflexivity.
Qed.

(** X10: for an existing project root, [canRunTests] is true exactly when
    resolving a spec without caller script and config path returns
    something other than [no_entrypoint] (a command, or [config_not_found]
    for a persisted config path that is missing); it is false when the
    resolution throws. *)
Theorem X10_canRunTests_iff fs spec :
  existsSync fs (spec_projectRoot spec) = true ->
  Js.truthy (spec_script spec) = false ->
  Js.truthy (spec_configPath spec) = false ->
  (canRunTests fs (spec_projectRoot spec) = true <->
   exists r, resolveRunSpec fs spec = Returns r /\ ~ fails_with "no_entrypoint" r).
Proof.
  intros Hroot Hscript Hpath.
  unfold canRunTests, resolveRunSpec, loadRunConfig.
  rewrite Hroot, Hscript, Hpath. simpl.
  assert (Hentry : fails_with "no_entrypoint"
                     (Failure {| errorType := "no_entrypoint";
                                 message := no_entrypoint_message |})).
  { eexists. split; reflexivity. }
  destruct (loadProjectConfig fs (spec_projectRoot spec)) as [[config|]|e] eqn:Hload.
  - assert (Hrun : exists rc, kc_run config = Some rc).
    { revert Hload. unfold loadProjectConfig.
      destruct (existsSync fs (getConfigPath _)); simpl; [|discriminate].
      destruct (readYaml fs _); simpl; try discriminate.
      intros [= <-]. simpl. eauto. }
    destruct Hrun as [rc Hrc]. rewrite Hrc. simpl.
    unfold resolveFromRunConfig.
    destruct (Js.truthy (rc_script rc)); simpl.
    { split; [|reflexivity]. intros _. eexists. split; [reflexivity|].
      intros (e & He & _). discriminate He. }
    destruct (Js.truthy (rc_configPath rc)); simpl.
    + split; [|reflexivity]. intros _.
      destruct (existsSync fs (resolve _ _)); simpl;
        (eexists; split; [reflexivity|]).
      * intros (e & He & _). discriminate He.
      * intros (e & [= <-] & Htype). discriminate Htype.
    + split; [discriminate|]. intros (r & [= <-] & Hnot). contradiction.
  - split; [discriminate|]. intros (r & [= <-] & Hnot). contradiction.
  - split; [discriminate|]. intros (r & Hr & _). discriminate Hr.
Qed.

(** X11: through the [run_tests] tool, a persisted [run.script] is handed
    to the resolver as the caller's script.  So when the tool is called
    without a script on a project whose [kitwe.yaml] has a run script, the
    command is resolved in mode [cli_script]: its argv is the runner, the
    script and the spec file only, without the persisted [run.args], and
    it has no environment overlay of its own (the persisted [run.env] and
    [run.runner] reach the run through the spec instead). *)
Theorem X11_run_tests_uses_caller_tier fs params rc :
  existsSync fs (rt_project_root params) = true ->
  loadRunConfig fs (rt_project_root params) = Returns (Some rc) ->
  Js.truthy (rt_script params) = false ->
  Js.truthy (rc_script rc) = true ->
  let spec := run_tests_spec params (Some rc) in
  exists c,
    resolveRunSpec fs spec = Returns (Command c) /\
    cmd_mode c = cli_script /\
    cmd_env c = None /\
    cmd_argv c =
      script_argv
        (default (detectPackageManager fs (rt_project_root params)) (rc_runner rc))
        (default "" (rc_script rc))
        (if Js.truthy (rt_spec_file params)
         then [default "" (rt_spec_file params)] else []) /\
    spec_env spec = rc_env rc.
Proof.
  intros Hroot Hload Hparam Hpersisted spec.
  unfold resolveRunSpec. subst spec. cbn [run_tests_spec spec_projectRoot].
  rewrite Hroot, Hload. cbn [negb].
  unfold run_tests_spec at 1. cbn [spec_script]. rewrite Hparam.
  cbn [chain]. rewrite Hpersisted.
  eexists. split; [reflexivity|]. split; [reflexivity|]. split; [reflexivity|].
  split; [|reflexivity].
  unfold resolveFromScript. cbn [cmd_argv run_tests_spec spec_runner spec_script
                                   spec_args spec_projectRoot chain].
  rewrite Hparam.
  destruct (rc_runner rc), (Js.truthy (rt_spec_file params)); reflexivity.
Qed.

End ConfigMoreFacts.

(* ===================================================================== *)
(** * Further properties of runs *)
(* ===================================================================== *)

Section RunMore.
Context {P : NodePath} {World : Type} {H : Host World}.


(** The calls of a run of a resolved command: at least one, the calls of
    the pre-command loop and then at most the main command. *)
Lemma Ran_calls spec c fs out tr ws :
  Ran spec c fs out tr ws ->
  tr <> [] /\
  exists entries res,
    PreRun (runEnv process_env spec c) (logs_dir spec) 0
      (default [] (cmd_preCommands c)) entries res /\
    (tr = entries \/ exists o, tr = entries ++ [main_entry spec c o]).
Proof.
  intros [entries ws' res msg r Hrun Hs Herr Hws Hr
         |entries ws' msg Hrun Hws
         |entries ws' res err r Hrun Hs Hws Hr
         |entries ws' res result r Hrun Hs Hws Hr
         |entries ws' res result wr msg r Hrun Hs Hwr Hpath Hmsg Hws Hr].
  - split; [exact (proj1 (PreRun_failure _ _ _ _ _ _ Hrun Hs))|eauto].
  - split; [exact (PreRun_uncaught_calls _ _ _ _ _ _ Hrun)|eauto].
  - split; [destruct entries; discriminate|eauto 6].
  - split; [destruct entries; discriminate|eauto 6].
  - split; [destruct entries; discriminate|eauto 6].
Qed.



(** X14: the calls of a run are the pre-commands at indices 0, 1, ... up
    to some index, each once and in this order, followed by at most one
    main command: nothing is retried, reordered, or run after the main
    command. *)
Theorem X14_call_order spec (w : World) :
  exists k,
    map te_site (calls (run spec w)) = map PreCommandSite (seq 0 k) \/
    map te_site (calls (run spec w)) = map PreCommandSite (seq 0 k) ++ [MainSite].
Proof.
  pose proof (run_shape spec w) as Hshape.
  destruct (mkdir_error spec w) as [msg|].
  { destruct Hshape as (_ & Hcalls & _). exists 0%nat. left. rewrite Hcalls. reflexivity. }
  destruct (resolveRunSpec (fs_of (prepared spec w)) spec) as [[c|err]|ex].
  - destruct (Ran_calls _ _ _ _ _ _ Hshape)
      as (_ & entries & res & Hrun & [Hcalls|(o & Hcalls)]);
      exists (length entries); rewrite Hcalls.
    + left. exact (PreRun_sites _ _ _ _ _ _ Hrun).
    + right. rewrite map_app, (PreRun_sites _ _ _ _ _ _ Hrun). reflexivity.
  - destruct Hshape as [Hcalls _]. exists 0%nat. left. rewrite Hcalls. reflexivity.
  - destruct Hshape as (_ & Hcalls & _). exists 0%nat. left. rewrite Hcalls. reflexivity.
Qed.

(** X15: a run reported as passed started every pre-command of the
    resolved command and then the main command, and every one of these
    processes came back with exit code 0. *)
Theorem X15_passed_means_all_exited_zero spec (w : World) r :
  outcome_of (run spec w) = Returns r ->
  res_status r = passed ->
  exists c,
    resolveRunSpec (fs_of (prepared spec w)) spec = Returns (Command c) /\
    length (calls (run spec w)) = S (length (default [] (cmd_preCommands c))) /\
    forall e, In e (calls (run spec w)) -> exited_zero (te_outcome e) = true.
Proof.
  intros Hr Hpassed. pose proof (run_shape spec w) as Hshape. rewrite Hr in Hshape.
  destruct (mkdir_error spec w) as [msg|].
  { destruct Hshape as (Hthrows & _). discriminate. }
  destruct (resolveRunSpec (fs_of (prepared spec w)) spec) as [[c|err]|ex].
  - exists c. split; [reflexivity|].
    remember (Settles (Returns r)) as out eqn:Hout.
    remember (calls (run spec w)) as tr eqn:Htr.
    remember (writes (run spec w)) as ws eqn:Hwrites.
    destruct Hshape as [entries ws res msg r' Hrun Hs Herr Hws Hr'
                       |entries ws msg Hrun Hws
                       |entries ws res err r' Hrun Hs Hws Hr'
                       |entries ws res result r' Hrun Hs Hws Hr'
                       |entries ws res result wr msg r' Hrun Hs Hwr Hpath Hmsg Hws Hr'];
      try discriminate Hout; injection Hout as <-.
    + destruct Hr' as (Hstatus & _). congruence.
    + destruct Hr' as (Hstatus & _). congruence.
    + destruct Hr' as (Hstatus & _).
      destruct (PreRun_success _ _ _ _ _ _ Hrun Hs) as [Hlen Hall].
      split.
      * rewrite length_app, Hlen. simpl. lia.
      * intros e Hin. apply in_app_or in Hin as [Hin|[<-|[]]]; [auto|].
        simpl. rewrite Hpassed in Hstatus. unfold determineStatus in Hstatus.
        destruct (timedOut result); [discriminate|].
        destruct (exitCode result) as [[|p|p]|]; try discriminate. reflexivity.
    + destruct Hr' as (Hstatus & _). congruence.
  - destruct Hshape as (_ & _ & r' & [= <-] & Hstatus & _). congruence.
  - destruct Hshape as (Hthrows & _). discriminate.
Qed.


Lemma resolved_cwd fs spec c :
  resolveRunSpec fs spec = Returns (Command c) ->
  cmd_cwd c = spec_projectRoot spec.
Proof.
  unfold resolveRunSpec.
  destruct (existsSync fs (spec_projectRoot spec)); simpl; [|discriminate].
  destruct (loadRunConfig fs (spec_projectRoot spec)) as [persisted|]; [|discriminate].
  destruct (Js.truthy (spec_script spec)).
  { intros [= <-]. reflexivity. }
  destruct (Js.truthy (spec_configPath spec)).
  { unfold resolveFromConfig.
    destruct (existsSync fs _); simpl; intros [= <-]; reflexivity. }
  destruct persisted as [rc|]; [|discriminate].
  unfold resolveFromRunConfig.
  destruct (Js.truthy (rc_script rc)); simpl.
  { intros [= <-]. reflexivity. }
  destruct (Js.truthy (rc_configPath rc)); simpl; [|discriminate].
  destruct (existsSync fs _); simpl; intros [= <-]; reflexivity.
Qed.

(** X17: the main command is run in the project root, under a deadline of
    [timeoutSeconds * 1000] ms, without a log file of its own; its argv is
    the resolved argv followed by the injected tokens and mentions both
    the reporter and the trace flag. *)
Theorem X17_main_call spec (w : World) e :
  In e (calls (run spec w)) ->
  te_site e = MainSite ->
  opt_cwd (te_options e) = spec_projectRoot spec /\
  opt_timeoutMs (te_options e) = spec_timeoutSeconds spec * 1000 /\
  opt_logPath (te_options e) = None /\
  mentions "--reporter" (te_argv e) = true /\
  mentions "--trace" (te_argv e) = true /\
  exists c added,
    resolveRunSpec (fs_of (prepared spec w)) spec = Returns (Command c) /\
    te_argv e = cmd_argv c ++ added.
Proof.
  intros Hin Hsite.
  destruct (run_main_call spec w e Hin Hsite) as (c & _ & Hres & He & _).
  pose proof (resolved_cwd _ _ _ Hres) as Hcwd.
  destruct (prepared_mentions c) as [Hreporter Htrace].
  rewrite He. cbn [main_entry te_options te_argv opt_cwd opt_timeoutMs opt_logPath].
  split; [exact Hcwd|]. split; [reflexivity|]. split; [reflexivity|].
  split; [exact Hreporter|]. split; [exact Htrace|].
  exists c. eexists. split; [exact Hres|]. apply prepare_appends.
Qed.

(** X18: the call at pre-command index [i] runs the i-th command (from 0)
    of the merged list [getRunPreCommands] reads from [kitwe.yaml], with
    that command's argv.  Its working directory is the project root when
    the command names none (or the empty string), the command's [cwd]
    itself when that starts with a slash, and otherwise the command's
    [cwd] resolved against the project root; [process.cwd()] is never
    used.  The call has the fixed deadline of 300000 ms, logs to
    [pre_command_<i>.log], and runs in the run environment overlaid with
    the command's own [env]; and such a call is made only when
    [spec.skipSetup] is not true. *)
Theorem X18_pre_command_call spec (w : World) e i :
  In e (calls (run spec w)) ->
  te_site e = PreCommandSite i ->
  exists c configured,
    resolveRunSpec (fs_of (prepared spec w)) spec = Returns (Command c) /\
    getRunPreCommands (fs_of (prepared spec w)) (spec_projectRoot spec) !! i
    = Some configured /\
    te_argv e = pc_argv configured /\
    opt_cwd (te_options e) =
      match pc_cwd configured with
      | None | Some EmptyString => spec_projectRoot spec
      | Some ((String first _) as cwd) =>
          if Ascii.eqb first "/" then cwd
          else resolve (spec_projectRoot spec) cwd
      end /\
    opt_timeoutMs (te_options e) = 300000 /\
    opt_logPath (te_options e)
    = Some (join (logs_dir spec) ("pre_command_" +:+ Js.show_nat i +:+ ".log")) /\
    (forall key : string,
       opt_env (te_options e) !! key =
         match overlay (pc_env configured) key with
         | Some v => Some v
         | None => runEnv process_env spec c !! key
         end) /\
    spec_skipSetup spec <> Some true.
Proof.
  intros Hin Hsite.
  destruct (run_pre_call spec w e i Hin Hsite)
    as (c & cmds & pc & Hres & Hcmds & Hpc & _ & He & _).
  pose proof (resolved_preCommands _ _ _ Hres) as Hextract.
  rewrite extractPreCommands_spec, Hcmds in Hextract.
  assert (Hskip : default false (spec_skipSetup spec) = false).
  { destruct (default false (spec_skipSetup spec)); [discriminate Hextract|reflexivity]. }
  rewrite Hskip in Hextract.
  assert (Hlocated : cmds = located (spec_projectRoot spec)
                              (getRunPreCommands (fs_of (prepared spec w))
                                 (spec_projectRoot spec))).
  { destruct (located _ _) as [|x xs]; [discriminate Hextract|].
    simpl in Hextract. congruence. }
  rewrite Hlocated in Hpc. unfold located in Hpc.
  rewrite list_lookup_fmap in Hpc.
  destruct (getRunPreCommands (fs_of (prepared spec w)) (spec_projectRoot spec) !! i)
    as [configured|] eqn:Hconfigured; [|discriminate Hpc].
  simpl in Hpc. injection Hpc as <-.
  exists c, configured. split; [exact Hres|]. split; [reflexivity|].
  rewrite He.
  cbn [pre_command_entry te_argv te_options opt_cwd opt_env opt_timeoutMs
       opt_logPath pc_argv pc_cwd pc_env default].
  split; [reflexivity|]. split.
  { unfold resolveCwd. destruct (pc_cwd configured) as [[|first rest]|]; try reflexivity.
    unfold Js.startsWith. cbn [String.prefix].
    unfold id. destruct (Ascii.ascii_dec "/" first) as [Heq|Hne].
    - subst first. destruct rest; reflexivity.
    - destruct (Ascii.eqb first "/") eqn:Heq; [|reflexivity].
      apply Ascii.eqb_eq in Heq. congruence. }
  split; [reflexivity|]. split; [reflexivity|]. split.
  - intros key. unfold overlay.
    destruct (pc_env configured) as [own|]; [|reflexivity].
    rewrite lookup_union, option_union_left_biased. reflexivity.
  - destruct (spec_skipSetup spec) as [[]|]; [discriminate Hskip|discriminate|discriminate].
Qed.



End RunMore.

(* ===================================================================== *)
(** * More about artifact collection *)
(* ===================================================================== *)

Section ArtifactMore.
Context {P : NodePath}.

Lemma fold_left_appending {A B} (step : list A -> B -> list A) :
  (forall acc x, step acc x = acc ++ step [] x) ->
  forall xs acc, fold_left step xs acc = acc ++ concat (map (step []) xs).
Proof.
  intros Hstep xs. induction xs as [|x xs IH]; intros acc; simpl.
  - symmetry. apply app_nil_r.
  - rewrite IH, Hstep, <- app_assoc. reflexivity.
Qed.

Lemma collectArtifactsFromDir_levels_unfold levels fs dir acc :
  collectArtifactsFromDir_levels (S levels) fs dir acc =
    match readdirSync fs dir with
    | None => acc
    | Some entries => fold_left (entry_step levels fs dir) entries acc
    end.
Proof. reflexivity. Qed.

(** A scan only appends to the array it is given. *)
Lemma collectArtifactsFromDir_levels_appends levels :
  forall fs dir acc,
    collectArtifactsFromDir_levels levels fs dir acc =
      acc ++ collectArtifactsFromDir_levels levels fs dir [].
Proof.
  induction levels as [|levels IH]; intros fs dir acc.
  - simpl. symmetry. apply app_nil_r.
  - rewrite !collectArtifactsFromDir_levels_unfold.
    destruct (readdirSync fs dir) as [entries|]; [|symmetry; apply app_nil_r].
    assert (Hstep : forall acc x,
              entry_step levels fs dir acc x = acc ++ entry_step levels fs dir [] x).
    { intros acc' x. unfold entry_step.
      destruct (statSync fs (join dir x)) as [[|size|]|];
        try (symmetry; apply app_nil_r).
      - apply IH.
      - destruct (getArtifactType x); [reflexivity|symmetry; apply app_nil_r]. }
    rewrite (fold_left_appending _ Hstep entries acc).
    rewrite (fold_left_appending _ Hstep entries []). reflexivity.
Qed.

Lemma collectArtifactsFromDir_levels_Listed levels :
  forall fs dir a,
    In a (collectArtifactsFromDir_levels levels fs dir []) <->
    exists depth, (depth < levels)%nat /\ Listed fs depth dir a.
Proof.
  induction levels as [|levels IH]; intros fs dir a.
  - simpl. split; [intros []|intros (depth & Hlt & _); lia].
  - rewrite collectArtifactsFromDir_levels_unfold.
    assert (Hstep : forall acc x,
              entry_step levels fs dir acc x = acc ++ entry_step levels fs dir [] x).
    { intros acc' x. unfold entry_step.
      destruct (statSync fs (join dir x)) as [[|size|]|];
        try (symmetry; apply app_nil_r).
      - apply collectArtifactsFromDir_levels_appends.
      - destruct (getArtifactType x); [reflexivity|symmetry; apply app_nil_r]. }
    split.
    + destruct (readdirSync fs dir) as [entries|] eqn:Hdir; [|intros []].
      rewrite (fold_left_appending _ Hstep entries []). simpl.
      rewrite in_concat. intros (found & Hfound & Hin).
      apply in_map_iff in Hfound as (entry & <- & Hentry).
      unfold entry_step in Hin.
      destruct (statSync fs (join dir entry)) as [[|size|]|] eqn:Hstat;
        try destruct Hin.
      * apply IH in Hin as (depth & Hlt & Hlisted).
        exists (S depth). split; [lia|]. eapply Listed_below; eassumption.
      * destruct (getArtifactType entry) as [type|] eqn:Htype; [|destruct Hin].
        destruct Hin as [<-|[]]. exists 0%nat. split; [lia|].
        eapply Listed_here; eassumption.
    + intros (depth & Hlt & Hlisted).
      inversion Hlisted as [dir' entries entry size type Hdir Hentry Hstat Htype
                           |dir' entries entry depth' a' Hdir Hentry Hstat Hbelow];
        subst; rewrite Hdir, (fold_left_appending _ Hstep entries []); simpl;
        rewrite in_concat; eexists; (split; [apply in_map; exact Hentry|]);
        unfold entry_step; rewrite Hstat.
      * rewrite Htype. left. reflexivity.
      * apply IH. exists depth'. split; [lia|exact Hbelow].
Qed.

Lemma collectArtifacts_found_under fs projectRoot outputDir :
  collectArtifacts fs projectRoot outputDir =
    concat (map (found_under fs) (searchDirs projectRoot outputDir)).
Proof.
  unfold collectArtifacts.
  rewrite (fold_left_appending
             (fun artifacts dir =>
                if negb (existsSync fs dir) then artifacts
                else collectArtifactsFromDir fs dir artifacts 0)).
  - simpl. unfold found_under.
    destruct (existsSync fs (join projectRoot "test-results")),
             (existsSync fs (join projectRoot "playwright-report")),
             (existsSync fs outputDir); reflexivity.
  - intros acc dir. destruct (existsSync fs dir); simpl.
    + apply collectArtifactsFromDir_levels_appends.
    + symmetry. apply app_nil_r.
Qed.

(** X19: an artifact is reported exactly when it is a regular file with a
    classified name lying at most three directories below one of the
    three search directories ([<root>/test-results],
    [<root>/playwright-report], [outputDir]) that exists; its path is the
    directory path joined with the entry names, its name the last entry
    name, its size the one [statSync] reports. *)
Theorem X19_artifact_iff fs projectRoot outputDir a :
  In a (collectArtifacts fs projectRoot outputDir) <->
  exists dir depth,
    In dir (searchDirs projectRoot outputDir) /\
    existsSync fs dir = true /\
    (depth <= 3)%nat /\
    Listed fs depth dir a.
Proof.
  rewrite collectArtifacts_found_under, in_concat. split.
  - intros (found & Hfound & Hin).
    apply in_map_iff in Hfound as (dir & <- & Hdir).
    unfold found_under in Hin.
    destruct (existsSync fs dir) eqn:Hexists; [|destruct Hin].
    apply collectArtifactsFromDir_levels_Listed in Hin as (depth & Hlt & Hlisted).
    exists dir, depth. simpl in Hlt. repeat split; try assumption. lia.
  - intros (dir & depth & Hdir & Hexists & Hle & Hlisted).
    exists (found_under fs dir). split; [apply in_map; exact Hdir|].
    unfold found_under. rewrite Hexists.
    apply collectArtifactsFromDir_levels_Listed. exists depth.
    split; [simpl; lia|exact Hlisted].
Qed.

(** X20: the artifact list is what the three search directories
    contribute, in the order test-results, playwright-report, outputDir,
    each directory's part being the scan of that directory on its own;
    nothing is reordered or dropped between them. *)
Theorem X20_artifact_order fs projectRoot outputDir :
  collectArtifacts fs projectRoot outputDir =
    found_under fs (join projectRoot "test-results") ++
    found_under fs (join projectRoot "playwright-report") ++
    found_under fs outputDir.
Proof.
  rewrite collectArtifacts_found_under. simpl. rewrite app_nil_r. reflexivity.
Qed.

(** X21: no duplicate is removed: when [outputDir] names the
    [test-results] directory of the project, every artifact found there
    is reported twice. *)
Theorem X21_artifact_reported_twice fs projectRoot a :
  In a (found_under fs (join projectRoot "test-results")) ->
  exists before between after,
    collectArtifacts fs projectRoot (join projectRoot "test-results")
    = before ++ a :: between ++ a :: after.
Proof.
  intros Hin. rewrite collectArtifacts_found_under. simpl. rewrite app_nil_r.
  apply in_split in Hin as (l1 & l2 & Hsplit). rewrite Hsplit.
  exists l1, (l2 ++ found_under fs (join projectRoot "playwright-report") ++ l1), l2.
  rewrite <- ?app_assoc. simpl. rewrite <- ?app_assoc. reflexivity.
Qed.

End ArtifactMore.

(* ===================================================================== *)
(** * The further properties on sample projects *)
(* ===================================================================== *)

(** [X2_resolved_command_shape] on the caller script with
    [args: ["--headed"]]. *)
Lemma X2_resolved_command_shape_witness :
  resolveRunSpec (P := posix) Sample.fs_plain Sample.headed_spec
  = Returns (Command (resolveFromScript (P := posix) Sample.fs_plain Sample.headed_spec)) /\
  cmd_cwd (resolveFromScript (P := posix) Sample.fs_plain Sample.headed_spec) = "/proj" /\
  exists front,
    cmd_argv (resolveFromScript (P := posix) Sample.fs_plain Sample.headed_spec)
    = front ++ ["--headed"].
Proof.
  split; [reflexivity|].
  destruct (X2_resolved_command_shape (P := posix) Sample.fs_plain Sample.headed_spec
              _ eq_refl)
    as (Hcwd & _ & Hfront & _).
  split; [exact Hcwd|exact Hfront].
Defined.

(** [X3_config_not_found_iff] on a project whose persisted config path is
    not on disk. *)
Lemma X3_config_not_found_iff_witness :
  existsSync SampleMore.fs_missing_config (spec_projectRoot Sample.base_spec) = true /\
  loadRunConfig (P := posix) SampleMore.fs_missing_config
    (spec_projectRoot Sample.base_spec)
  = Returns (kc_run (convertToTypescript
                       (Sample.config_of None Sample.config_path_run))) /\
  resolveRunSpec (P := posix) SampleMore.fs_missing_config Sample.base_spec
  = Returns (Failure SampleMore.missing_config_error) /\
  fails_with "config_not_found" (Failure SampleMore.missing_config_error).
Proof.
  split; [reflexivity|]. split; [reflexivity|]. split; [reflexivity|].
  apply (X3_config_not_found_iff (P := posix) SampleMore.fs_missing_config
           Sample.base_spec
           (kc_run (convertToTypescript (Sample.config_of None Sample.config_path_run)))
           (Failure SampleMore.missing_config_error) eq_refl eq_refl eq_refl).
  exists "playwright.config.ts". split; reflexivity.
Defined.

(** [X4_caller_tiers_ignore_persisted_entry] on a caller script, the
    persisted entry point being a config path or none. *)
Lemma X4_caller_tiers_ignore_persisted_entry_witness :
  Js.truthy (spec_script Sample.script_spec)
  || Js.truthy (spec_configPath Sample.script_spec) = true /\
  run_pre_commands Sample.default_run = run_pre_commands Sample.config_path_run /\
  run_skip_setup Sample.default_run = run_skip_setup Sample.config_path_run /\
  resolveRunSpec (P := posix)
    (persist Sample.fs_plain (getConfigPath (P := posix) "/proj")
       (with_run (Sample.config_of None Sample.config_path_run) Sample.default_run))
    Sample.script_spec
  = resolveRunSpec (P := posix)
      (persist Sample.fs_plain (getConfigPath (P := posix) "/proj")
         (Sample.config_of None Sample.config_path_run))
      Sample.script_spec.
Proof.
  split; [reflexivity|]. split; [reflexivity|]. split; [reflexivity|].
  apply (X4_caller_tiers_ignore_persisted_entry (P := posix) Sample.fs_plain
           Sample.script_spec (Sample.config_of None Sample.config_path_run)
           Sample.default_run eq_refl eq_refl eq_refl).
Defined.

(** [X5_resolveEnvValue_plain] on a URL without references. *)
Lemma X5_resolveEnvValue_plain_witness :
  Js.includes "$" "http://localhost:3000" = false /\
  resolveEnvValue ∅ (Some "http://localhost:3000") = Some "http://localhost:3000".
Proof.
  split; [reflexivity|].
  apply (X5_resolveEnvValue_plain ∅ "http://localhost:3000" eq_refl).
Defined.

(** [X6_resolveEnvValue_braced] on a URL that refers to [HOST]. *)
Lemma X6_resolveEnvValue_braced_witness :
  Js.includes "$" "http://" = false /\
  Js.includes "$" "/app" = false /\
  EnvRef.is_name "HOST" = true /\
  resolveEnvValue SampleMore.host_env (Some "http://${HOST}/app")
  = Some "http://example.test/app".
Proof.
  split; [reflexivity|]. split; [reflexivity|]. split; [reflexivity|].
  exact (X6_resolveEnvValue_braced SampleMore.host_env "http://" "HOST" "/app"
           eq_refl eq_refl eq_refl).
Defined.

(** [X7_resolveEnvValue_unbraced] on the same URL written without
    braces. *)
Lemma X7_resolveEnvValue_unbraced_witness :
  Js.includes "$" "http://" = false /\
  Js.includes "$" "/app" = false /\
  EnvRef.is_name "HOST" = true /\
  resolveEnvValue SampleMore.host_env (Some "http://$HOST/app")
  = resolveEnvValue SampleMore.host_env (Some "http://${HOST}/app").
Proof.
  split; [reflexivity|]. split; [reflexivity|]. split; [reflexivity|].
  exact (X7_resolveEnvValue_unbraced SampleMore.host_env "http://" "HOST" "/app"
           eq_refl eq_refl eq_refl (conj eq_refl eq_refl)).
Defined.

(** [X9_entrypoint_warning_iff] on a project whose [kitwe.yaml] has setup
    commands and no entry point. *)
Lemma X9_entrypoint_warning_iff_witness :
  existsSync Sample.fs_three_steps (spec_projectRoot Sample.base_spec) = true /\
  existsSync Sample.fs_three_steps
    (getConfigPath (P := posix) (spec_projectRoot Sample.base_spec)) = true /\
  readYaml Sample.fs_three_steps
    (getConfigPath (P := posix) (spec_projectRoot Sample.base_spec))
  = Validated (Sample.config_of (Some Sample.three_steps) Sample.default_run) /\
  Js.truthy (spec_script Sample.base_spec) = false /\
  Js.truthy (spec_configPath Sample.base_spec) = false /\
  cv_warnings (validateConfigFile (P := posix) SampleMore.scalar_root_issue
                 Sample.fs_three_steps (spec_projectRoot Sample.base_spec)) <> [].
Proof.
  split; [reflexivity|]. split; [reflexivity|]. split; [reflexivity|].
  split; [reflexivity|]. split; [reflexivity|].
  apply (X9_entrypoint_warning_iff (P := posix) SampleMore.scalar_root_issue
           Sample.fs_three_steps Sample.base_spec
           (Sample.config_of (Some Sample.three_steps) Sample.default_run)
           eq_refl eq_refl eq_refl eq_refl eq_refl).
  eexists. split; [reflexivity|]. eexists. split; reflexivity.
Defined.

(** [X10_canRunTests_iff] on a project with a persisted config path that
    is on disk. *)
Lemma X10_canRunTests_iff_witness :
  existsSync Sample.fs_config_path (spec_projectRoot Sample.base_spec) = true /\
  Js.truthy (spec_script Sample.base_spec) = false /\
  Js.truthy (spec_configPath Sample.base_spec) = false /\
  canRunTests (P := posix) Sample.fs_config_path (spec_projectRoot Sample.base_spec)
  = true.
Proof.
  split; [reflexivity|]. split; [reflexivity|]. split; [reflexivity|].
  apply (X10_canRunTests_iff (P := posix) Sample.fs_config_path Sample.base_spec
           eq_refl eq_refl eq_refl).
  eexists. split; [reflexivity|].
  intros (e & He & _). discriminate He.
Defined.

(** [X11_run_tests_uses_caller_tier] on a request for one spec file in a
    project with a persisted script. *)
Lemma X11_run_tests_uses_caller_tier_witness :
  existsSync Sample.fs_skip_setup (rt_project_root SampleMore.one_file_request) = true /\
  loadRunConfig (P := posix) Sample.fs_skip_setup
    (rt_project_root SampleMore.one_file_request)
  = Returns (Some SampleMore.skip_setup_run_config) /\
  Js.truthy (rt_script SampleMore.one_file_request) = false /\
  Js.truthy (rc_script SampleMore.skip_setup_run_config) = true /\
  exists c,
    resolveRunSpec (P := posix) Sample.fs_skip_setup
      (run_tests_spec (P := posix) SampleMore.one_file_request
         (Some SampleMore.skip_setup_run_config))
    = Returns (Command c) /\
    cmd_mode c = cli_script /\
    cmd_argv c = ["npm"; "run"; "test:e2e"; "--"; "tests/login.spec.ts"].
Proof.
  split; [reflexivity|]. split; [reflexivity|]. split; [reflexivity|].
  split; [reflexivity|].
  destruct (X11_run_tests_uses_caller_tier (P := posix) Sample.fs_skip_setup
              SampleMore.one_file_request SampleMore.skip_setup_run_config
              eq_refl eq_refl eq_refl eq_refl)
    as (c & Hres & Hmode & _ & Hargv & _).
  exists c. split; [exact Hres|]. split; [exact Hmode|]. exact Hargv.
Defined.

(** [X15_passed_means_all_exited_zero] on a passing run without
    pre-commands. *)
Lemma X15_passed_means_all_exited_zero_witness :
  outcome_of Sample.results_run
  = Returns (Sample.passed_result [Sample.screenshot_file; Sample.trace_file]) /\
  res_status (Sample.passed_result [Sample.screenshot_file; Sample.trace_file])
  = passed /\
  length (calls Sample.results_run) = 1%nat /\
  forall e, In e (calls Sample.results_run) -> exited_zero (te_outcome e) = true.
Proof.
  split; [reflexivity|]. split; [reflexivity|].
  destruct (X15_passed_means_all_exited_zero (P := posix)
              (H := Sample.scripted Sample.fs_results)
              Sample.script_spec [Sample.exits 0]
              (Sample.passed_result [Sample.screenshot_file; Sample.trace_file])
              eq_refl eq_refl)
    as (c & _ & _ & Hall).
  split; [reflexivity|exact Hall].
Defined.


(** [X17_main_call] on the same run. *)
Lemma X17_main_call_witness :
  In (main_entry (H := Sample.scripted Sample.fs_plain) Sample.script_spec
        (resolveFromScript (P := posix) Sample.fs_plain Sample.script_spec)
        (Returns (Sample.exited 7)))
     (calls Sample.failed_run) /\
  opt_cwd (te_options
             (main_entry (H := Sample.scripted Sample.fs_plain) Sample.script_spec
                (resolveFromScript (P := posix) Sample.fs_plain Sample.script_spec)
                (Returns (Sample.exited 7)))) = "/proj" /\
  opt_timeoutMs (te_options
             (main_entry (H := Sample.scripted Sample.fs_plain) Sample.script_spec
                (resolveFromScript (P := posix) Sample.fs_plain Sample.script_spec)
                (Returns (Sample.exited 7)))) = 300000.
Proof.
  assert (Hin :
    In (main_entry (H := Sample.scripted Sample.fs_plain) Sample.script_spec
          (resolveFromScript (P := posix) Sample.fs_plain Sample.script_spec)
          (Returns (Sample.exited 7)))
       (calls Sample.failed_run)).
  { vm_compute. left. reflexivity. }
  split; [exact Hin|].
  destruct (X17_main_call (P := posix) (H := Sample.scripted Sample.fs_plain)
              Sample.script_spec [Sample.exits 7] _ Hin eq_refl)
    as (Hcwd & Htimeout & _).
  split; [exact Hcwd|exact Htimeout].
Defined.

(** [X18_pre_command_call] on a setup command with a relative working
    directory and an environment of its own. *)
Lemma X18_pre_command_call_witness :
  In SampleMore.compose_call (calls SampleMore.compose_run) /\
  getRunPreCommands (P := posix) SampleMore.fs_compose "/proj" !! 0%nat
  = Some {| pc_argv := ["docker"; "compose"; "up"; "-d"];
            pc_env := Some {[ "COMPOSE_PROJECT_NAME" := "e2e" ]};
            pc_cwd := Some "infra" |} /\
  opt_cwd (te_options SampleMore.compose_call) = "/proj/infra" /\
  opt_env (te_options SampleMore.compose_call) !! "COMPOSE_PROJECT_NAME"
  = Some "e2e" /\
  opt_env (te_options SampleMore.compose_call) !! "CI" = Some "true".
Proof.
  assert (Hin : In SampleMore.compose_call (calls SampleMore.compose_run)).
  { vm_compute. left. reflexivity. }
  split; [exact Hin|]. split; [reflexivity|].
  destruct (X18_pre_command_call (P := posix)
              (H := Sample.scripted SampleMore.fs_compose)
              Sample.script_spec [Sample.exits 0; Sample.exits 0] _ 0%nat
              Hin eq_refl)
    as (c & configured & Hres & Hconfigured & _ & Hcwd & _ & _ & Henv & _).
  injection Hres as <-. injection Hconfigured as <-.
  split; [exact Hcwd|]. split.
  - rewrite (Henv "COMPOSE_PROJECT_NAME"). reflexivity.
  - rewrite (Henv "CI"). reflexivity.
Defined.

(** [X21_artifact_reported_twice] on a results directory that is also
    given as the output directory. *)
Lemma X21_artifact_reported_twice_witness :
  In Sample.screenshot_file
     (found_under (P := posix) Sample.fs_results
        (join (NodePath := posix) "/proj" "test-results")) /\
  exists before between after,
    collectArtifacts (P := posix) Sample.fs_results "/proj"
      (join (NodePath := posix) "/proj" "test-results")
    = before ++ Sample.screenshot_file :: between ++ Sample.screenshot_file :: after.
Proof.
  assert (Hin :
    In Sample.screenshot_file
       (found_under (P := posix) Sample.fs_results
          (join (NodePath := posix) "/proj" "test-results"))).
  { vm_compute. left. reflexivity. }
  split; [exact Hin|].
  exact (X21_artifact_reported_twice (P := posix) Sample.fs_results "/proj"
           Sample.screenshot_file Hin).
Defined.
